(** * openai-mcp-server: validation, image decoding and dispatch

    A shallow embedding of the request pipeline of the repository.
    src/types.ts holds three source files one after the other: the type
    declarations, the utilities (module [Utils]: [imageToBuffer],
    [bufferToDataURL], [validatePNGFormat], [validateDALLEParams],
    then [ImageFormatSchema], [sanitizePrompt], [truncateText],
    [exponentialBackoff], [validateAPIKey], [redactAPIKey],
    [isValidImageSize], [supportsFeature], [getModelFamily]) and
    the server with the image tools (module [Server]: its zod schemas,
    its own [imageToBuffer] and its handler of tool calls).
    src/index.ts is the second server (module [Index]).

    Conventions.
    - A JavaScript string is a [string]; a character is one code unit.
    - A [Buffer] is a list of bytes, each byte an [N] below 256.
    - A JavaScript number that arrives in a JSON argument is a finite
      value; it is represented exactly as a rational ([Q]).
    - [undefined] is [None] in [option json].
    - The [message] of an [McpError] is what the constructor of the SDK
      makes of its arguments: "MCP error <code>: " and the message
      given.
    - zod is modelled by schemas as data and a parser over them, with the
      messages of zod's issues.
    - The network ([fetch]) and the OpenAI client are oracles, the
      fields of a [Platform]; a handler returns the list of oracle calls
      it made together with its completion (a value or a thrown
      error). *)

From Stdlib Require Import String Ascii List Bool NArith ZArith QArith Lia.
From Stdlib Require Import DecimalString.
Import ListNotations.

Set Warnings "-register-all".

Local Open Scope string_scope.
Local Open Scope N_scope.

(* ================================================================== *)
(** ** Platform: strings *)
(* ================================================================== *)

Module JS.

(** [s.startsWith(p)] *)
Definition startsWith (s p : string) : bool := String.prefix p s.

(** [s.includes(sub)] *)
Fixpoint includes (s sub : string) : bool :=
  String.prefix sub s ||
  match s with
  | EmptyString => false
  | String _ r => includes r sub
  end.

(** [arr.includes(x)] on an array of strings *)
Definition array_includes (arr : list string) (x : string) : bool :=
  existsb (String.eqb x) arr.

(** [arr.join(sep)] *)
Definition join (sep : string) (arr : list string) : string :=
  String.concat sep arr.

(** The pieces of [s.split(sep)] for a one-character separator: the
    piece being read is [cur], reversed. *)
Fixpoint rev_string (acc s : string) : string :=
  match s with
  | EmptyString => acc
  | String c r => rev_string (String c acc) r
  end.

Fixpoint split_from (sep : ascii) (cur : string) (s : string) : list string :=
  match s with
  | EmptyString => [rev_string EmptyString cur]
  | String c r =>
      if Ascii.eqb c sep
      then rev_string EmptyString cur :: split_from sep EmptyString r
      else split_from sep (String c cur) r
  end.

Definition split (sep : ascii) (s : string) : list string :=
  split_from sep EmptyString s.

(** [String(n)] for an integer *)
Definition showZ (z : Z) : string := NilZero.string_of_int (Z.to_int z).
Definition showNat (n : nat) : string := showZ (Z.of_nat n).

(** The longest prefix of [s] whose characters satisfy [p], and the rest. *)
Fixpoint span (p : ascii -> bool) (s : string) : string * string :=
  match s with
  | EmptyString => (EmptyString, EmptyString)
  | String c r =>
      if p c
      then let (a, b) := span p r in (String c a, b)
      else (EmptyString, s)
  end.

Fixpoint all_chars (p : ascii -> bool) (s : string) : bool :=
  match s with
  | EmptyString => true
  | String c r => p c && all_chars p r
  end.

(** [s] without the prefix [p], when it starts with it. *)
Fixpoint strip_prefix (p s : string) : option string :=
  match p, s with
  | EmptyString, _ => Some s
  | String a p', String b s' => if Ascii.eqb a b then strip_prefix p' s' else None
  | String _ _, EmptyString => None
  end.

Definition code (c : ascii) : N := N_of_ascii c.

Definition in_range (lo hi : N) (c : ascii) : bool :=
  (lo <=? code c) && (code c <=? hi).

(** Line terminators, which [.] of a regular expression does not match. *)
Definition is_line_terminator (c : ascii) : bool :=
  (code c =? 10) || (code c =? 13).

End JS.

(* ================================================================== *)
(** ** Platform: Buffer and its base64 codec *)
(* ================================================================== *)

Module Buffer.

Definition t := list N.

Definition well_formed (b : t) : Prop := Forall (fun x => x < 256) b.

Definition alphabet : string :=
  "ABCDEFGHIJKLMNOPQRSTUVWXYZabcdefghijklmnopqrstuvwxyz0123456789+/".

Definition pad : ascii := "="%char.

(** The character of a 6-bit value. *)
Definition b64_char (i : N) : ascii :=
  match String.get (N.to_nat i) alphabet with
  | Some c => c
  | None => pad
  end.

(** [buffer.toString("base64")]: three bytes give four characters, a
    rest of one or two bytes is padded with [=]. *)
Fixpoint toString_base64 (b : t) : string :=
  match b with
  | [] => EmptyString
  | [x] =>
      String (b64_char (N.shiftr x 2))
     (String (b64_char (N.shiftl (N.land x 3) 4))
     (String pad (String pad EmptyString)))
  | [x; y] =>
      String (b64_char (N.shiftr x 2))
     (String (b64_char (N.lor (N.shiftl (N.land x 3) 4) (N.shiftr y 4)))
     (String (b64_char (N.shiftl (N.land y 15) 2))
     (String pad EmptyString)))
  | x :: y :: z :: rest =>
      String (b64_char (N.shiftr x 2))
     (String (b64_char (N.lor (N.shiftl (N.land x 3) 4) (N.shiftr y 4)))
     (String (b64_char (N.lor (N.shiftl (N.land y 15) 2) (N.shiftr z 6)))
     (String (b64_char (N.land z 63))
     (toString_base64 rest))))
  end.

(** The 6-bit value of a character; the decoder also reads the
    URL-safe [-] and [_]. *)
Definition unbase64 (c : ascii) : option N :=
  let n := JS.code c in
  if JS.in_range 65 90 c then Some (n - 65)
  else if JS.in_range 97 122 c then Some (n - 71)
  else if JS.in_range 48 57 c then Some (n + 4)
  else if (n =? 43) || (n =? 45) then Some 62
  else if (n =? 47) || (n =? 95) then Some 63
  else None.

(** The decoder of Node never rejects a string: a character outside the
    alphabet (white space or anything else) is skipped, and the first
    [=] ends the decoding. These are the 6-bit values it reads. *)
Fixpoint sextets (s : string) : list N :=
  match s with
  | EmptyString => []
  | String c r =>
      if Ascii.eqb c pad then []
      else match unbase64 c with
           | Some v => v :: sextets r
           | None => sextets r
           end
  end.

(** Four 6-bit values give three bytes; a byte is written as soon as
    the two values it is made of have been read. *)
Fixpoint bytes_of_sextets (l : list N) : t :=
  match l with
  | s0 :: s1 :: s2 :: s3 :: rest =>
      N.lor (N.shiftl (N.land s0 63) 2) (N.shiftr (N.land s1 48) 4)
      :: N.lor (N.shiftl (N.land s1 15) 4) (N.shiftr (N.land s2 60) 2)
      :: N.lor (N.shiftl (N.land s2 3) 6) (N.land s3 63)
      :: bytes_of_sextets rest
  | [s0; s1; s2] =>
      [ N.lor (N.shiftl (N.land s0 63) 2) (N.shiftr (N.land s1 48) 4);
        N.lor (N.shiftl (N.land s1 15) 4) (N.shiftr (N.land s2 60) 2) ]
  | [s0; s1] =>
      [ N.lor (N.shiftl (N.land s0 63) 2) (N.shiftr (N.land s1 48) 4) ]
  | _ => []
  end.

(** [Buffer.from(s, "base64")] *)
Definition from_base64 (s : string) : t := bytes_of_sextets (sextets s).

(** [buffer.subarray(0, n)] and [a.equals(b)] *)
Definition subarray0 (n : nat) (b : t) : t := firstn n b.
Definition equals (a b : t) : bool :=
  if list_eq_dec N.eq_dec a b then true else false.

End Buffer.

(* ================================================================== *)
(** ** JSON values *)
(* ================================================================== *)

Inductive json : Type :=
| JNull
| JBool (b : bool)
| JNum (q : Q)
| JStr (s : string)
| JArr (items : list json)
| JObj (fields : list (string * json)).

(** A JavaScript value read from an argument object: [None] is
    [undefined]. *)
Definition value := option json.

(** [obj[k]] on the fields of an object. *)
Fixpoint lookup (k : string) (fields : list (string * json)) : value :=
  match fields with
  | [] => None
  | (k', v) :: rest => if String.eqb k k' then Some v else lookup k rest
  end.

(** [v.k] for a value that is an object; [undefined] otherwise. *)
Definition get (v : value) (k : string) : value :=
  match v with
  | Some (JObj fields) => lookup k fields
  | _ => None
  end.

Definition Qlt_bool (a b : Q) : bool := negb (Qle_bool b a).

(** Truthiness of a value in a condition. *)
Definition truthy (v : value) : bool :=
  match v with
  | None => false
  | Some JNull => false
  | Some (JBool b) => b
  | Some (JNum q) => negb (Qeq_bool q 0)
  | Some (JStr s) => negb (String.eqb s EmptyString)
  | Some (JArr _) => true
  | Some (JObj _) => true
  end.

(** [v === s] for a string literal [s]. *)
Definition is_string (v : value) (s : string) : bool :=
  match v with
  | Some (JStr x) => String.eqb x s
  | _ => false
  end.

(** [v > k] for a number [v] and an integer literal [k]. *)
Definition gt_int (v : value) (k : Z) : bool :=
  match v with
  | Some (JNum q) => Qlt_bool (inject_Z k) q
  | _ => false
  end.

(** [arr.includes(v)] for an array of string literals. *)
Definition one_of (arr : list string) (v : value) : bool :=
  match v with
  | Some (JStr x) => JS.array_includes arr x
  | _ => false
  end.

(* ================================================================== *)
(** ** zod: schemas as data, and their parser *)
(* ================================================================== *)

Module Zod.

Inductive path_seg : Type :=
| Key (k : string)
| Index (i : nat).

Record ZodIssue : Type := { path : list path_seg; message : string }.

Inductive num_check : Type :=
| Min (k : Z)          (* .min(k) *)
| Max (k : Z)          (* .max(k) *)
| Positive.            (* .positive() *)

Inductive schema : Type :=
| ZString (max : option nat)              (* z.string() / .max(n) *)
| ZNumber (checks : list num_check)       (* z.number() with its checks *)
| ZBoolean                                (* z.boolean() *)
| ZEnum (values : list string)            (* z.enum([...]) *)
| ZArray (elem : schema)                  (* z.array(s) *)
| ZObject (shape : list (string * schema))(* z.object({...}) *)
| ZUnion (options : list schema)          (* z.union([...]) *)
| ZOptional (inner : schema)              (* s.optional() *)
| ZDefault (inner : schema) (dflt : json) (* s.default(v) *).

Inductive result : Type :=
| Ok (v : value)
| Err (issues : list ZodIssue).

Definition typeOf (v : value) : string :=
  match v with
  | None => "undefined"
  | Some JNull => "null"
  | Some (JBool _) => "boolean"
  | Some (JNum _) => "number"
  | Some (JStr _) => "string"
  | Some (JArr _) => "array"
  | Some (JObj _) => "object"
  end.

(** The issue for a value of the wrong type; a missing value is
    reported as "Required". *)
Definition invalid_type (p : list path_seg) (expected : string) (v : value)
  : ZodIssue :=
  {| path := p;
     message := match v with
                | None => "Required"
                | _ => "Expected " ++ expected ++ ", received " ++ typeOf v
                end |}.

Definition joinValues (values : list string) : string :=
  JS.join " | " (map (fun v => "'" ++ v ++ "'") values).

Definition check_number (p : list path_seg) (q : Q) (c : num_check)
  : list ZodIssue :=
  match c with
  | Min k =>
      if Qle_bool (inject_Z k) q then []
      else [ {| path := p;
                message := "Number must be greater than or equal to "
                           ++ JS.showZ k |} ]
  | Max k =>
      if Qle_bool q (inject_Z k) then []
      else [ {| path := p;
                message := "Number must be less than or equal to "
                           ++ JS.showZ k |} ]
  | Positive =>
      if Qlt_bool 0 q then []
      else [ {| path := p; message := "Number must be greater than 0" |} ]
  end.

Section Loops.
(** The loops of the parser over an array, an object shape and the
    options of a union, for a parser [f] of the component schemas. *)
Variable f : schema -> list path_seg -> value -> result.

Fixpoint parse_items (s : schema) (p : list path_seg) (i : nat)
         (items : list json) : list ZodIssue * list json :=
  match items with
  | [] => ([], [])
  | x :: rest =>
      let (issues, out) := parse_items s p (S i) rest in
      match f s (p ++ [Index i])%list (Some x) with
      | Ok (Some v) => (issues, v :: out)
      | Ok None => (issues, JNull :: out) (* no item schema here is optional *)
      | Err e => ((e ++ issues)%list, out)
      end
  end.

Fixpoint parse_shape (shape : list (string * schema)) (p : list path_seg)
         (fields : list (string * json))
  : list ZodIssue * list (string * json) :=
  match shape with
  | [] => ([], [])
  | (k, s) :: rest =>
      let (issues, out) := parse_shape rest p fields in
      match f s (p ++ [Key k])%list (lookup k fields) with
      | Ok (Some v) => (issues, (k, v) :: out)
      | Ok None => (issues, out)
      | Err e => ((e ++ issues)%list, out)
      end
  end.

Fixpoint parse_union (options : list schema) (p : list path_seg)
         (v : value) : result :=
  match options with
  | [] => Err [ {| path := p; message := "Invalid input" |} ]
  | s :: rest =>
      match f s p v with
      | Ok r => Ok r
      | Err _ => parse_union rest p v
      end
  end.
End Loops.

(** [schema.parse(v)], at path [p]: [Err] stands for the thrown
    [ZodError] with its issues. Every issue of an object's fields and
    of an array's items is collected. Unknown keys of an object are
    dropped. *)
Fixpoint parse (s : schema) (p : list path_seg) (v : value) : result :=
  match s with
  | ZString mx =>
      match v with
      | Some (JStr x) =>
          match mx with
          | Some m =>
              if (m <? String.length x)%nat
              then Err [ {| path := p;
                            message := "String must contain at most "
                                       ++ JS.showNat m ++ " character(s)" |} ]
              else Ok v
          | None => Ok v
          end
      | _ => Err [invalid_type p "string" v]
      end
  | ZNumber checks =>
      match v with
      | Some (JNum q) =>
          match flat_map (check_number p q) checks with
          | [] => Ok v
          | issues => Err issues
          end
      | _ => Err [invalid_type p "number" v]
      end
  | ZBoolean =>
      match v with
      | Some (JBool _) => Ok v
      | _ => Err [invalid_type p "boolean" v]
      end
  | ZEnum values =>
      match v with
      | Some (JStr x) =>
          if JS.array_includes values x then Ok v
          else Err [ {| path := p;
                        message := "Invalid enum value. Expected "
                                   ++ joinValues values
                                   ++ ", received '" ++ x ++ "'" |} ]
      | _ => Err [invalid_type p (joinValues values) v]
      end
  | ZArray elem =>
      match v with
      | Some (JArr items) =>
          match parse_items parse elem p 0 items with
          | ([], out) => Ok (Some (JArr out))
          | (issues, _) => Err issues
          end
      | _ => Err [invalid_type p "array" v]
      end
  | ZObject shape =>
      match v with
      | Some (JObj fields) =>
          match parse_shape parse shape p fields with
          | ([], out) => Ok (Some (JObj out))
          | (issues, _) => Err issues
          end
      | _ => Err [invalid_type p "object" v]
      end
  | ZUnion options => parse_union parse options p v
  | ZOptional inner =>
      match v with
      | None => Ok None
      | Some _ => parse inner p v
      end
  | ZDefault inner dflt =>
      match v with
      | None => parse inner p (Some dflt)
      | Some _ => parse inner p v
      end
  end.

(** [e.path.join(".")] *)
Definition show_seg (s : path_seg) : string :=
  match s with
  | Key k => k
  | Index i => JS.showNat i
  end.

Definition show_path (p : list path_seg) : string :=
  JS.join "." (map show_seg p).

(** [error.errors.map((e) => `${e.path.join(".")}: ${e.message}`).join(", ")] *)
Definition format_issue (e : ZodIssue) : string :=
  show_path (path e) ++ ": " ++ message e.

Definition format_issues (issues : list ZodIssue) : string :=
  JS.join ", " (map format_issue issues).

End Zod.

(* ================================================================== *)
(** ** Errors, oracles and the handler monad *)
(* ================================================================== *)

(** The codes of [McpError] that the servers use. *)
Inductive ErrorCode : Type := InvalidParams | InternalError | MethodNotFound.

(** What a [throw] carries. *)
Inductive exn : Type :=
| ZodError (issues : list Zod.ZodIssue)            (* z.ZodError *)
| APIError (status : option Z) (message : string)  (* OpenAI.APIError *)
| McpError (code : ErrorCode) (message : string)   (* McpError *)
| Error (message : string)                         (* new Error(message) *)
| TypeError (message : string).

(** The numbers of the codes, as JSON-RPC has them. *)
Definition ErrorCode_number (code : ErrorCode) : Z :=
  match code with
  | InvalidParams => -32602
  | InternalError => -32603
  | MethodNotFound => -32601
  end.

(** The [message] of [new McpError(code, message)]: the constructor of
    the SDK calls [super(`MCP error ${code}: ${message}`)]. *)
Definition McpError_message (code : ErrorCode) (message : string) : string :=
  "MCP error " ++ JS.showZ (ErrorCode_number code) ++ ": " ++ message.

Inductive completion (A : Type) : Type :=
| Return (a : A)
| Throw (e : exn).
Arguments Return {A} a.
Arguments Throw {A} e.

(** The response of [fetch]. *)
Record Response : Type :=
  { ok : bool; status : Z; statusText : string; arrayBuffer : Buffer.t }.

(** [new File([bits], name, { type })] *)
Record File : Type :=
  { bits : Buffer.t; file_name : string; file_type : string }.

Record EditParams : Type :=
  { edit_image : File; edit_mask : option File; edit_prompt : value;
    edit_model : value; edit_n : value; edit_size : value;
    edit_response_format : value; edit_user : value }.

Record VariationParams : Type :=
  { var_image : File; var_model : value; var_n : value;
    var_response_format : value; var_size : value; var_user : value }.

(** The calls of the OpenAI client that the servers make. *)
Inductive api_request : Type :=
| chat_completions_create (params : value)
| embeddings_create (params : value)
| images_generate (params : value)
| images_edit (params : EditParams)
| images_createVariation (params : VariationParams)
| models_list
| moderations_create (params : value).

(** What the program cannot compute by itself. *)
Record Platform : Type :=
  { fetch : string -> completion Response;
    openai : api_request -> completion json;
    JSON_stringify : json -> string;
    (* the [message] of a ZodError, which zod renders from its issues *)
    ZodError_message : list Zod.ZodIssue -> string }.

Inductive event : Type :=
| Fetched (url : string)
| Called (req : api_request).

(** A computation yields the oracle calls it made, in order, and how it
    completed. *)
Definition M (A : Type) : Type := list event * completion A.

Definition ret {A} (a : A) : M A := ([], Return a).
Definition throw {A} (e : exn) : M A := ([], Throw e).

Definition bind {A B} (m : M A) (k : A -> M B) : M B :=
  match m with
  | (t, Return a) => let (t', r) := k a in ((t ++ t')%list, r)
  | (t, Throw e) => (t, Throw e)
  end.

(** [try { m } catch (error) { h error }] *)
Definition try_catch {A} (m : M A) (h : exn -> M A) : M A :=
  match m with
  | (t, Return a) => (t, Return a)
  | (t, Throw e) => let (t', r) := h e in ((t ++ t')%list, r)
  end.

Notation "x <- m ;; k" := (bind m (fun x => k))
  (at level 61, m at next level, right associativity).
Notation "m ;;; k" := (bind m (fun _ => k))
  (at level 61, right associativity).

(** [if (c) throw e;] *)
Definition throw_if (c : bool) (e : exn) : M unit :=
  if c then throw e else ret tt.

Definition trace {A} (m : M A) : list event := fst m.
Definition outcome {A} (m : M A) : completion A := snd m.

(** The upstream API was reached when a client call is in the trace. *)
Definition is_call (e : event) : bool :=
  match e with Called _ => true | Fetched _ => false end.
Definition reaches_upstream {A} (m : M A) : bool := existsb is_call (trace m).

Section Effects.
Variable W : Platform.

Definition do_fetch (url : string) : M Response :=
  ([Fetched url], fetch W url).

Definition call (req : api_request) : M json :=
  ([Called req], openai W req).

(** [error.message] *)
Definition exn_message (e : exn) : string :=
  match e with
  | ZodError issues => ZodError_message W issues
  | APIError _ m => m
  | McpError code m => McpError_message code m
  | Error m => m
  | TypeError m => m
  end.

(** [schema.parse(args)] *)
Definition zparse (s : Zod.schema) (args : value) : M value :=
  match Zod.parse s [] args with
  | Zod.Ok v => ret v
  | Zod.Err issues => throw (ZodError issues)
  end.
End Effects.

(** An object literal; a property whose value is [undefined] does not
    appear when the object is serialised. *)
Fixpoint defined_props (props : list (string * value)) : list (string * json) :=
  match props with
  | [] => []
  | (k, Some v) :: rest => (k, v) :: defined_props rest
  | (_, None) :: rest => defined_props rest
  end.

Definition object (props : list (string * value)) : json :=
  JObj (defined_props props).

(** [v.k] where reading a property of [undefined] or [null] throws. *)
Definition prop (v : value) (k : string) : M value :=
  match v with
  | None =>
      throw (TypeError ("Cannot read properties of undefined (reading '"
                        ++ k ++ "')"))
  | Some JNull =>
      throw (TypeError ("Cannot read properties of null (reading '"
                        ++ k ++ "')"))
  | _ => ret (get v k)
  end.

(** [v[i]] likewise: the item of an array, the character of a string,
    the property named [i] of an object. *)
Definition item (v : value) (i : nat) : M value :=
  match v with
  | None =>
      throw (TypeError ("Cannot read properties of undefined (reading '"
                        ++ JS.showNat i ++ "')"))
  | Some JNull =>
      throw (TypeError ("Cannot read properties of null (reading '"
                        ++ JS.showNat i ++ "')"))
  | Some (JArr items) => ret (nth_error items i)
  | Some (JStr s) =>
      ret (option_map (fun c => JStr (String c EmptyString)) (String.get i s))
  | Some (JObj fields) => ret (lookup (JS.showNat i) fields)
  | Some (JBool _) => ret None
  | Some (JNum _) => ret None
  end.

(** The tool result [{ content: [{ type: "text", text }] }]. *)
Record ToolResult : Type := { text : string }.

(* ================================================================== *)
(** ** Utility functions *)
(* ================================================================== *)

Module Utils.

(** [[a-zA-Z+]] *)
Definition is_format_char (c : ascii) : bool :=
  JS.in_range 97 122 c || JS.in_range 65 90 c || (JS.code c =? 43).

(** [imageData.match(/^data:image\/([a-zA-Z+]+);base64,(.+)$/)]: the
    two groups. The first group is the longest run of format
    characters, since the character after it has to be [;]. *)
Definition match_data_url (imageData : string) : option (string * string) :=
  match JS.strip_prefix "data:image/" imageData with
  | None => None
  | Some r =>
      let (format, r1) := JS.span is_format_char r in
      if String.eqb format EmptyString then None
      else match JS.strip_prefix ";base64," r1 with
           | None => None
           | Some base64Data =>
               if String.eqb base64Data EmptyString then None
               else if JS.all_chars (fun c => negb (JS.is_line_terminator c))
                                    base64Data
                    then Some (format, base64Data)
                    else None
           end
  end.

Section WithPlatform.
Variable W : Platform.

Definition imageToBuffer (imageData : string) : M Buffer.t :=
  if JS.startsWith imageData "http://" || JS.startsWith imageData "https://"
  then
    try_catch
      (response <- do_fetch W imageData ;;
       throw_if (negb (ok response))
         (Error ("Failed to fetch image from URL: "
                 ++ JS.showZ (status response) ++ " "
                 ++ statusText response)) ;;;
       ret (arrayBuffer response))
      (fun error =>
         throw (Error ("Error fetching image from URL: "
                       ++ exn_message W error)))
  else if JS.startsWith imageData "data:image"
  then
    match match_data_url imageData with
    | None => throw (Error "Invalid data URL format")
    | Some (format, base64Data) =>
        throw_if (negb (String.eqb format "png"))
          (Error ("Unsupported image format: " ++ format
                  ++ ". Only PNG is supported.")) ;;;
        ret (Buffer.from_base64 base64Data)
    end
  else
    try_catch
      (ret (Buffer.from_base64 imageData))
      (fun _ => throw (Error "Invalid base64 image data")).
End WithPlatform.

Definition bufferToDataURL_with (buffer : Buffer.t) (mimeType : string)
  : string :=
  let base64 := Buffer.toString_base64 buffer in
  "data:" ++ mimeType ++ ";base64," ++ base64.

(** [mimeType] defaults to "image/png". *)
Definition bufferToDataURL (buffer : Buffer.t) : string :=
  bufferToDataURL_with buffer "image/png".

Definition pngSignature : Buffer.t :=
  [0x89; 0x50; 0x4e; 0x47; 0x0d; 0x0a; 0x1a; 0x0a].

Definition validatePNGFormat (buffer : Buffer.t) : bool :=
  if (length buffer <? 8)%nat then false
  else Buffer.equals (Buffer.subarray0 8 buffer) pngSignature.

Record DALLEParams : Type :=
  { model : string;
    size : option string;
    quality : option string;
    style : option string;
    n : option Q }.

Record Validation : Type := { valid : bool; errors : list string }.

(** [params.n && params.n > 1] *)
Definition n_above_one (n : option Q) : bool :=
  match n with
  | Some q => negb (Qeq_bool q 0) && Qlt_bool 1 q
  | None => false
  end.

(** [params.size && !sizes.includes(params.size)] *)
Definition size_not_in (sizes : list string) (size : option string) : bool :=
  match size with
  | Some s => negb (String.eqb s EmptyString) && negb (JS.array_includes sizes s)
  | None => false
  end.

Definition is_hd (quality : option string) : bool :=
  match quality with
  | Some q => String.eqb q "hd"
  | None => false
  end.

Definition present (style : option string) : bool :=
  match style with
  | Some s => negb (String.eqb s EmptyString)
  | None => false
  end.

(** [if (c) errors.push(e)] *)
Definition push_if (c : bool) (e : string) (errors : list string)
  : list string :=
  if c then (errors ++ [e])%list else errors.

Definition validateDALLEParams (params : DALLEParams) : Validation :=
  let errors := [] in
  let errors :=
    if String.eqb (model params) "dall-e-3" then
      let errors :=
        push_if (n_above_one (n params)) "DALL-E 3 only supports n=1" errors in
      push_if
        (size_not_in ["1024x1024"; "1792x1024"; "1024x1792"] (size params))
        "DALL-E 3 only supports sizes: 1024x1024, 1792x1024, 1024x1792"
        errors
    else if String.eqb (model params) "dall-e-2" then
      let errors :=
        push_if (is_hd (quality params))
                "DALL-E 2 does not support 'hd' quality" errors in
      let errors :=
        push_if (present (style params))
                "DALL-E 2 does not support 'style' parameter" errors in
      push_if
        (size_not_in ["256x256"; "512x512"; "1024x1024"] (size params))
        "DALL-E 2 only supports sizes: 256x256, 512x512, 1024x1024"
        errors
    else errors in
  {| valid := (length errors =? 0)%nat; errors := errors |}.

(** *** The other utilities *)

(** [[A-Za-z0-9+/]] *)
Definition is_base64_char (c : ascii) : bool :=
  JS.in_range 65 90 c || JS.in_range 97 122 c || JS.in_range 48 57 c
  || (JS.code c =? 43)%N || (JS.code c =? 47)%N.

(** [/^[A-Za-z0-9+/]+={0,2}$/.test(s)]. No character of the class is
    [=], so the run of class characters that the match uses is the
    longest one. *)
Definition matches_base64 (s : string) : bool :=
  let (body, padding) := JS.span is_base64_char s in
  negb (String.eqb body EmptyString)
  && (String.eqb padding EmptyString || String.eqb padding "="
      || String.eqb padding "==").

(** Whether [ImageFormatSchema] accepts a value: one option of the
    union has to. *)
Definition ImageFormatSchema_accepts (v : value) : bool :=
  match v with
  | Some (JStr s) =>
      JS.startsWith s "http://" || JS.startsWith s "https://"
      || JS.startsWith s "data:image/png;base64," || matches_base64 s
  | _ => false
  end.

(** White space, as [\s] of a regular expression and [trim] see it,
    among the code units below 256: tab, line feed, vertical tab, form
    feed, carriage return, space and no-break space. *)
Definition is_space (c : ascii) : bool :=
  JS.in_range 9 13 c || (JS.code c =? 32) || (JS.code c =? 160).

Fixpoint trimStart (s : string) : string :=
  match s with
  | EmptyString => EmptyString
  | String c r => if is_space c then trimStart r else s
  end.

Fixpoint trimEnd (s : string) : string :=
  match s with
  | EmptyString => EmptyString
  | String c r =>
      let r' := trimEnd r in
      if is_space c && String.eqb r' EmptyString then EmptyString
      else String c r'
  end.

(** [s.trim()] *)
Definition trim (s : string) : string := trimEnd (trimStart s).

(** [s.replace(/\s+/g, " ")]: every longest run of white space becomes
    one space; [in_run] tells that the run being read has been
    replaced already. *)
Fixpoint collapse (in_run : bool) (s : string) : string :=
  match s with
  | EmptyString => EmptyString
  | String c r =>
      if is_space c
      then if in_run then collapse true r else String " " (collapse true r)
      else String c (collapse false r)
  end.

(** [s.substring(0, k)] for an integer [k]: a negative [k] counts as 0. *)
Definition substring0 (k : Z) (s : string) : string :=
  String.substring 0 (Z.to_nat k) s.

(** [maxLength] is an integer; it defaults to 4000. *)
Definition sanitizePrompt_with (prompt : string) (maxLength : Z) : string :=
  let sanitized := collapse false (trim prompt) in
  if (Z.of_nat (String.length sanitized) >? maxLength)%Z
  then substring0 maxLength sanitized
  else sanitized.

Definition sanitizePrompt (prompt : string) : string :=
  sanitizePrompt_with prompt 4000.

(** [maxLength] is an integer. *)
Definition truncateText (text : string) (maxLength : Z) : string :=
  if (Z.of_nat (String.length text) <=? maxLength)%Z then text
  else substring0 (maxLength - 3) text ++ "...".

(** [Math.min(baseDelay * Math.pow(2, attempt), 32000)] where
    [attempt] and [baseDelay] are natural numbers: negative and
    fractional arguments are outside this model. [Math.pow(2, attempt)]
    is exact up to attempt 1023 and Infinity from 1024 on. The product
    of a natural number by a power of two is exact, or Infinity when it
    overflows, and the minimum is then 32000, as it is for the exact
    product. The one exception is [0 * Infinity], which is NaN, and so
    is the minimum then: [None]. *)
Definition exponentialBackoff_with (attempt baseDelay : N) : option N :=
  if (1023 <? attempt) && (baseDelay =? 0) then None
  else Some (N.min (baseDelay * 2 ^ attempt) 32000).

(** [baseDelay] defaults to 1000. *)
Definition exponentialBackoff (attempt : N) : option N :=
  exponentialBackoff_with attempt 1000.

(** [[a-zA-Z0-9]] *)
Definition is_alnum (c : ascii) : bool :=
  JS.in_range 97 122 c || JS.in_range 65 90 c || JS.in_range 48 57 c.

(** [/^sk-[a-zA-Z0-9]{20,}$/.test(apiKey)] *)
Definition validateAPIKey (apiKey : string) : bool :=
  match JS.strip_prefix "sk-" apiKey with
  | Some rest =>
      JS.all_chars is_alnum rest && (20 <=? String.length rest)%nat
  | None => false
  end.

(** The length of the match of [/sk-[a-zA-Z0-9]{20,}/] at the start of
    [s], if there is one: the run of letters and digits is the longest
    one. *)
Definition key_at (s : string) : option nat :=
  match JS.strip_prefix "sk-" s with
  | Some rest =>
      let run := fst (JS.span is_alnum rest) in
      if (20 <=? String.length run)%nat then Some (3 + String.length run)%nat
      else None
  | None => None
  end.

(** [text.replace(/sk-[a-zA-Z0-9]{20,}/g, "sk-***REDACTED***")], read
    from left to right: [skip] characters are still part of the match
    that has just been replaced. *)
Fixpoint redact (skip : nat) (text : string) : string :=
  match text with
  | EmptyString => EmptyString
  | String c r =>
      match skip with
      | S k => redact k r
      | O =>
          match key_at text with
          | Some len => "sk-***REDACTED***" ++ redact (len - 1) r
          | None => String c (redact 0 r)
          end
      end
  end.

Definition redactAPIKey (text : string) : string := redact 0 text.

(** The properties every object has from [Object.prototype]: reading
    one of them from an object literal gives a value that is not
    [undefined] and has no [includes]. *)
Definition object_prototype_keys : list string :=
  [ "constructor"; "__defineGetter__"; "__defineSetter__"; "hasOwnProperty";
    "__lookupGetter__"; "__lookupSetter__"; "isPrototypeOf";
    "propertyIsEnumerable"; "toString"; "valueOf"; "__proto__";
    "toLocaleString" ].

(** [validSizes[model]?.includes(size) ?? false] *)
Definition isValidImageSize (size model : string) : completion bool :=
  if String.eqb model "dall-e-2"
  then Return (JS.array_includes ["256x256"; "512x512"; "1024x1024"] size)
  else if String.eqb model "dall-e-3"
  then Return (JS.array_includes ["1024x1024"; "1792x1024"; "1024x1792"] size)
  else if JS.array_includes object_prototype_keys model
  then Throw (TypeError "validSizes[model]?.includes is not a function")
  else Return false.

(** [featureSupport[feature]?.includes(model) ?? false] *)
Definition supportsFeature (model feature : string) : completion bool :=
  if String.eqb feature "streaming"
  then Return (JS.array_includes
                 ["gpt-4o"; "gpt-4-turbo"; "gpt-4"; "gpt-3.5-turbo"] model)
  else if String.eqb feature "functions"
  then Return (JS.array_includes
                 ["gpt-4o"; "gpt-4-turbo"; "gpt-4"; "gpt-3.5-turbo"] model)
  else if String.eqb feature "vision"
  then Return (JS.array_includes ["gpt-4o"; "gpt-4-turbo"] model)
  else if String.eqb feature "json_mode"
  then Return (JS.array_includes ["gpt-4o"; "gpt-4-turbo"; "gpt-3.5-turbo"] model)
  else if JS.array_includes object_prototype_keys feature
  then Throw (TypeError "featureSupport[feature]?.includes is not a function")
  else Return false.

Definition getModelFamily (model : string) : string :=
  if JS.startsWith model "gpt-4" then "gpt-4"
  else if JS.startsWith model "gpt-3.5" then "gpt-3.5"
  else if JS.startsWith model "text-embedding" then "embedding"
  else if JS.startsWith model "dall-e" then "dall-e"
  else "unknown".

End Utils.

(* ================================================================== *)
(** ** The server with the image tools *)
(* ================================================================== *)

Module Server.
Import Zod.

Definition JZ (k : Z) : json := JNum (inject_Z k).

Definition ChatCompletionSchema : schema :=
  ZObject
    [ ("model", ZDefault (ZString None) (JStr "gpt-4o"));
      ("messages",
        ZArray (ZObject
          [ ("role", ZEnum ["system"; "user"; "assistant"; "function"; "tool"]);
            ("content", ZString None);
            ("name", ZOptional (ZString None)) ]));
      ("temperature", ZDefault (ZOptional (ZNumber [Min 0; Max 2])) (JZ 1));
      ("max_tokens", ZOptional (ZNumber [Positive]));
      ("top_p", ZOptional (ZNumber [Min 0; Max 1]));
      ("frequency_penalty", ZOptional (ZNumber [Min (-2); Max 2]));
      ("presence_penalty", ZOptional (ZNumber [Min (-2); Max 2]));
      ("n", ZDefault (ZOptional (ZNumber [Positive])) (JZ 1));
      ("stream", ZDefault (ZOptional ZBoolean) (JBool false));
      ("stop", ZOptional (ZUnion [ZString None; ZArray (ZString None)]));
      ("user", ZOptional (ZString None)) ].

Definition CreateEmbeddingSchema : schema :=
  ZObject
    [ ("model", ZDefault (ZString None) (JStr "text-embedding-3-small"));
      ("input", ZUnion [ZString None; ZArray (ZString None)]);
      ("encoding_format", ZOptional (ZEnum ["float"; "base64"]));
      ("dimensions", ZOptional (ZNumber [Positive]));
      ("user", ZOptional (ZString None)) ].

Definition GenerateImageSchema : schema :=
  ZObject
    [ ("prompt", ZString (Some 4000%nat));
      ("model", ZDefault (ZEnum ["dall-e-2"; "dall-e-3"]) (JStr "dall-e-3"));
      ("n", ZDefault (ZOptional (ZNumber [Min 1; Max 10])) (JZ 1));
      ("quality",
        ZDefault (ZOptional (ZEnum ["standard"; "hd"])) (JStr "standard"));
      ("response_format",
        ZDefault (ZOptional (ZEnum ["url"; "b64_json"])) (JStr "url"));
      ("size",
        ZDefault
          (ZOptional
             (ZEnum ["256x256"; "512x512"; "1024x1024"; "1792x1024";
                     "1024x1792"]))
          (JStr "1024x1024"));
      ("style", ZDefault (ZOptional (ZEnum ["vivid"; "natural"])) (JStr "vivid"));
      ("user", ZOptional (ZString None)) ].

(** [.describe(...)] only documents a field and is left out. *)
Definition EditImageSchema : schema :=
  ZObject
    [ ("image", ZString None);
      ("mask", ZOptional (ZString None));
      ("prompt", ZString (Some 4000%nat));
      ("model", ZDefault (ZEnum ["dall-e-2"]) (JStr "dall-e-2"));
      ("n", ZDefault (ZOptional (ZNumber [Min 1; Max 10])) (JZ 1));
      ("size",
        ZDefault (ZOptional (ZEnum ["256x256"; "512x512"; "1024x1024"]))
                 (JStr "1024x1024"));
      ("response_format",
        ZDefault (ZOptional (ZEnum ["url"; "b64_json"])) (JStr "url"));
      ("user", ZOptional (ZString None)) ].

Definition CreateImageVariationSchema : schema :=
  ZObject
    [ ("image", ZString None);
      ("model", ZDefault (ZEnum ["dall-e-2"]) (JStr "dall-e-2"));
      ("n", ZDefault (ZOptional (ZNumber [Min 1; Max 10])) (JZ 1));
      ("response_format",
        ZDefault (ZOptional (ZEnum ["url"; "b64_json"])) (JStr "url"));
      ("size",
        ZDefault (ZOptional (ZEnum ["256x256"; "512x512"; "1024x1024"]))
                 (JStr "1024x1024"));
      ("user", ZOptional (ZString None)) ].

Section WithPlatform.
Variable W : Platform.

(** [Buffer.from(x, "base64")] where [x] may be [undefined]. *)
Definition Buffer_from (x : option string) : M Buffer.t :=
  match x with
  | Some s => ret (Buffer.from_base64 s)
  | None =>
      throw (TypeError "The first argument must be of type string or an instance of Buffer, ArrayBuffer, or Array or an Array-like Object. Received undefined")
  end.

(** The handler's own helper, not the one of the utilities. *)
Definition imageToBuffer (imageData : string) : M Buffer.t :=
  if JS.startsWith imageData "http://" || JS.startsWith imageData "https://"
  then
    response <- do_fetch W imageData ;;
    throw_if (negb (ok response))
      (Error ("Failed to fetch image from URL: " ++ statusText response)) ;;;
    ret (arrayBuffer response)
  else if JS.startsWith imageData "data:image"
  then
    let base64Data := nth_error (JS.split "," imageData) 1 in
    Buffer_from base64Data
  else
    ret (Buffer.from_base64 imageData).

(** The helper applied to a property of the parsed parameters. *)
Definition imageToBuffer_of (v : value) : M Buffer.t :=
  match v with
  | Some (JStr s) => imageToBuffer s
  | _ => throw (TypeError "imageData.startsWith is not a function")
  end.

Definition text_of (response : json) : ToolResult :=
  {| text := JSON_stringify W response |}.

Definition png_file (b : Buffer.t) (name : string) : File :=
  {| bits := b; file_name := name; file_type := "image/png" |}.

Definition generate_image_checks (params : value) : M unit :=
  (* DALL-E 3 specific validations *)
  (if is_string (get params "model") "dall-e-3" then
     throw_if (truthy (get params "n") && gt_int (get params "n") 1)
       (Error "DALL-E 3 only supports n=1") ;;;
     throw_if
       (truthy (get params "size")
        && negb (one_of ["1024x1024"; "1792x1024"; "1024x1792"]
                        (get params "size")))
       (Error "DALL-E 3 only supports sizes: 1024x1024, 1792x1024, 1024x1792")
   else ret tt) ;;;
  (* DALL-E 2 specific validations *)
  (if is_string (get params "model") "dall-e-2" then
     throw_if (is_string (get params "quality") "hd")
       (Error "DALL-E 2 does not support 'hd' quality") ;;;
     throw_if (truthy (get params "style"))
       (Error "DALL-E 2 does not support 'style' parameter") ;;;
     throw_if
       (truthy (get params "size")
        && negb (one_of ["256x256"; "512x512"; "1024x1024"]
                        (get params "size")))
       (Error "DALL-E 2 only supports sizes: 256x256, 512x512, 1024x1024")
   else ret tt).

(** The body of the [switch (name)]. *)
Definition dispatch (name : string) (args : value) : M ToolResult :=
  if String.eqb name "chat_completion" then
    params <- zparse ChatCompletionSchema args ;;
    completion <- call W (chat_completions_create params) ;;
    ret (text_of completion)
  else if String.eqb name "create_embedding" then
    params <- zparse CreateEmbeddingSchema args ;;
    embedding <- call W (embeddings_create params) ;;
    ret (text_of embedding)
  else if String.eqb name "generate_image" then
    params <- zparse GenerateImageSchema args ;;
    generate_image_checks params ;;;
    image <- call W (images_generate params) ;;
    ret (text_of image)
  else if String.eqb name "edit_image" then
    params <- zparse EditImageSchema args ;;
    (* Convert image and mask to buffers *)
    imageBuffer <- imageToBuffer_of (get params "image") ;;
    maskBuffer <- (if truthy (get params "mask")
                   then b <- imageToBuffer_of (get params "mask") ;; ret (Some b)
                   else ret None) ;;
    (* Create File objects *)
    let imageFile := png_file imageBuffer "image.png" in
    let maskFile := option_map (fun b => png_file b "mask.png") maskBuffer in
    let editParams :=
      {| edit_image := imageFile;
         edit_mask := maskFile;
         edit_prompt := get params "prompt";
         edit_model := get params "model";
         edit_n := get params "n";
         edit_size := get params "size";
         edit_response_format := get params "response_format";
         edit_user := get params "user" |} in
    image <- call W (images_edit editParams) ;;
    ret (text_of image)
  else if String.eqb name "create_image_variation" then
    params <- zparse CreateImageVariationSchema args ;;
    imageBuffer <- imageToBuffer_of (get params "image") ;;
    let imageFile := png_file imageBuffer "image.png" in
    image <- call W (images_createVariation
                       {| var_image := imageFile;
                          var_model := get params "model";
                          var_n := get params "n";
                          var_response_format := get params "response_format";
                          var_size := get params "size";
                          var_user := get params "user" |}) ;;
    ret (text_of image)
  else if String.eqb name "list_models" then
    models <- call W models_list ;;
    ret (text_of models)
  else
    throw (Error ("Unknown tool: " ++ name)).

(** [`${error.status}`] *)
Definition show_status (status : option Z) : string :=
  match status with
  | Some s => JS.showZ s
  | None => "undefined"
  end.

(** The [catch] of the handler. *)
Definition on_error (error : exn) : M ToolResult :=
  match error with
  | ZodError issues =>
      throw (Error ("Invalid input parameters: " ++ format_issues issues))
  | APIError status message =>
      throw (Error ("OpenAI API error (" ++ show_status status ++ "): "
                    ++ message))
  | _ => throw error
  end.

(** The handler of [CallToolRequestSchema]. *)
Definition handler (name : string) (args : value) : M ToolResult :=
  try_catch (dispatch name args) on_error.
End WithPlatform.

End Server.

(* ================================================================== *)
(** ** The server of src/index.ts *)
(* ================================================================== *)

Module Index.
Import Zod.

Definition ChatCompletionArgsSchema : schema :=
  ZObject
    [ ("messages",
        ZArray (ZObject
          [ ("role", ZEnum ["system"; "user"; "assistant"]);
            ("content", ZString None) ]));
      ("model", ZDefault (ZString None) (JStr "gpt-4o"));
      ("temperature",
        ZDefault (ZOptional (ZNumber [Min 0; Max 2])) (JNum (7 # 10)));
      ("max_tokens", ZOptional (ZNumber [Positive]));
      ("top_p", ZOptional (ZNumber [Min 0; Max 1]));
      ("frequency_penalty", ZOptional (ZNumber [Min (-2); Max 2]));
      ("presence_penalty", ZOptional (ZNumber [Min (-2); Max 2])) ].

Definition GenerateEmbeddingsArgsSchema : schema :=
  ZObject
    [ ("input", ZUnion [ZString None; ZArray (ZString None)]);
      ("model", ZDefault (ZString None) (JStr "text-embedding-3-small"));
      ("encoding_format", ZOptional (ZEnum ["float"; "base64"]));
      ("dimensions", ZOptional (ZNumber [Positive])) ].

Definition ModerateContentArgsSchema : schema :=
  ZObject
    [ ("input", ZUnion [ZString None; ZArray (ZString None)]);
      ("model", ZDefault (ZString None) (JStr "omni-moderation-latest")) ].

Section WithPlatform.
Variable W : Platform.

Definition text_of (response : json) : ToolResult :=
  {| text := JSON_stringify W response |}.

(** The [catch] around each client call. *)
Definition on_api_error {A} (error : exn) : M A :=
  throw (McpError InternalError
                  ("OpenAI API error: " ++ exn_message W error)).

(** [models.data.map((model) => ({ id, created, owned_by }))] *)
Fixpoint map_models (data : list json) : M (list json) :=
  match data with
  | [] => ret []
  | model :: rest =>
      id <- prop (Some model) "id" ;;
      created <- prop (Some model) "created" ;;
      owned_by <- prop (Some model) "owned_by" ;;
      others <- map_models rest ;;
      ret (object [("id", id); ("created", created); ("owned_by", owned_by)]
           :: others)
  end.

Definition dispatch (name : string) (args : value) : M ToolResult :=
  if String.eqb name "chat_completion" then
    validatedArgs <- zparse ChatCompletionArgsSchema args ;;
    try_catch
      (completion <- call W (chat_completions_create (Some (object
           [ ("model", get validatedArgs "model");
             ("messages", get validatedArgs "messages");
             ("temperature", get validatedArgs "temperature");
             ("max_tokens", get validatedArgs "max_tokens");
             ("top_p", get validatedArgs "top_p");
             ("frequency_penalty", get validatedArgs "frequency_penalty");
             ("presence_penalty", get validatedArgs "presence_penalty") ]))) ;;
       choices <- prop (Some completion) "choices" ;;
       choice <- item choices 0 ;;
       message <- prop choice "message" ;;
       usage <- prop (Some completion) "usage" ;;
       model <- prop (Some completion) "model" ;;
       finish_reason <- prop choice "finish_reason" ;;
       ret (text_of (object
           [ ("message", message);
             ("usage", usage);
             ("model", model);
             ("finish_reason", finish_reason) ])))
      on_api_error
  else if String.eqb name "generate_embeddings" then
    validatedArgs <- zparse GenerateEmbeddingsArgsSchema args ;;
    try_catch
      (embedding <- call W (embeddings_create (Some (object
           [ ("model", get validatedArgs "model");
             ("input", get validatedArgs "input");
             ("encoding_format", get validatedArgs "encoding_format");
             ("dimensions", get validatedArgs "dimensions") ]))) ;;
       data <- prop (Some embedding) "data" ;;
       model <- prop (Some embedding) "model" ;;
       usage <- prop (Some embedding) "usage" ;;
       ret (text_of (object
           [ ("embeddings", data); ("model", model); ("usage", usage) ])))
      on_api_error
  else if String.eqb name "list_models" then
    try_catch
      (models <- call W models_list ;;
       data <- prop (Some models) "data" ;;
       match data with
       | Some (JArr items) =>
           projected <- map_models items ;;
           ret (text_of (object
               [ ("models", Some (JArr projected));
                 ("total",
                   Some (JNum (inject_Z (Z.of_nat (length items))))) ]))
       | None =>
           throw (TypeError
             "Cannot read properties of undefined (reading 'map')")
       | Some JNull =>
           throw (TypeError "Cannot read properties of null (reading 'map')")
       | Some _ => throw (TypeError "models.data.map is not a function")
       end)
      on_api_error
  else if String.eqb name "moderate_content" then
    validatedArgs <- zparse ModerateContentArgsSchema args ;;
    try_catch
      (moderation <- call W (moderations_create (Some (object
           [ ("model", get validatedArgs "model");
             ("input", get validatedArgs "input") ]))) ;;
       results <- prop (Some moderation) "results" ;;
       model <- prop (Some moderation) "model" ;;
       ret (text_of (object [ ("results", results); ("model", model) ])))
      on_api_error
  else
    throw (McpError MethodNotFound ("Unknown tool: " ++ name)).

(** The outer [catch]. *)
Definition on_error (error : exn) : M ToolResult :=
  match error with
  | ZodError issues =>
      throw (McpError InvalidParams
                      ("Invalid parameters: " ++ format_issues issues))
  | _ => throw error
  end.

Definition handler (name : string) (args : value) : M ToolResult :=
  try_catch (dispatch name args) on_error.
End WithPlatform.

End Index.

(* ================================================================== *)
(** ** Vocabulary of the statements *)
(* ================================================================== *)

(** The argument object [{ ... }] of a tool call. *)
Definition args_of (fields : list (string * json)) : value := Some (JObj fields).

(** A platform without network, whose client answers every call with
    an empty object. *)
Definition quiet_platform : Platform :=
  {| fetch := fun _ => Throw (TypeError "fetch failed");
     openai := fun _ => Return (JObj []);
     JSON_stringify := fun _ => "{}";
     ZodError_message := fun _ => "[]" |}.

(** A client whose every call fails with status 429. The client puts
    the status at the start of the message of its APIError. *)
Definition rate_limited : Platform :=
  {| fetch := fun _ => Throw (TypeError "fetch failed");
     openai := fun _ => Throw (APIError (Some 429%Z) "429 Rate limit exceeded");
     JSON_stringify := fun _ => "{}";
     ZodError_message := fun _ => "[]" |}.

(** The arguments [{ messages: [{ role: "user", content: "hi" }] }]. *)
Definition hello_args : value :=
  args_of [("messages",
             JArr [JObj [("role", JStr "user"); ("content", JStr "hi")]])].

(** An edit_image call with a JPEG data URL, and the request of the
    client it leads to. *)
Definition jpeg_edit_args : value :=
  args_of [("image", JStr "data:image/jpeg;base64,AAAA"); ("prompt", JStr "x")].

Definition jpeg_edit_request : api_request :=
  images_edit
    {| edit_image := {| bits := [0; 0; 0]; file_name := "image.png";
                        file_type := "image/png" |};
       edit_mask := None;
       edit_prompt := Some (JStr "x");
       edit_model := Some (JStr "dall-e-2");
       edit_n := Some (JNum 1);
       edit_size := Some (JStr "1024x1024");
       edit_response_format := Some (JStr "url");
       edit_user := None |}.

(** *** Validation *)

(** The schema accepts the arguments: [parse] does not throw. *)
Definition accepts (sch : Zod.schema) (args : value) : Prop :=
  exists params, Zod.parse sch [] args = Zod.Ok params.

(** The message an error carries. *)
Definition error_text (e : exn) : string :=
  match e with
  | ZodError _ => EmptyString
  | APIError _ m => m
  | McpError code m => McpError_message code m
  | Error m => m
  | TypeError m => m
  end.

(** [handler] rejects [args] without calling anything, with a message
    that contains [needle]. *)
Definition rejects_naming (handler : value -> M ToolResult) (args : value)
           (needle : string) : Prop :=
  exists e,
    handler args = ([], Throw e) /\ JS.includes (error_text e) needle = true.

(** The issues of [.min(lo)] and [.max(hi)]. *)
Definition too_small (p : list Zod.path_seg) (lo : Z) : Zod.ZodIssue :=
  {| Zod.path := p;
     Zod.message := "Number must be greater than or equal to " ++ JS.showZ lo |}.

Definition too_big (p : list Zod.path_seg) (hi : Z) : Zod.ZodIssue :=
  {| Zod.path := p;
     Zod.message := "Number must be less than or equal to " ++ JS.showZ hi |}.

(** The field [k] of the tool with schema [sch] is bounded by [lo] and
    [hi]: a valid argument object stays valid when [k] is set to a value
    from [lo] to [hi], the bounds included; and every argument object
    whose [k] is a number below [lo] or above [hi] is rejected with a
    message that names the field and the bound. *)
Definition enforces_bounds (handler : value -> M ToolResult)
           (sch : Zod.schema) (k : string) (lo hi : Z) : Prop :=
  (forall fields v,
      accepts sch (args_of fields) ->
      (inject_Z lo <= v /\ v <= inject_Z hi)%Q ->
      accepts sch (args_of ((k, JNum v) :: fields)))
  /\ (forall fields v,
         lookup k fields = Some (JNum v) ->
         (v < inject_Z lo)%Q ->
         rejects_naming handler (args_of fields)
           (k ++ ": " ++ "Number must be greater than or equal to "
              ++ JS.showZ lo))
  /\ (forall fields v,
         lookup k fields = Some (JNum v) ->
         (inject_Z hi < v)%Q ->
         rejects_naming handler (args_of fields)
           (k ++ ": " ++ "Number must be less than or equal to "
              ++ JS.showZ hi)).

(** The schema each tool of the handlers parses its arguments with. *)
Definition Server_schemas : list (string * Zod.schema) :=
  [ ("chat_completion", Server.ChatCompletionSchema);
    ("create_embedding", Server.CreateEmbeddingSchema);
    ("generate_image", Server.GenerateImageSchema);
    ("edit_image", Server.EditImageSchema);
    ("create_image_variation", Server.CreateImageVariationSchema) ].

Definition Index_schemas : list (string * Zod.schema) :=
  [ ("chat_completion", Index.ChatCompletionArgsSchema);
    ("generate_embeddings", Index.GenerateEmbeddingsArgsSchema);
    ("moderate_content", Index.ModerateContentArgsSchema) ].

(** A message object [{ role, content, name? }]. *)
Definition message (role content : string) (name : option string) : json :=
  object [ ("role", Some (JStr role)); ("content", Some (JStr content));
           ("name", option_map JStr name) ].

(** The message of a triple (role, content, name). *)
Definition message_of (m : string * string * option string) : json :=
  message (fst (fst m)) (snd (fst m)) (snd m).

Definition five_roles : list string :=
  ["system"; "user"; "assistant"; "function"; "tool"].

Definition three_roles : list string := ["system"; "user"; "assistant"].

(** The issue of a role outside the three roles of src/index.ts. *)
Definition role_issue (i : nat) (role : string) : Zod.ZodIssue :=
  {| Zod.path := [Zod.Key "messages"; Zod.Index i; Zod.Key "role"];
     Zod.message := "Invalid enum value. Expected 'system' | 'user' | 'assistant', received '"
                    ++ role ++ "'" |}.

(** The messages of the two dall-e-2 checks that come first. *)
Definition hd_error : string := "DALL-E 2 does not support 'hd' quality".

Definition style_error : string := "DALL-E 2 does not support 'style' parameter".

(** *** Effects *)

(** A computation that calls no API of the client. *)
Definition silent {A} (m : M A) : Prop :=
  forall req, ~ In (Called req) (trace m).

(** A computation that touches neither the network nor the client. *)
Definition pure {A} (m : M A) : Prop := trace m = [].

(** An APIError thrown by a call of the client is how the computation
    ends. *)
Definition relays (W : Platform) {A} (m : M A) : Prop :=
  forall req status message,
    In (Called req) (trace m) ->
    openai W req = Throw (APIError status message) ->
    outcome m = Throw (APIError status message).

(** Every error the client throws at a call ends the computation as an
    McpError of code InternalError, its message prefixed. *)
Definition wraps (W : Platform) {A} (m : M A) : Prop :=
  forall req e,
    In (Called req) (trace m) ->
    openai W req = Throw e ->
    outcome m
    = Throw (McpError InternalError ("OpenAI API error: " ++ exn_message W e)).

(** *** Groups of the base64 codec, and checks by enumeration *)

Definition below (n : nat) : list N := map N.of_nat (seq 0 n).

Module Base64Groups.
Import Buffer.

(** What is needed of the character of a 6-bit value. *)
Definition char_ok (i : N) : bool :=
  match unbase64 (b64_char i) with
  | Some v => v =? i
  | None => false
  end
  && negb (Ascii.eqb (b64_char i) pad)
  && negb (JS.is_line_terminator (b64_char i))
  && negb (Ascii.eqb (b64_char i) ","%char).

(** A character of the encoding is neither a line terminator nor a
    comma. *)
Definition plain (c : ascii) : bool :=
  negb (JS.is_line_terminator c) && negb (Ascii.eqb c ","%char).

(** The 6-bit values of a group of bytes. *)
Definition s0 (x : N) : N := N.shiftr x 2.

Definition s1 (x y : N) : N := N.lor (N.shiftl (N.land x 3) 4) (N.shiftr y 4).

Definition s1_last (x : N) : N := N.shiftl (N.land x 3) 4.

Definition s2 (y z : N) : N := N.lor (N.shiftl (N.land y 15) 2) (N.shiftr z 6).

Definition s2_last (y : N) : N := N.shiftl (N.land y 15) 2.

Definition s3 (z : N) : N := N.land z 63.

(** The bytes of a group of 6-bit values. *)
Definition d0 (a b : N) : N :=
  N.lor (N.shiftl (N.land a 63) 2) (N.shiftr (N.land b 48) 4).

Definition d1 (b c : N) : N :=
  N.lor (N.shiftl (N.land b 15) 4) (N.shiftr (N.land c 60) 2).

Definition d2 (c d : N) : N :=
  N.lor (N.shiftl (N.land c 3) 6) (N.land d 63).

Definition first_pair_ok (x y : N) : bool :=
  (s0 x <? 64) && (s1 x y <? 64) && (d0 (s0 x) (s1 x y) =? x)
  && (N.land (s1 x y) 15 =? N.shiftr y 4).

Definition second_pair_ok (y z : N) : bool :=
  (s2 y z <? 64) && (s3 z <? 64)
  && (N.shiftr (N.land (s2 y z) 60) 2 =? N.land y 15)
  && (d2 (s2 y z) (s3 z) =? z).

Definition single_ok (y : N) : bool :=
  (N.lor (N.shiftl (N.shiftr y 4) 4) (N.land y 15) =? y)
  && (s2_last y <? 64)
  && (N.shiftr (N.land (s2_last y) 60) 2 =? N.land y 15)
  && (s1_last y <? 64)
  && (d0 (s0 y) (s1_last y) =? y).

End Base64Groups.

(** *** Statements about the rest of the code *)


(** The parameters of [validateDALLEParams] as the object the handler
    reads. *)
Definition params_json (p : Utils.DALLEParams) : value :=
  Some (object [ ("model", Some (JStr (Utils.model p)));
                 ("size", option_map JStr (Utils.size p));
                 ("quality", option_map JStr (Utils.quality p));
                 ("style", option_map JStr (Utils.style p));
                 ("n", option_map JNum (Utils.n p)) ]).

(** The handler's checks as [validateDALLEParams] sees them: nothing is
    thrown when there is no error, and the first error is thrown
    otherwise. *)
Definition first_error (errors : list string) : M unit :=
  match errors with
  | [] => ret tt
  | e :: _ => throw (Error e)
  end.

(** The arguments select dall-e-3 (or leave the model out), ask for one
    image (or leave n out) and for a size of dall-e-3 (or leave it
    out). *)
Definition dalle3_ready (fields : list (string * json)) : bool :=
  match lookup "model" fields with
  | None => true
  | Some (JStr m) => String.eqb m "dall-e-3"
  | Some _ => false
  end
  && match lookup "n" fields with
     | None => true
     | Some (JNum q) => Qeq_bool q 1
     | Some _ => false
     end
  && match lookup "size" fields with
     | None => true
     | Some (JStr s) =>
         JS.array_includes ["1024x1024"; "1792x1024"; "1024x1792"] s
     | Some _ => false
     end.

(** The number of calls of the client a computation made. *)
Definition n_calls {A} (m : M A) : nat := length (filter is_call (trace m)).

(** When a call of the client returns, its response, serialised, is the
    result. *)
Definition answers (W : Platform) (m : M ToolResult) : Prop :=
  forall req response,
    In (Called req) (trace m) ->
    openai W req = Return response ->
    outcome m = Return {| text := JSON_stringify W response |}.

(** How an invocation of the handler of src/index.ts can fail. *)
Inductive Index_failure (name : string) (t : list event) : exn -> Prop :=
| unknown_tool :
    t = [] ->
    Index_failure name t (McpError MethodNotFound ("Unknown tool: " ++ name))
| invalid_params (issues : list Zod.ZodIssue) :
    t = [] ->
    Index_failure name t
      (McpError InvalidParams ("Invalid parameters: " ++ Zod.format_issues issues))
| internal_error (req : api_request) (msg : string) :
    t = [Called req] ->
    Index_failure name t (McpError InternalError ("OpenAI API error: " ++ msg)).

Definition prompt_too_long : Zod.ZodIssue :=
  {| Zod.path := [Zod.Key "prompt"];
     Zod.message := "String must contain at most 4000 character(s)" |}.

(** [c.repeat(n)] *)
Fixpoint repeat_char (c : ascii) (n : nat) : string :=
  match n with
  | O => EmptyString
  | S n' => String c (repeat_char c n')
  end.

(** The arguments of edit_image for an image, a prompt and maybe a
    mask, the images as PNG data URLs. *)
Definition edit_args (image : Buffer.t) (mask : option Buffer.t)
           (prompt : string) : value :=
  Some (object [ ("image", Some (JStr (Utils.bufferToDataURL image)));
                 ("mask",
                   option_map (fun m => JStr (Utils.bufferToDataURL m)) mask);
                 ("prompt", Some (JStr prompt)) ]).

(** The request of the image-edit API for them, the defaults of the
    schema filled in. *)
Definition edit_request (image : Buffer.t) (mask : option Buffer.t)
           (prompt : string) : api_request :=
  images_edit
    {| edit_image := {| bits := image; file_name := "image.png";
                        file_type := "image/png" |};
       edit_mask :=
         option_map (fun m => {| bits := m; file_name := "mask.png";
                                 file_type := "image/png" |}) mask;
       edit_prompt := Some (JStr prompt);
       edit_model := Some (JStr "dall-e-2");
       edit_n := Some (JNum 1);
       edit_size := Some (JStr "1024x1024");
       edit_response_format := Some (JStr "url");
       edit_user := None |}.

Definition variation_request (image : Buffer.t) : api_request :=
  images_createVariation
    {| var_image := {| bits := image; file_name := "image.png";
                       file_type := "image/png" |};
       var_model := Some (JStr "dall-e-2");
       var_n := Some (JNum 1);
       var_response_format := Some (JStr "url");
       var_size := Some (JStr "1024x1024");
       var_user := None |}.

(** [s] starts like a URL. *)
Definition is_url (s : string) : bool :=
  JS.startsWith s "http://" || JS.startsWith s "https://".

(** How [imageToBuffer] of the utilities can fail. *)
Inductive decode_failure (s : string) : exn -> Prop :=
| fetch_failed (m : string) :
    is_url s = true ->
    decode_failure s (Error ("Error fetching image from URL: " ++ m))
| bad_data_url :
    is_url s = false -> JS.startsWith s "data:image" = true ->
    decode_failure s (Error "Invalid data URL format")
| not_png (format : string) :
    is_url s = false -> JS.startsWith s "data:image" = true ->
    format <> "png" ->
    decode_failure s (Error ("Unsupported image format: " ++ format
                             ++ ". Only PNG is supported.")).

Definition b64_char_in_class (i : N) : bool := Utils.is_base64_char (Buffer.b64_char i).

(** Whether a character may occur in the encoding of a buffer. *)
Definition in_encoding (c : ascii) : bool :=
  Utils.is_base64_char c || Ascii.eqb c Buffer.pad.

(** White space only as single spaces, and none after white space
    ([after_space]) or at the start. *)
Fixpoint single_spaced (after_space : bool) (s : string) : bool :=
  match s with
  | EmptyString => true
  | String c r =>
      if Utils.is_space c
      then Ascii.eqb c " " && negb after_space && single_spaced true r
      else single_spaced false r
  end.

(** Whether a string starts with white space. *)
Definition starts_with_space (s : string) : bool :=
  match s with
  | EmptyString => false
  | String c _ => Utils.is_space c
  end.

(** Some part of the text is a key: [/sk-[a-zA-Z0-9]{20,}/.test(s)]. *)
Fixpoint has_key (s : string) : bool :=
  match s with
  | EmptyString => false
  | String _ r =>
      match Utils.key_at s with Some _ => true | None => has_key r end
  end.

(** The characters after the first [k] ones. *)
Fixpoint drop (k : nat) (s : string) : string :=
  match k, s with
  | S k', String _ r => drop k' r
  | _, _ => s
  end.

(** The error of [validateDALLEParams] about the size, for each
    model. *)
Definition size_error (model : string) : string :=
  if String.eqb model "dall-e-3"
  then "DALL-E 3 only supports sizes: 1024x1024, 1792x1024, 1024x1792"
  else "DALL-E 2 only supports sizes: 256x256, 512x512, 1024x1024".

(** The parameter object of a request, for the requests that are made
    of the validated arguments alone. *)
Definition request_params (req : api_request) : option value :=
  match req with
  | chat_completions_create p => Some p
  | embeddings_create p => Some p
  | images_generate p => Some p
  | moderations_create p => Some p
  | images_edit _ => None
  | images_createVariation _ => None
  | models_list => None
  end.

(** [p] is an object that has no other keys than [keys]. *)
Definition only_keys (keys : list string) (p : value) : Prop :=
  exists out,
    p = Some (JObj out) /\ forall k, ~ In k keys -> lookup k out = None.

(** The keys of the schema that [schemas] gives the tool [name]. *)
Definition tool_keys (schemas : list (string * Zod.schema)) (name : string)
  : list string :=
  match find (fun entry => String.eqb name (fst entry)) schemas with
  | Some (_, Zod.ZObject shape) => map fst shape
  | _ => []
  end.

(** Every parameter object that the computation sends has no other keys
    than [keys]. *)
Definition forwards (keys : list string) {A} (m : M A) : Prop :=
  forall req p,
    In (Called req) (trace m) -> request_params req = Some p ->
    only_keys keys p.

(* ================================================================== *)
(** * Properties *)
(* ================================================================== *)

(** ** Checking a property of bytes by enumeration *)

Lemma below_In (n : nat) (i : N) : i < N.of_nat n -> In i (below n).
Proof.
  intro H. unfold below.
  replace i with (N.of_nat (N.to_nat i)) by apply N2Nat.id.
  apply in_map, in_seq. lia.
Qed.

Lemma forall_below (P : N -> bool) (n : nat) :
  forallb P (below n) = true -> forall i, i < N.of_nat n -> P i = true.
Proof.
  intros H i Hi. rewrite forallb_forall in H. apply H, below_In, Hi.
Qed.

Lemma forall2_below (P : N -> N -> bool) (n m : nat) :
  forallb (fun a => forallb (P a) (below m)) (below n) = true ->
  forall i j, i < N.of_nat n -> j < N.of_nat m -> P i j = true.
Proof.
  intros H i j Hi Hj.
  apply (forall_below (P i) m); [| exact Hj].
  apply (forall_below (fun a => forallb (P a) (below m)) n H i Hi).
Qed.

(** ** The base64 codec of Buffer *)

Module Base64Facts.
Import Buffer.
Import Base64Groups.

Lemma char_ok_all (i : N) : i < 64 -> char_ok i = true.
Proof. apply (forall_below char_ok 64). vm_compute. reflexivity. Qed.

Lemma unbase64_b64_char (i : N) : i < 64 -> unbase64 (b64_char i) = Some i.
Proof.
  intro H. pose proof (char_ok_all i H) as K. unfold char_ok in K.
  repeat (apply andb_prop in K; destruct K as [K _]).
  destruct (unbase64 (b64_char i)); [| discriminate].
  apply N.eqb_eq in K. congruence.
Qed.

Lemma b64_char_not_pad (i : N) : i < 64 -> Ascii.eqb (b64_char i) pad = false.
Proof.
  intro H. pose proof (char_ok_all i H) as K. unfold char_ok in K.
  apply andb_prop in K; destruct K as [K _].
  apply andb_prop in K; destruct K as [K _].
  apply andb_prop in K; destruct K as [_ K].
  now apply negb_true_iff in K.
Qed.

Lemma b64_char_plain (i : N) : i < 64 -> plain (b64_char i) = true.
Proof.
  intro H. pose proof (char_ok_all i H) as K. unfold char_ok in K.
  apply andb_prop in K; destruct K as [K K2].
  apply andb_prop in K; destruct K as [_ K1].
  unfold plain. now rewrite K1, K2.
Qed.

Lemma sextets_b64_char (i : N) (r : string) :
  i < 64 -> sextets (String (b64_char i) r) = i :: sextets r.
Proof.
  intro H. cbn [sextets].
  now rewrite (b64_char_not_pad i H), (unbase64_b64_char i H).
Qed.

Lemma first_pair (x y : N) : x < 256 -> y < 256 -> first_pair_ok x y = true.
Proof. apply (forall2_below first_pair_ok 256 256). vm_compute. reflexivity. Qed.

Lemma second_pair (y z : N) : y < 256 -> z < 256 -> second_pair_ok y z = true.
Proof. apply (forall2_below second_pair_ok 256 256). vm_compute. reflexivity. Qed.

Lemma single (y : N) : y < 256 -> single_ok y = true.
Proof. apply (forall_below single_ok 256). vm_compute. reflexivity. Qed.

Ltac split_ok H :=
  repeat match type of H with
         | (_ && _) = true => let H' := fresh H in
                              apply andb_prop in H; destruct H as [H H']
         end;
  repeat match goal with
         | K : (_ <? _) = true |- _ => apply N.ltb_lt in K
         | K : (_ =? _) = true |- _ => apply N.eqb_eq in K
         end.

(** The second byte of a group is made of parts of two 6-bit values. *)
Lemma d1_parts (b c y : N) :
  y < 256 ->
  N.land b 15 = N.shiftr y 4 ->
  N.shiftr (N.land c 60) 2 = N.land y 15 ->
  d1 b c = y.
Proof.
  intros Hy Hb Hc. unfold d1. rewrite Hb, Hc.
  pose proof (single y Hy) as K. unfold single_ok in K. split_ok K. exact K.
Qed.

Lemma decode_group (x y z : N) :
  x < 256 -> y < 256 -> z < 256 ->
  d0 (s0 x) (s1 x y) = x /\ d1 (s1 x y) (s2 y z) = y /\ d2 (s2 y z) (s3 z) = z
  /\ s0 x < 64 /\ s1 x y < 64 /\ s2 y z < 64 /\ s3 z < 64.
Proof.
  intros Hx Hy Hz.
  pose proof (first_pair x y Hx Hy) as A. unfold first_pair_ok in A. split_ok A.
  pose proof (second_pair y z Hy Hz) as B. unfold second_pair_ok in B. split_ok B.
  repeat split; auto using d1_parts.
Qed.

Lemma decode_two (x y : N) :
  x < 256 -> y < 256 ->
  d0 (s0 x) (s1 x y) = x /\ d1 (s1 x y) (s2_last y) = y
  /\ s0 x < 64 /\ s1 x y < 64 /\ s2_last y < 64.
Proof.
  intros Hx Hy.
  pose proof (first_pair x y Hx Hy) as A. unfold first_pair_ok in A. split_ok A.
  pose proof (single y Hy) as B. unfold single_ok in B. split_ok B.
  repeat split; auto using d1_parts.
Qed.

Lemma decode_one (x : N) :
  x < 256 -> d0 (s0 x) (s1_last x) = x /\ s0 x < 64 /\ s1_last x < 64.
Proof.
  intros Hx.
  pose proof (first_pair x 0 Hx eq_refl) as A. unfold first_pair_ok in A.
  split_ok A.
  pose proof (single x Hx) as B. unfold single_ok in B. split_ok B.
  repeat split; auto.
Qed.

(** Induction on a list three elements at a time. *)
Lemma list_ind3 {A} (P : list A -> Prop) :
  P [] -> (forall x, P [x]) -> (forall x y, P [x; y]) ->
  (forall x y z l, P l -> P (x :: y :: z :: l)) ->
  forall l, P l.
Proof.
  intros H0 H1 H2 H3 l.
  assert (K : P l /\ (forall x, P (x :: l)) /\ (forall x y, P (x :: y :: l))).
  { induction l as [| a l [Ia [Ib Ic]]]; repeat split; auto. }
  apply K.
Qed.

Lemma toString_three (x y z : N) (rest : t) :
  toString_base64 (x :: y :: z :: rest)
  = String (b64_char (s0 x)) (String (b64_char (s1 x y))
      (String (b64_char (s2 y z)) (String (b64_char (s3 z))
         (toString_base64 rest)))).
Proof. reflexivity. Qed.

Lemma toString_two (x y : N) :
  toString_base64 [x; y]
  = String (b64_char (s0 x)) (String (b64_char (s1 x y))
      (String (b64_char (s2_last y)) (String pad EmptyString))).
Proof. reflexivity. Qed.

Lemma toString_one (x : N) :
  toString_base64 [x]
  = String (b64_char (s0 x)) (String (b64_char (s1_last x))
      (String pad (String pad EmptyString))).
Proof. reflexivity. Qed.

Lemma sextets_pad (r : string) : sextets (String pad r) = [].
Proof. reflexivity. Qed.

(** Decoding the encoding of a buffer gives the buffer back. *)
Lemma from_base64_toString (b : t) :
  well_formed b -> from_base64 (toString_base64 b) = b.
Proof.
  unfold from_base64, well_formed.
  induction b as [| x | x y | x y z rest IH] using list_ind3; intro WF.
  - reflexivity.
  - inversion WF as [| ? ? Hx _]; subst.
    destruct (decode_one x Hx) as (E0 & B0 & B1).
    rewrite toString_one, !sextets_b64_char, sextets_pad by assumption.
    cbn [bytes_of_sextets]. fold (d0 (s0 x) (s1_last x)). now rewrite E0.
  - inversion WF as [| ? ? Hx WF1]; subst.
    inversion WF1 as [| ? ? Hy _]; subst.
    destruct (decode_two x y Hx Hy) as (E0 & E1 & B0 & B1 & B2).
    rewrite toString_two, !sextets_b64_char, sextets_pad by assumption.
    cbn [bytes_of_sextets].
    fold (d0 (s0 x) (s1 x y)). fold (d1 (s1 x y) (s2_last y)).
    now rewrite E0, E1.
  - inversion WF as [| ? ? Hx WF1]; subst.
    inversion WF1 as [| ? ? Hy WF2]; subst.
    inversion WF2 as [| ? ? Hz WF3]; subst.
    destruct (decode_group x y z Hx Hy Hz) as (E0 & E1 & E2 & B0 & B1 & B2 & B3).
    rewrite toString_three, !sextets_b64_char by assumption.
    cbn [bytes_of_sextets].
    fold (d0 (s0 x) (s1 x y)). fold (d1 (s1 x y) (s2 y z)).
    fold (d2 (s2 y z) (s3 z)).
    rewrite E0, E1, E2. f_equal. f_equal. f_equal. now apply IH.
Qed.

Lemma toString_plain (b : t) :
  well_formed b -> JS.all_chars plain (toString_base64 b) = true.
Proof.
  unfold well_formed.
  induction b as [| x | x y | x y z rest IH] using list_ind3; intro WF.
  - reflexivity.
  - inversion WF as [| ? ? Hx _]; subst.
    destruct (decode_one x Hx) as (E0 & B0 & B1).
    rewrite toString_one. cbn [JS.all_chars].
    now rewrite !b64_char_plain by assumption.
  - inversion WF as [| ? ? Hx WF1]; subst.
    inversion WF1 as [| ? ? Hy _]; subst.
    destruct (decode_two x y Hx Hy) as (E0 & E1 & B0 & B1 & B2).
    rewrite toString_two. cbn [JS.all_chars].
    now rewrite !b64_char_plain by assumption.
  - inversion WF as [| ? ? Hx WF1]; subst.
    inversion WF1 as [| ? ? Hy WF2]; subst.
    inversion WF2 as [| ? ? Hz WF3]; subst.
    destruct (decode_group x y z Hx Hy Hz) as (E0 & E1 & E2 & B0 & B1 & B2 & B3).
    rewrite toString_three. cbn [JS.all_chars].
    rewrite !b64_char_plain by assumption. now apply IH.
Qed.

Lemma toString_nonempty (b : t) :
  b <> [] -> String.eqb (toString_base64 b) EmptyString = false.
Proof.
  destruct b as [| x [| y [| z rest]]]; intro H; [congruence | | |]; reflexivity.
Qed.

End Base64Facts.

(** ** Strings *)

Lemma all_chars_weaken (p q : ascii -> bool) (s : string) :
  (forall c, p c = true -> q c = true) ->
  JS.all_chars p s = true -> JS.all_chars q s = true.
Proof.
  intro Hpq. induction s as [| c r IH]; cbn [JS.all_chars]; [easy |].
  intro H. apply andb_prop in H. destruct H as [Hc Hr].
  now rewrite (Hpq c Hc), (IH Hr).
Qed.

Lemma rev_string_twice (s a b : string) :
  JS.rev_string a (JS.rev_string b s) = JS.rev_string (s ++ a) b.
Proof.
  revert a b. induction s as [| c r IH]; intros a b; cbn; [reflexivity |].
  now rewrite IH.
Qed.

Lemma append_empty_r (s : string) : s ++ EmptyString = s.
Proof. induction s as [| c r IH]; cbn; [reflexivity | now rewrite IH]. Qed.

(** Without a separator in it, a string is the last piece of a split. *)
Lemma split_from_plain (sep : ascii) (s cur : string) :
  JS.all_chars (fun c => negb (Ascii.eqb c sep)) s = true ->
  JS.split_from sep cur s = [JS.rev_string EmptyString (JS.rev_string cur s)].
Proof.
  revert cur. induction s as [| c r IH]; intros cur H; cbn in *; [reflexivity |].
  apply andb_prop in H. destruct H as [Hc Hr].
  apply negb_true_iff in Hc. rewrite Hc. now apply IH.
Qed.

Lemma match_data_url_png (base64 : string) :
  String.eqb base64 EmptyString = false ->
  JS.all_chars (fun c => negb (JS.is_line_terminator c)) base64 = true ->
  Utils.match_data_url ("data:image/png;base64," ++ base64)
  = Some ("png", base64).
Proof.
  intros Hne Hplain. unfold Utils.match_data_url. cbn. now rewrite Hne, Hplain.
Qed.

Lemma dataURL_prefixes (s : string) :
  JS.startsWith ("data:image/png;base64," ++ s) "http://" = false
  /\ JS.startsWith ("data:image/png;base64," ++ s) "https://" = false
  /\ JS.startsWith ("data:image/png;base64," ++ s) "data:image" = true.
Proof. repeat split. Qed.

Lemma split_dataURL (s : string) :
  JS.all_chars (fun c => negb (Ascii.eqb c ","%char)) s = true ->
  JS.split ","%char ("data:image/png;base64," ++ s)
  = ["data:image/png;base64"; s].
Proof.
  intro H. unfold JS.split. cbn.
  rewrite (split_from_plain _ _ _ H), rev_string_twice, append_empty_r.
  reflexivity.
Qed.

(** ** The image decoder *)

(** C8: [validatePNGFormat] returns [true] exactly for the buffers whose
    first eight bytes are 89 50 4E 47 0D 0A 1A 0A, and [false] for every
    buffer of fewer than eight bytes. *)
Theorem C8_validatePNGFormat_signature :
  (forall buffer : Buffer.t,
      Utils.validatePNGFormat buffer = true
      <-> exists rest,
          buffer = [0x89; 0x50; 0x4e; 0x47; 0x0d; 0x0a; 0x1a; 0x0a] ++ rest)%list
  /\ (forall buffer : Buffer.t,
         (length buffer < 8)%nat -> Utils.validatePNGFormat buffer = false).
Proof.
  split.
  - intro buffer. unfold Utils.validatePNGFormat, Buffer.equals, Buffer.subarray0.
    split.
    + destruct (length buffer <? 8)%nat; [discriminate |].
      destruct (list_eq_dec N.eq_dec (firstn 8 buffer) Utils.pngSignature)
        as [E |]; [| discriminate].
      intros _. exists (skipn 8 buffer).
      rewrite <- (firstn_skipn 8 buffer) at 1. now rewrite E.
    + intros [rest ->]. reflexivity.
  - intros buffer H. unfold Utils.validatePNGFormat.
    apply Nat.ltb_lt in H. now rewrite H.
Qed.

(** C6: for a non-empty buffer [bytes], the data URL that
    [bufferToDataURL] makes of it is "data:image/png;base64," followed by
    its base64 text, and [imageToBuffer] decodes that URL to [bytes]
    again, without any network access. *)
Theorem C6_decode_dataURL_roundtrip (W : Platform) (bytes : Buffer.t) :
  bytes <> [] ->
  Buffer.well_formed bytes ->
  Utils.bufferToDataURL bytes
  = "data:image/png;base64," ++ Buffer.toString_base64 bytes
  /\ Utils.imageToBuffer W
       ("data:image/png;base64," ++ Buffer.toString_base64 bytes)
     = ([], Return bytes).
Proof.
  intros Hne WF. split; [reflexivity |].
  unfold Utils.imageToBuffer.
  destruct (dataURL_prefixes (Buffer.toString_base64 bytes)) as (-> & -> & ->).
  cbn [orb]. rewrite match_data_url_png.
  - cbn. now rewrite Base64Facts.from_base64_toString.
  - now apply Base64Facts.toString_nonempty.
  - apply (all_chars_weaken Base64Groups.plain); [| now apply Base64Facts.toString_plain].
    intros c H. unfold Base64Groups.plain in H.
    now apply andb_prop in H.
Qed.

Lemma C6_decode_dataURL_roundtrip_witness :
  Utils.imageToBuffer quiet_platform
    ("data:image/png;base64," ++ Buffer.toString_base64 [0x89; 0x50; 0x4e; 0x47])
  = ([], Return [0x89; 0x50; 0x4e; 0x47]).
Proof.
  refine (proj2 (C6_decode_dataURL_roundtrip _ [0x89; 0x50; 0x4e; 0x47] _ _)).
  - discriminate.
  - repeat constructor.
Defined.

(** The helper of the handler decodes the same data URL to the same
    bytes. *)
Lemma Server_imageToBuffer_roundtrip (W : Platform) (bytes : Buffer.t) :
  Buffer.well_formed bytes ->
  Server.imageToBuffer W
    ("data:image/png;base64," ++ Buffer.toString_base64 bytes)
  = ([], Return bytes).
Proof.
  intro WF. unfold Server.imageToBuffer.
  destruct (dataURL_prefixes (Buffer.toString_base64 bytes)) as (-> & -> & ->).
  cbn [orb]. rewrite split_dataURL.
  - cbn [nth_error Server.Buffer_from].
    now rewrite Base64Facts.from_base64_toString.
  - apply (all_chars_weaken Base64Groups.plain); [| now apply Base64Facts.toString_plain].
    intros c H. unfold Base64Groups.plain in H.
    now apply andb_prop in H.
Qed.

(** C7: the branch for raw base64 never fails. A string with characters
    outside the base64 alphabet, such as "hello world!", is decoded to
    bytes, and so is every string that starts neither like a URL nor
    like a data URL; the message "Invalid base64 image data" is never
    produced for them. *)
Theorem C7_invalid_base64_is_decoded (W : Platform) :
  Buffer.unbase64 " "%char = None
  /\ Buffer.unbase64 "!"%char = None
  /\ Utils.imageToBuffer W "hello world!"
     = ([], Return [133; 233; 101; 163; 10; 43; 149])
  /\ Server.imageToBuffer W "hello world!"
     = ([], Return [133; 233; 101; 163; 10; 43; 149])
  /\ (forall s : string,
         JS.startsWith s "http://" = false ->
         JS.startsWith s "https://" = false ->
         JS.startsWith s "data:image" = false ->
         Utils.imageToBuffer W s = ([], Return (Buffer.from_base64 s))
         /\ Server.imageToBuffer W s = ([], Return (Buffer.from_base64 s))).
Proof.
  repeat split; try reflexivity.
  - unfold Utils.imageToBuffer. now rewrite H, H0, H1.
  - unfold Server.imageToBuffer. now rewrite H, H0, H1.
Qed.

(** ** The model constraints of image generation *)

Lemma In_push_if_new (c : bool) (e : string) (l : list string) :
  c = true -> In e (Utils.push_if c e l).
Proof. intros ->. cbn. apply in_or_app. right. now left. Qed.

Lemma In_push_if_old (c : bool) (e e' : string) (l : list string) :
  In e l -> In e (Utils.push_if c e' l).
Proof.
  intro H. destruct c; cbn; [| exact H]. apply in_or_app. now left.
Qed.

Lemma n_above_one_spec (n : option Q) :
  Utils.n_above_one n = true <-> exists q, n = Some q /\ (1 < q)%Q.
Proof.
  destruct n as [q |]; cbn [Utils.n_above_one].
  - unfold Qlt_bool. split.
    + intro H. apply andb_prop in H. destruct H as [_ H].
      exists q. split; [reflexivity |].
      apply Qnot_le_lt. intro K. apply Qle_bool_iff in K.
      rewrite K in H. discriminate H.
    + intros (q' & E & H). injection E as <-.
      assert (L : Qle_bool q 1 = false).
      { destruct (Qle_bool q 1) eqn:K; [| reflexivity].
        apply Qle_bool_iff in K. now apply Qlt_not_le in H. }
      rewrite L.
      destruct (Qeq_bool q 0) eqn:Z; [| reflexivity].
      apply Qeq_bool_iff in Z. rewrite Z in H. discriminate H.
  - split; [discriminate | now intros (q & E & _)].
Qed.

Lemma size_not_in_spec (sizes : list string) (size : option string) :
  Utils.size_not_in sizes size = true
  <-> exists s, size = Some s /\ s <> EmptyString /\ ~ In s sizes.
Proof.
  destruct size as [s |]; cbn [Utils.size_not_in].
  - split.
    + intro H. apply andb_prop in H. destruct H as [H1 H2].
      apply negb_true_iff in H1, H2. exists s. repeat split.
      * now apply String.eqb_neq.
      * intro K. unfold JS.array_includes in H2.
        assert (T : existsb (String.eqb s) sizes = true).
        { apply existsb_exists. exists s. split; [exact K | apply String.eqb_refl]. }
        congruence.
    + intros (s' & E & Hne & Hin). injection E as <-.
      apply String.eqb_neq in Hne. rewrite Hne. cbn [negb andb].
      apply negb_true_iff. unfold JS.array_includes.
      destruct (existsb (String.eqb s) sizes) eqn:T; [| reflexivity].
      apply existsb_exists in T. destruct T as (x & Hx & Ex).
      apply String.eqb_eq in Ex. now subst.
  - split; [discriminate | now intros (s & E & _)].
Qed.

Lemma is_hd_spec (quality : option string) :
  Utils.is_hd quality = true <-> quality = Some "hd".
Proof.
  destruct quality as [q |]; cbn [Utils.is_hd].
  - split; [intro H; apply String.eqb_eq in H; now subst |].
    intro H. injection H as ->. reflexivity.
  - split; discriminate.
Qed.

Lemma present_spec (style : option string) :
  Utils.present style = true <-> exists s, style = Some s /\ s <> EmptyString.
Proof.
  destruct style as [s |]; cbn [Utils.present].
  - rewrite negb_true_iff, String.eqb_neq. split.
    + intro H. now exists s.
    + now intros (s' & E & H); injection E as <-.
  - split; [discriminate | now intros (s & E & _)].
Qed.

(** The list that [validateDALLEParams] builds. *)
Lemma validateDALLEParams_errors (p : Utils.DALLEParams) :
  Utils.errors (Utils.validateDALLEParams p)
  = if String.eqb (Utils.model p) "dall-e-3"
    then ((if Utils.n_above_one (Utils.n p)
           then ["DALL-E 3 only supports n=1"] else [])
          ++ (if Utils.size_not_in ["1024x1024"; "1792x1024"; "1024x1792"]
                                   (Utils.size p)
              then ["DALL-E 3 only supports sizes: 1024x1024, 1792x1024, 1024x1792"]
              else []))%list
    else if String.eqb (Utils.model p) "dall-e-2"
    then ((if Utils.is_hd (Utils.quality p)
           then ["DALL-E 2 does not support 'hd' quality"] else [])
          ++ (if Utils.present (Utils.style p)
              then ["DALL-E 2 does not support 'style' parameter"] else [])
          ++ (if Utils.size_not_in ["256x256"; "512x512"; "1024x1024"]
                                   (Utils.size p)
              then ["DALL-E 2 only supports sizes: 256x256, 512x512, 1024x1024"]
              else []))%list
    else [].
Proof.
  unfold Utils.validateDALLEParams, Utils.push_if. cbn [Utils.errors].
  destruct (String.eqb (Utils.model p) "dall-e-3").
  - destruct (Utils.n_above_one _), (Utils.size_not_in _ _); reflexivity.
  - destruct (String.eqb (Utils.model p) "dall-e-2"); [| reflexivity].
    destruct (Utils.is_hd _), (Utils.present _), (Utils.size_not_in _ _);
      reflexivity.
Qed.

Lemma valid_iff_no_errors (p : Utils.DALLEParams) :
  Utils.valid (Utils.validateDALLEParams p) = true
  <-> Utils.errors (Utils.validateDALLEParams p) = [].
Proof.
  unfold Utils.validateDALLEParams. cbn [Utils.valid Utils.errors].
  match goal with |- (length ?l =? 0)%nat = true <-> _ => destruct l end;
    cbn; split; intro H; try reflexivity; discriminate H.
Qed.

Lemma errors_invalid (p : Utils.DALLEParams) (e : string) :
  In e (Utils.errors (Utils.validateDALLEParams p)) ->
  Utils.valid (Utils.validateDALLEParams p) = false.
Proof.
  intro H. destruct (Utils.valid (Utils.validateDALLEParams p)) eqn:V;
    [| reflexivity].
  apply valid_iff_no_errors in V. rewrite V in H. destruct H.
Qed.

Lemma params_json_fields (p : Utils.DALLEParams) :
  get (params_json p) "model" = Some (JStr (Utils.model p))
  /\ get (params_json p) "size" = option_map JStr (Utils.size p)
  /\ get (params_json p) "quality" = option_map JStr (Utils.quality p)
  /\ get (params_json p) "style" = option_map JStr (Utils.style p)
  /\ get (params_json p) "n" = option_map JNum (Utils.n p).
Proof.
  destruct p as [model [size |] [quality |] [style |] [n |]]; repeat split.
Qed.

Lemma checks_as_utils (size quality style : option string) (n : option Q)
      (sizes : list string) :
  truthy (option_map JNum n) && gt_int (option_map JNum n) 1 = Utils.n_above_one n
  /\ truthy (option_map JStr size) && negb (one_of sizes (option_map JStr size))
     = Utils.size_not_in sizes size
  /\ is_string (option_map JStr quality) "hd" = Utils.is_hd quality
  /\ truthy (option_map JStr style) = Utils.present style.
Proof. destruct size, quality, style, n; repeat split. Qed.

(** C1: the rule table of the model constraints. [validateDALLEParams]
    reports each of its five errors exactly when the rule of the table
    is broken: for dall-e-3, "only supports n=1" when n is above 1 and
    the size error when a size is given that is not one of 1024x1024,
    1792x1024 and 1024x1792; for dall-e-2, the quality error when the
    quality is hd, the style error when a style is given, and the size
    error when a size is given that is not one of 256x256, 512x512 and
    1024x1024. It reports nothing else, nothing twice, and [valid]
    holds exactly when there is no error; the checks of the
    generate_image handler throw its first error, or nothing when there
    is none. The rows of the table follow: for dall-e-3, n = 2 gives an
    error that contains "n=1" and size 512x512 gives the size error;
    for dall-e-2, quality hd gives the quality error and style vivid
    gives the style error; dall-e-3 with n = 1, size 1024x1024, quality
    hd and style natural gives no error; and the handler of
    generate_image answers these calls in the same way. *)
Theorem C1_model_constraint_rule_table (W : Platform) :
  (forall p : Utils.DALLEParams,
      let errors := Utils.errors (Utils.validateDALLEParams p) in
      (In "DALL-E 3 only supports n=1" errors
       <-> Utils.model p = "dall-e-3"
           /\ exists q, Utils.n p = Some q /\ (1 < q)%Q)
      /\ (In "DALL-E 3 only supports sizes: 1024x1024, 1792x1024, 1024x1792" errors
          <-> Utils.model p = "dall-e-3"
              /\ exists s, Utils.size p = Some s /\ s <> EmptyString
                           /\ ~ In s ["1024x1024"; "1792x1024"; "1024x1792"])
      /\ (In "DALL-E 2 does not support 'hd' quality" errors
          <-> Utils.model p = "dall-e-2" /\ Utils.quality p = Some "hd")
      /\ (In "DALL-E 2 does not support 'style' parameter" errors
          <-> Utils.model p = "dall-e-2"
              /\ exists s, Utils.style p = Some s /\ s <> EmptyString)
      /\ (In "DALL-E 2 only supports sizes: 256x256, 512x512, 1024x1024" errors
          <-> Utils.model p = "dall-e-2"
              /\ exists s, Utils.size p = Some s /\ s <> EmptyString
                           /\ ~ In s ["256x256"; "512x512"; "1024x1024"])
      /\ (forall e,
             In e errors ->
             In e [ "DALL-E 3 only supports n=1";
                    "DALL-E 3 only supports sizes: 1024x1024, 1792x1024, 1024x1792";
                    "DALL-E 2 does not support 'hd' quality";
                    "DALL-E 2 does not support 'style' parameter";
                    "DALL-E 2 only supports sizes: 256x256, 512x512, 1024x1024" ])
      /\ NoDup errors
      /\ (Utils.valid (Utils.validateDALLEParams p) = true <-> errors = []))
  /\ (forall p : Utils.DALLEParams,
         Server.generate_image_checks (params_json p)
         = first_error (Utils.errors (Utils.validateDALLEParams p)))
  /\ (forall size quality style,
         let result := Utils.validateDALLEParams
                         {| Utils.model := "dall-e-3"; Utils.size := size;
                            Utils.quality := quality; Utils.style := style;
                            Utils.n := Some 2%Q |} in
         Utils.valid result = false
         /\ exists e, In e (Utils.errors result) /\ JS.includes e "n=1" = true)
  /\ (forall n quality style,
         let result := Utils.validateDALLEParams
                         {| Utils.model := "dall-e-3"; Utils.size := Some "512x512";
                            Utils.quality := quality; Utils.style := style;
                            Utils.n := n |} in
         Utils.valid result = false
         /\ In "DALL-E 3 only supports sizes: 1024x1024, 1792x1024, 1024x1792"
               (Utils.errors result))
  /\ (forall n size style,
         let result := Utils.validateDALLEParams
                         {| Utils.model := "dall-e-2"; Utils.size := size;
                            Utils.quality := Some "hd"; Utils.style := style;
                            Utils.n := n |} in
         Utils.valid result = false
         /\ In "DALL-E 2 does not support 'hd' quality" (Utils.errors result))
  /\ (forall n size quality,
         let result := Utils.validateDALLEParams
                         {| Utils.model := "dall-e-2"; Utils.size := size;
                            Utils.quality := quality; Utils.style := Some "vivid";
                            Utils.n := n |} in
         Utils.valid result = false
         /\ In "DALL-E 2 does not support 'style' parameter"
               (Utils.errors result))
  /\ Utils.validateDALLEParams
       {| Utils.model := "dall-e-3"; Utils.size := Some "1024x1024";
          Utils.quality := Some "hd"; Utils.style := Some "natural";
          Utils.n := Some 1%Q |}
     = {| Utils.valid := true; Utils.errors := [] |}
  /\ Server.handler W "generate_image"
       (args_of [("prompt", JStr "a cat"); ("model", JStr "dall-e-3");
                 ("n", JNum 2)])
     = ([], Throw (Error "DALL-E 3 only supports n=1"))
  /\ Server.handler W "generate_image"
       (args_of [("prompt", JStr "a cat"); ("model", JStr "dall-e-3");
                 ("size", JStr "512x512")])
     = ([], Throw (Error
          "DALL-E 3 only supports sizes: 1024x1024, 1792x1024, 1024x1792"))
  /\ Server.handler W "generate_image"
       (args_of [("prompt", JStr "a cat"); ("model", JStr "dall-e-2");
                 ("quality", JStr "hd")])
     = ([], Throw (Error "DALL-E 2 does not support 'hd' quality"))
  /\ Server.handler W "generate_image"
       (args_of [("prompt", JStr "a cat"); ("model", JStr "dall-e-2");
                 ("style", JStr "vivid")])
     = ([], Throw (Error "DALL-E 2 does not support 'style' parameter"))
  /\ (exists params,
         Zod.parse Server.GenerateImageSchema []
           (args_of [("prompt", JStr "a cat"); ("model", JStr "dall-e-3");
                     ("n", JNum 1); ("size", JStr "1024x1024");
                     ("quality", JStr "hd"); ("style", JStr "natural")])
         = Zod.Ok params
         /\ Server.generate_image_checks params = ([], Return tt)).
Proof.
  split; [| split].
  - intros p errors. subst errors.
    pose proof (n_above_one_spec (Utils.n p)) as Sn.
    pose proof (size_not_in_spec ["1024x1024"; "1792x1024"; "1024x1792"] (Utils.size p))
      as S3.
    pose proof (is_hd_spec (Utils.quality p)) as Sq.
    pose proof (present_spec (Utils.style p)) as Ss.
    pose proof (size_not_in_spec ["256x256"; "512x512"; "1024x1024"] (Utils.size p))
      as S2.
    split; [| split; [| split; [| split; [| split; [| split; [| split]]]]]];
      try apply valid_iff_no_errors;
      rewrite validateDALLEParams_errors.
    all: destruct (String.eqb_spec (Utils.model p) "dall-e-3") as [E3 | E3];
      [ try rewrite E3;
        destruct (Utils.n_above_one (Utils.n p));
        destruct (Utils.size_not_in ["1024x1024"; "1792x1024"; "1024x1792"]
                                    (Utils.size p))
      | destruct (String.eqb_spec (Utils.model p) "dall-e-2") as [E2 | E2];
        [ try rewrite E2;
          destruct (Utils.is_hd (Utils.quality p));
          destruct (Utils.present (Utils.style p));
          destruct (Utils.size_not_in ["256x256"; "512x512"; "1024x1024"]
                                      (Utils.size p))
        | ] ].
    all: cbn [app In].
    all: try (repeat constructor; cbn [In]; intuition discriminate).
    all: try solve [intros e H; repeat (destruct H as [<- | H]; [tauto |]); destruct H].
    all: try solve [split; [ intro H; repeat (destruct H as [H | H]; try discriminate H);
                             try (destruct H);
                             (split; [reflexivity || assumption || congruence
                                     | first [apply Sn | apply S3 | apply Sq | apply Ss
                                             | apply S2]; reflexivity])
                           | intros [Hm Hc];
                             first [ tauto
                                   | congruence
                                   | exfalso;
                                     first [apply Sn in Hc | apply S3 in Hc
                                           | apply Sq in Hc | apply Ss in Hc
                                           | apply S2 in Hc]; discriminate Hc ] ]].
  - intro p.
    unfold Server.generate_image_checks, Utils.validateDALLEParams.
    destruct (params_json_fields p) as (-> & -> & -> & -> & ->).
    destruct (checks_as_utils (Utils.size p) (Utils.quality p) (Utils.style p)
                (Utils.n p) ["1024x1024"; "1792x1024"; "1024x1792"])
      as (-> & -> & -> & ->).
    destruct (checks_as_utils (Utils.size p) (Utils.quality p) (Utils.style p)
                (Utils.n p) ["256x256"; "512x512"; "1024x1024"])
      as (_ & -> & _ & _).
    cbn [is_string Utils.errors].
    destruct (String.eqb (Utils.model p) "dall-e-3") eqn:E3.
    + apply String.eqb_eq in E3. rewrite E3.
      change (String.eqb "dall-e-3" "dall-e-2") with false.
      destruct (Utils.n_above_one (Utils.n p)), (Utils.size_not_in _ (Utils.size p));
        reflexivity.
    + destruct (String.eqb (Utils.model p) "dall-e-2"); [| reflexivity].
      destruct (Utils.is_hd (Utils.quality p)), (Utils.present (Utils.style p)),
               (Utils.size_not_in _ (Utils.size p)); reflexivity.
  - repeat match goal with |- _ /\ _ => split end; try reflexivity.
    + intros size quality style result.
      assert (H : In "DALL-E 3 only supports n=1" (Utils.errors result)).
      { unfold result, Utils.validateDALLEParams. cbn.
        apply In_push_if_old. now left. }
      unfold result in *. split; [exact (errors_invalid _ _ H) |].
      exists "DALL-E 3 only supports n=1". split; [exact H | reflexivity].
    + intros n quality style result.
      assert (H : In "DALL-E 3 only supports sizes: 1024x1024, 1792x1024, 1024x1792"
                     (Utils.errors result)).
      { unfold result, Utils.validateDALLEParams. cbn.
        apply in_or_app. right. now left. }
      unfold result in *. split; [exact (errors_invalid _ _ H) | exact H].
    + intros n size style result.
      assert (H : In "DALL-E 2 does not support 'hd' quality" (Utils.errors result)).
      { unfold result, Utils.validateDALLEParams. cbn.
        do 2 apply In_push_if_old. now left. }
      unfold result in *. split; [exact (errors_invalid _ _ H) | exact H].
    + intros n size quality result.
      assert (H : In "DALL-E 2 does not support 'style' parameter"
                     (Utils.errors result)).
      { unfold result, Utils.validateDALLEParams. cbn.
        apply In_push_if_old. apply in_or_app. right. now left. }
      unfold result in *. split; [exact (errors_invalid _ _ H) | exact H].
    + eexists. split; reflexivity.
Qed.

(** C2: for dall-e-2 with quality hd and size 1792x1024 (and the style
    that the schema fills in), three rules are violated, as
    [validateDALLEParams] reports; the handler of generate_image throws
    at the first of them and its message holds that one alone. *)
Theorem C2_handler_reports_first_violation_only (W : Platform) :
  Server.handler W "generate_image"
    (args_of [("prompt", JStr "a cat"); ("model", JStr "dall-e-2");
              ("quality", JStr "hd"); ("size", JStr "1792x1024")])
  = ([], Throw (Error "DALL-E 2 does not support 'hd' quality"))
  /\ Utils.errors (Utils.validateDALLEParams
       {| Utils.model := "dall-e-2"; Utils.size := Some "1792x1024";
          Utils.quality := Some "hd"; Utils.style := Some "vivid";
          Utils.n := Some 1%Q |})
     = [ "DALL-E 2 does not support 'hd' quality";
         "DALL-E 2 does not support 'style' parameter";
         "DALL-E 2 only supports sizes: 256x256, 512x512, 1024x1024" ]
  /\ JS.includes "DALL-E 2 does not support 'hd' quality" "style" = false
  /\ JS.includes "DALL-E 2 does not support 'hd' quality" "size" = false.
Proof. repeat split. Qed.

(** ** Image arguments of edit_image *)

(** C3: the handler of edit_image does not reject the image
    "data:image/jpeg;base64,AAAA": it decodes the text after the comma
    and calls the image-edit API with the three bytes, and when that
    call returns, the handler returns its response. It is
    [imageToBuffer] of the utilities, which the handler does not use,
    that rejects this image and names the format "jpeg". *)
Theorem C3_edit_image_jpeg_reaches_upstream (W : Platform) :
  trace (Server.handler W "edit_image" jpeg_edit_args)
  = [Called jpeg_edit_request]
  /\ reaches_upstream (Server.handler W "edit_image" jpeg_edit_args) = true
  /\ (forall response,
         openai W jpeg_edit_request = Return response ->
         Server.handler W "edit_image" jpeg_edit_args
         = ([Called jpeg_edit_request],
            Return {| text := JSON_stringify W response |}))
  /\ Utils.imageToBuffer W "data:image/jpeg;base64,AAAA"
     = ([], Throw (Error
          "Unsupported image format: jpeg. Only PNG is supported.")).
Proof.
  assert (E : Server.handler W "edit_image" jpeg_edit_args
              = match openai W jpeg_edit_request with
                | Return response =>
                    ([Called jpeg_edit_request],
                     Return {| text := JSON_stringify W response |})
                | Throw e =>
                    (Called jpeg_edit_request :: fst (Server.on_error e),
                     snd (Server.on_error e))
                end).
  { pose (o := openai W jpeg_edit_request).
    change (openai W jpeg_edit_request) with o.
    unfold Server.handler, Server.dispatch. cbn.
    match goal with
    | |- context [openai W ?r] => change (openai W r) with o
    end.
    clearbody o. destruct o as [response | e]; [reflexivity |].
    destruct e; reflexivity. }
  rewrite E. unfold reaches_upstream, trace.
  repeat split.
  - destruct (openai W jpeg_edit_request) as [r | e]; [reflexivity |].
    destruct e; reflexivity.
  - destruct (openai W jpeg_edit_request) as [r | e]; reflexivity.
  - now intros response ->.
Qed.

(** ** zod: the parser of an object *)

Section ShapeFacts.
Import Zod.
Variable f : schema -> list path_seg -> value -> result.

(** An issue of a field is an issue of the object. *)
Lemma parse_shape_issue (shape : list (string * schema)) (p : list path_seg)
      (fields : list (string * json)) (k : string) (s : schema)
      (issues : list ZodIssue) (i : ZodIssue) :
  In (k, s) shape ->
  f s (p ++ [Key k]) (lookup k fields) = Err issues ->
  In i issues ->
  In i (fst (parse_shape f shape p fields)).
Proof.
  intros Hin Hf Hi. induction shape as [| [k0 s0] rest IH]; [easy |].
  cbn [parse_shape]. destruct (parse_shape f rest p fields) as [iss out] eqn:E.
  destruct Hin as [Heq | Hin].
  - injection Heq as -> ->. rewrite Hf. cbn. apply in_or_app. now left.
  - specialize (IH Hin). cbn in IH.
    destruct (f s0 (p ++ [Key k0]) (lookup k0 fields)) as [[v |] | e]; cbn; auto.
    apply in_or_app. now right.
Qed.

(** Setting a field to a value its schemas accept keeps a valid object
    valid. *)
Lemma parse_shape_set (shape : list (string * schema)) (p : list path_seg)
      (fields : list (string * json)) (k : string) (j : json) :
  (forall s, In (k, s) shape -> exists r, f s (p ++ [Key k]) (Some j) = Ok r) ->
  fst (parse_shape f shape p fields) = [] ->
  fst (parse_shape f shape p ((k, j) :: fields)) = [].
Proof.
  intros Hk. induction shape as [| [k0 s0] rest IH]; [easy |].
  cbn [parse_shape lookup].
  destruct (parse_shape f rest p fields) as [iss out] eqn:E.
  destruct (parse_shape f rest p ((k, j) :: fields)) as [iss' out'] eqn:E'.
  cbn [fst] in IH.
  assert (Hrest : iss = [] -> iss' = []).
  { apply IH. intros s Hs. apply Hk. now right. }
  destruct (String.eqb k0 k) eqn:Ek.
  - apply String.eqb_eq in Ek. subst k0.
    destruct (Hk s0 (or_introl eq_refl)) as [r ->].
    destruct (f s0 (p ++ [Key k]) (lookup k fields)) as [[v |] | e];
      destruct r; cbn; auto.
    all: intro H; apply app_eq_nil in H; now apply Hrest.
  - destruct (f s0 (p ++ [Key k0]) (lookup k0 fields)) as [[v |] | e]; cbn; auto.
    intro H. apply app_eq_nil in H. destruct H as [-> H]. now rewrite (Hrest H).
Qed.

(** The keys of the parsed object are keys of the shape. *)
Lemma parse_shape_keys (shape : list (string * schema)) (p : list path_seg)
      (fields : list (string * json)) (k : string) :
  ~ In k (map fst shape) ->
  lookup k (snd (parse_shape f shape p fields)) = None.
Proof.
  induction shape as [| [k0 s0] rest IH]; [easy |].
  cbn [parse_shape map fst]. intro H.
  destruct (parse_shape f rest p fields) as [iss out] eqn:E.
  cbn [snd] in IH.
  assert (Hk : String.eqb k k0 = false).
  { apply String.eqb_neq. intros ->. apply H. now left. }
  assert (Hout : lookup k out = None).
  { apply IH. intro K. apply H. now right. }
  destruct (f s0 (p ++ [Key k0]) (lookup k0 fields)) as [[v |] | e]; cbn; auto.
  now rewrite Hk.
Qed.

(** A field of the parsed object is what the field's schema made of the
    field of the input. *)
Lemma parse_shape_lookup (shape : list (string * schema)) (p : list path_seg)
      (fields : list (string * json)) (k : string) (s : schema) (v : value) :
  NoDup (map fst shape) ->
  In (k, s) shape ->
  f s (p ++ [Key k]) (lookup k fields) = Ok v ->
  lookup k (snd (parse_shape f shape p fields)) = v.
Proof.
  intros ND Hin Hf. induction shape as [| [k0 s0] rest IH]; [easy |].
  cbn [parse_shape]. cbn [map fst] in ND. inversion ND as [| ? ? Hk0 ND']; subst.
  destruct (parse_shape f rest p fields) as [iss out] eqn:E.
  destruct Hin as [Heq | Hin].
  - injection Heq as -> ->. rewrite Hf.
    destruct v as [x |]; cbn.
    + now rewrite String.eqb_refl.
    + pose proof (parse_shape_keys rest p fields k Hk0) as K.
      now rewrite E in K.
  - assert (Hk : String.eqb k k0 = false).
    { apply String.eqb_neq. intros ->. apply Hk0.
      change k0 with (fst (k0, s)). now apply in_map. }
    specialize (IH ND' Hin). cbn [snd] in IH.
    destruct (f s0 (p ++ [Key k0]) (lookup k0 fields)) as [[x |] | e]; cbn; auto.
    now rewrite Hk.
Qed.
End ShapeFacts.

Lemma parse_object (shape : list (string * Zod.schema)) (p : list Zod.path_seg)
      (fields : list (string * json)) :
  Zod.parse (Zod.ZObject shape) p (Some (JObj fields))
  = match Zod.parse_shape Zod.parse shape p fields with
    | ([], out) => Zod.Ok (Some (JObj out))
    | (issues, _) => Zod.Err issues
    end.
Proof. reflexivity. Qed.

(** ** Text of error messages *)

Lemma prefix_append (s t : string) : String.prefix s (s ++ t) = true.
Proof.
  induction s as [| c r IH]; cbn; [now destruct t |].
  destruct (ascii_dec c c); [exact IH | congruence].
Qed.

Lemma prefix_append_r (s t b : string) :
  String.prefix s t = true -> String.prefix s (t ++ b) = true.
Proof.
  revert t. induction s as [| c r IH]; intros t H; cbn; [now destruct (t ++ b) |].
  destruct t as [| d t']; cbn in *; [discriminate |].
  destruct (ascii_dec c d); [now apply IH | discriminate].
Qed.

Lemma includes_unfold (s sub : string) :
  JS.includes s sub
  = String.prefix sub s
    || match s with
       | EmptyString => false
       | String _ r => JS.includes r sub
       end.
Proof. destruct s; reflexivity. Qed.

Lemma includes_here (s t : string) : JS.includes (s ++ t) s = true.
Proof. now rewrite includes_unfold, prefix_append. Qed.

Lemma includes_after (a t s : string) :
  JS.includes t s = true -> JS.includes (a ++ t) s = true.
Proof.
  intro H. induction a as [| c r IH]; [exact H |].
  rewrite includes_unfold. cbn [append]. rewrite IH. apply orb_true_r.
Qed.

Lemma includes_before (t b s : string) :
  JS.includes t s = true -> JS.includes (t ++ b) s = true.
Proof.
  induction t as [| c r IH]; rewrite includes_unfold; intro H;
    apply orb_prop in H; rewrite (includes_unfold (_ ++ b)).
  - destruct H as [H | H]; [| discriminate].
    now rewrite (prefix_append_r _ _ b H).
  - destruct H as [H | H].
    + now rewrite (prefix_append_r _ _ b H).
    + cbn [append]. rewrite (IH H). apply orb_true_r.
Qed.

Lemma join_includes (sep x : string) (l : list string) :
  In x l -> JS.includes (JS.join sep l) x = true.
Proof.
  unfold JS.join. induction l as [| y l IH]; [easy |].
  intros [-> | H].
  - destruct l; cbn [String.concat].
    + rewrite <- (append_empty_r x) at 1. apply includes_here.
    + apply includes_here.
  - destruct l as [| z l']; [easy |]. cbn [String.concat].
    apply includes_after, includes_after, IH, H.
Qed.

Lemma format_issues_includes (pre : string) (issues : list Zod.ZodIssue)
      (i : Zod.ZodIssue) :
  In i issues ->
  JS.includes (pre ++ Zod.format_issues issues) (Zod.format_issue i) = true.
Proof.
  intro H. apply includes_after, join_includes, in_map, H.
Qed.

(** ** zod: number fields with bounds *)

Lemma Qle_bool_false (a b : Q) : (b < a)%Q -> Qle_bool a b = false.
Proof.
  intro H. destruct (Qle_bool a b) eqn:E; [| reflexivity].
  apply Qle_bool_iff in E. exfalso. exact (Qlt_not_le _ _ H E).
Qed.

Lemma number_in_range (p : list Zod.path_seg) (lo hi : Z) (v : Q) :
  (inject_Z lo <= v)%Q -> (v <= inject_Z hi)%Q ->
  Zod.parse (Zod.ZNumber [Zod.Min lo; Zod.Max hi]) p (Some (JNum v))
  = Zod.Ok (Some (JNum v)).
Proof.
  intros Hlo Hhi. cbn [Zod.parse flat_map Zod.check_number].
  apply Qle_bool_iff in Hlo, Hhi. now rewrite Hlo, Hhi.
Qed.

Lemma number_below (p : list Zod.path_seg) (lo hi : Z) (v : Q) :
  (v < inject_Z lo)%Q ->
  exists issues,
    Zod.parse (Zod.ZNumber [Zod.Min lo; Zod.Max hi]) p (Some (JNum v))
    = Zod.Err issues
    /\ In (too_small p lo) issues.
Proof.
  intros H. cbn [Zod.parse flat_map Zod.check_number].
  rewrite (Qle_bool_false _ _ H). cbn [app].
  eexists. split; [reflexivity |]. now left.
Qed.

Lemma number_above (p : list Zod.path_seg) (lo hi : Z) (v : Q) :
  (inject_Z hi < v)%Q ->
  exists issues,
    Zod.parse (Zod.ZNumber [Zod.Min lo; Zod.Max hi]) p (Some (JNum v))
    = Zod.Err issues
    /\ In (too_big p hi) issues.
Proof.
  intros H. cbn [Zod.parse flat_map Zod.check_number].
  rewrite (Qle_bool_false _ _ H).
  destruct (Qle_bool (inject_Z lo) v); cbn [app];
    (eexists; split; [reflexivity |]); cbn; auto.
Qed.

(** ** Validation in the handlers *)

Lemma parse_default_some (s : Zod.schema) (d j : json) (p : list Zod.path_seg) :
  Zod.parse (Zod.ZDefault s d) p (Some j) = Zod.parse s p (Some j).
Proof. reflexivity. Qed.

Lemma parse_optional_some (s : Zod.schema) (j : json) (p : list Zod.path_seg) :
  Zod.parse (Zod.ZOptional s) p (Some j) = Zod.parse s p (Some j).
Proof. reflexivity. Qed.

Lemma accepts_set (shape : list (string * Zod.schema))
      (fields : list (string * json)) (k : string) (j : json) :
  (forall s, In (k, s) shape ->
             exists r, Zod.parse s [Zod.Key k] (Some j) = Zod.Ok r) ->
  accepts (Zod.ZObject shape) (args_of fields) ->
  accepts (Zod.ZObject shape) (args_of ((k, j) :: fields)).
Proof.
  intros Hk [params Hp]. unfold accepts, args_of in *.
  rewrite parse_object in *.
  pose proof (parse_shape_set Zod.parse shape [] fields k j Hk) as K.
  destruct (Zod.parse_shape Zod.parse shape [] fields) as [iss out].
  destruct (Zod.parse_shape Zod.parse shape [] ((k, j) :: fields)) as [iss' out'].
  destruct iss; [| discriminate]. cbn [fst] in K. rewrite (K eq_refl).
  now eexists.
Qed.

Lemma object_rejects (shape : list (string * Zod.schema))
      (fields : list (string * json)) (k : string) (s : Zod.schema)
      (issues : list Zod.ZodIssue) (i : Zod.ZodIssue) :
  In (k, s) shape ->
  Zod.parse s [Zod.Key k] (lookup k fields) = Zod.Err issues ->
  In i issues ->
  exists all,
    Zod.parse (Zod.ZObject shape) [] (args_of fields) = Zod.Err all /\ In i all.
Proof.
  intros Hin Hp Hi. unfold args_of. rewrite parse_object.
  pose proof (parse_shape_issue Zod.parse shape [] fields k s issues i Hin Hp Hi)
    as K.
  destruct (Zod.parse_shape Zod.parse shape [] fields) as [iss out].
  cbn [fst] in K. destruct iss; [easy |]. now eexists.
Qed.

(** Arguments that the schema of the tool rejects: the handler throws
    the issues, formatted, and calls nothing. *)
Lemma Server_handler_invalid (W : Platform) (tool : string) (sch : Zod.schema)
      (args : value) (issues : list Zod.ZodIssue) :
  In (tool, sch) Server_schemas ->
  Zod.parse sch [] args = Zod.Err issues ->
  Server.handler W tool args
  = ([], Throw (Error ("Invalid input parameters: "
                       ++ Zod.format_issues issues))).
Proof.
  intros Hin Hp. unfold Server_schemas in Hin. cbn [In] in Hin.
  repeat (destruct Hin as [Hin | Hin];
          [ injection Hin as <- <-;
            unfold Server.handler, Server.dispatch, zparse;
            cbn [String.eqb Ascii.eqb Bool.eqb];
            rewrite Hp; reflexivity |]).
  contradiction.
Qed.

Lemma Index_handler_invalid (W : Platform) (tool : string) (sch : Zod.schema)
      (args : value) (issues : list Zod.ZodIssue) :
  In (tool, sch) Index_schemas ->
  Zod.parse sch [] args = Zod.Err issues ->
  Index.handler W tool args
  = ([], Throw (McpError InvalidParams
                  ("Invalid parameters: " ++ Zod.format_issues issues))).
Proof.
  intros Hin Hp. unfold Index_schemas in Hin. cbn [In] in Hin.
  repeat (destruct Hin as [Hin | Hin];
          [ injection Hin as <- <-;
            unfold Index.handler, Index.dispatch, zparse;
            cbn [String.eqb Ascii.eqb Bool.eqb];
            rewrite Hp; reflexivity |]).
  contradiction.
Qed.

(** ** Numeric bounds *)

Ltac field_cases H :=
  cbn [In] in H;
  repeat (destruct H as [H | H];
          [ try discriminate H; injection H as <- |]);
  [.. | contradiction].

Ltac in_shape := cbn [In]; repeat (first [left; reflexivity | right]).

Lemma bounds_reject_low (handler : value -> M ToolResult)
      (shape : list (string * Zod.schema)) (k : string) (lo hi : Z)
      (s : Zod.schema) (mk : string -> exn) (pre : string) :
  In (k, s) shape ->
  (forall j, Zod.parse s [Zod.Key k] (Some j)
             = Zod.parse (Zod.ZNumber [Zod.Min lo; Zod.Max hi]) [Zod.Key k] (Some j)) ->
  (forall args issues,
      Zod.parse (Zod.ZObject shape) [] args = Zod.Err issues ->
      handler args = ([], Throw (mk (pre ++ Zod.format_issues issues)))) ->
  (forall m needle,
      JS.includes m needle = true ->
      JS.includes (error_text (mk m)) needle = true) ->
  forall fields v,
    lookup k fields = Some (JNum v) ->
    ((v < inject_Z lo)%Q ->
     rejects_naming handler (args_of fields)
       (k ++ ": " ++ "Number must be greater than or equal to " ++ JS.showZ lo))
    /\ ((inject_Z hi < v)%Q ->
        rejects_naming handler (args_of fields)
          (k ++ ": " ++ "Number must be less than or equal to " ++ JS.showZ hi)).
Proof.
  intros Hin Hs Hh Hmk fields v Hk. split; intro Hv.
  - destruct (number_below [Zod.Key k] lo hi v Hv) as (issues & Hp & Hi).
    rewrite <- Hs, <- Hk in Hp.
    destruct (object_rejects shape fields k s issues _ Hin Hp Hi) as (all & Ha & Hall).
    exists (mk (pre ++ Zod.format_issues all)). split; [now apply Hh |].
    apply Hmk. exact (format_issues_includes pre all _ Hall).
  - destruct (number_above [Zod.Key k] lo hi v Hv) as (issues & Hp & Hi).
    rewrite <- Hs, <- Hk in Hp.
    destruct (object_rejects shape fields k s issues _ Hin Hp Hi) as (all & Ha & Hall).
    exists (mk (pre ++ Zod.format_issues all)). split; [now apply Hh |].
    apply Hmk. exact (format_issues_includes pre all _ Hall).
Qed.

Lemma enforces_bounds_intro (handler : value -> M ToolResult)
      (shape : list (string * Zod.schema)) (k : string) (lo hi : Z)
      (mk : string -> exn) (pre : string) :
  (exists s, In (k, s) shape) ->
  (forall s, In (k, s) shape ->
     forall j, Zod.parse s [Zod.Key k] (Some j)
               = Zod.parse (Zod.ZNumber [Zod.Min lo; Zod.Max hi])
                           [Zod.Key k] (Some j)) ->
  (forall args issues,
      Zod.parse (Zod.ZObject shape) [] args = Zod.Err issues ->
      handler args = ([], Throw (mk (pre ++ Zod.format_issues issues)))) ->
  (forall m needle,
      JS.includes m needle = true ->
      JS.includes (error_text (mk m)) needle = true) ->
  enforces_bounds handler (Zod.ZObject shape) k lo hi.
Proof.
  intros [s Hin] Hs Hh Hmk. unfold enforces_bounds.
  split; [| split].
  - intros fields v Hok [Hlo Hhi]. apply accepts_set; [| exact Hok].
    intros s' Hs'. rewrite (Hs s' Hs'). eexists.
    now apply number_in_range.
  - intros fields v Hk.
    apply (bounds_reject_low handler shape k lo hi s mk pre Hin (Hs s Hin) Hh Hmk
                             fields v Hk).
  - intros fields v Hk.
    apply (bounds_reject_low handler shape k lo hi s mk pre Hin (Hs s Hin) Hh Hmk
                             fields v Hk).
Qed.

Ltac server_bounds W tool sch :=
  match goal with
  | |- enforces_bounds ?h _ ?k ?lo ?hi =>
      refine (enforces_bounds_intro h _ k lo hi
                Error "Invalid input parameters: " _ _ _ _)
  end;
  [ eexists; in_shape
  | intros s Hs; field_cases Hs; reflexivity
  | intros args issues Hp;
    apply (Server_handler_invalid W tool sch args issues); [in_shape | exact Hp]
  | intros m needle H; exact H ].

Ltac index_bounds W tool sch :=
  match goal with
  | |- enforces_bounds ?h _ ?k ?lo ?hi =>
      refine (enforces_bounds_intro h _ k lo hi
                (McpError InvalidParams) "Invalid parameters: " _ _ _ _)
  end;
  [ eexists; in_shape
  | intros s Hs; field_cases Hs; reflexivity
  | intros args issues Hp;
    apply (Index_handler_invalid W tool sch args issues); [in_shape | exact Hp]
  | intros m needle H; exact (includes_after "MCP error -32602: " m needle H) ].

(** C5: the bounds of the numeric fields. In both servers the chat
    fields temperature, top_p, frequency_penalty and presence_penalty
    are bounded by [0,2], [0,1], [-2,2] and [-2,2]; the field n of the
    three image tools is bounded by [1,10]. A value at a bound is
    accepted, a value outside is rejected with a message naming the field
    and the bound. *)
Theorem C5_numeric_bounds (W : Platform) :
  enforces_bounds (Server.handler W "chat_completion")
                  Server.ChatCompletionSchema "temperature" 0 2
  /\ enforces_bounds (Server.handler W "chat_completion")
                     Server.ChatCompletionSchema "top_p" 0 1
  /\ enforces_bounds (Server.handler W "chat_completion")
                     Server.ChatCompletionSchema "frequency_penalty" (-2) 2
  /\ enforces_bounds (Server.handler W "chat_completion")
                     Server.ChatCompletionSchema "presence_penalty" (-2) 2
  /\ enforces_bounds (Index.handler W "chat_completion")
                     Index.ChatCompletionArgsSchema "temperature" 0 2
  /\ enforces_bounds (Index.handler W "chat_completion")
                     Index.ChatCompletionArgsSchema "top_p" 0 1
  /\ enforces_bounds (Index.handler W "chat_completion")
                     Index.ChatCompletionArgsSchema "frequency_penalty" (-2) 2
  /\ enforces_bounds (Index.handler W "chat_completion")
                     Index.ChatCompletionArgsSchema "presence_penalty" (-2) 2
  /\ enforces_bounds (Server.handler W "generate_image")
                     Server.GenerateImageSchema "n" 1 10
  /\ enforces_bounds (Server.handler W "edit_image")
                     Server.EditImageSchema "n" 1 10
  /\ enforces_bounds (Server.handler W "create_image_variation")
                     Server.CreateImageVariationSchema "n" 1 10.
Proof.
  repeat match goal with |- _ /\ _ => split end.
  - server_bounds W "chat_completion" Server.ChatCompletionSchema.
  - server_bounds W "chat_completion" Server.ChatCompletionSchema.
  - server_bounds W "chat_completion" Server.ChatCompletionSchema.
  - server_bounds W "chat_completion" Server.ChatCompletionSchema.
  - index_bounds W "chat_completion" Index.ChatCompletionArgsSchema.
  - index_bounds W "chat_completion" Index.ChatCompletionArgsSchema.
  - index_bounds W "chat_completion" Index.ChatCompletionArgsSchema.
  - index_bounds W "chat_completion" Index.ChatCompletionArgsSchema.
  - server_bounds W "generate_image" Server.GenerateImageSchema.
  - server_bounds W "edit_image" Server.EditImageSchema.
  - server_bounds W "create_image_variation" Server.CreateImageVariationSchema.
Qed.

Lemma C5_numeric_bounds_witness :
  accepts Server.ChatCompletionSchema
    (args_of [("temperature", JNum 2);
              ("messages",
                JArr [JObj [("role", JStr "user"); ("content", JStr "hi")]])])
  /\ rejects_naming (Server.handler quiet_platform "chat_completion")
       (args_of [("messages",
                   JArr [JObj [("role", JStr "user"); ("content", JStr "hi")]]);
                 ("temperature", JNum 3)])
       "temperature: Number must be less than or equal to 2".
Proof.
  destruct (C5_numeric_bounds quiet_platform) as [[Hin [_ Hhi]] _]. split.
  - apply Hin.
    + eexists. reflexivity.
    + split; unfold Qle; cbn; lia.
  - apply (Hhi _ 3%Q); [reflexivity |]. unfold Qlt. cbn. lia.
Defined.

(** ** Chat messages *)

Section ItemFacts.
Import Zod.
Variable f : schema -> list path_seg -> value -> result.

(** An array whose items the item schema accepts is accepted. *)
Lemma parse_items_ok (s : schema) (p : list path_seg) (items : list json) :
  (forall x i, In x items -> exists r, f s (p ++ [Index i]) (Some x) = Ok r) ->
  forall i, fst (parse_items f s p i items) = [].
Proof.
  induction items as [| x rest IH]; intros H i; [reflexivity |].
  cbn [parse_items].
  destruct (parse_items f s p (S i) rest) as [iss out] eqn:E.
  assert (K : iss = []).
  { specialize (IH (fun y j Hy => H y j (or_intror Hy)) (S i)).
    now rewrite E in IH. }
  destruct (H x i (or_introl eq_refl)) as [r ->].
  now destruct r.
Qed.

(** An issue of an item is an issue of the array. *)
Lemma parse_items_issue (s : schema) (p : list path_seg) (items : list json)
      (n : nat) (x : json) (issues : list ZodIssue) (iss : ZodIssue) :
  nth_error items n = Some x ->
  forall i,
    f s (p ++ [Index (i + n)]) (Some x) = Err issues ->
    In iss issues ->
    In iss (fst (parse_items f s p i items)).
Proof.
  revert n. induction items as [| y rest IH]; intros n Hn i Hf Hi.
  - now destruct n.
  - cbn [parse_items].
    destruct (parse_items f s p (S i) rest) as [all out] eqn:E.
    destruct n as [| n].
    + injection Hn as ->. rewrite Nat.add_0_r in Hf. rewrite Hf. cbn.
      apply in_or_app. now left.
    + cbn [nth_error] in Hn.
      assert (K : In iss all).
      { specialize (IH n Hn (S i)). rewrite E in IH. apply IH; [| exact Hi].
        now rewrite Nat.add_succ_r in Hf. }
      destruct (f s (p ++ [Index i]) (Some y)) as [[v |] | e]; cbn; auto.
      apply in_or_app. now right.
Qed.
End ItemFacts.

Lemma parse_array (elem : Zod.schema) (p : list Zod.path_seg) (items : list json) :
  Zod.parse (Zod.ZArray elem) p (Some (JArr items))
  = match Zod.parse_items Zod.parse elem p 0 items with
    | ([], out) => Zod.Ok (Some (JArr out))
    | (issues, _) => Zod.Err issues
    end.
Proof. reflexivity. Qed.

(** An object whose fields the field schemas accept is accepted. *)
Lemma accepts_fields (shape : list (string * Zod.schema))
      (fields : list (string * json)) :
  (forall k s, In (k, s) shape ->
     exists r, Zod.parse s [Zod.Key k] (lookup k fields) = Zod.Ok r) ->
  accepts (Zod.ZObject shape) (args_of fields).
Proof.
  intro H. unfold accepts, args_of. rewrite parse_object.
  assert (K : fst (Zod.parse_shape Zod.parse shape [] fields) = []).
  { induction shape as [| [k s] rest IH]; [reflexivity |].
    cbn [Zod.parse_shape].
    destruct (Zod.parse_shape Zod.parse rest [] fields) as [iss out] eqn:E.
    cbn [fst] in IH.
    destruct (H k s (or_introl eq_refl)) as [r Hr]. cbn [app]. rewrite Hr.
    rewrite IH by (intros k' s' Hin; apply H; now right).
    now destruct r. }
  destruct (Zod.parse_shape Zod.parse shape [] fields) as [iss out].
  cbn [fst] in K. subst iss. now eexists.
Qed.

Ltac role_cases H :=
  cbn [In five_roles three_roles] in H;
  repeat (destruct H as [H | H]; [subst |]); [.. | contradiction].

Lemma Server_accepts_messages (msgs : list (string * string * option string)) :
  Forall (fun m => In (fst (fst m)) five_roles) msgs ->
  accepts Server.ChatCompletionSchema
          (args_of [("messages", JArr (map message_of msgs))]).
Proof.
  intro H. apply accepts_fields. intros k s Hs. cbn [In] in Hs.
  repeat (destruct Hs as [Hs | Hs];
          [ injection Hs as <- <-; try (eexists; reflexivity) |]);
    [| contradiction].
  change (lookup "messages" _) with (Some (JArr (map message_of msgs))).
  rewrite parse_array.
  match goal with
  | |- context [Zod.parse_items Zod.parse ?e ?p 0 ?l] =>
      pose proof (parse_items_ok Zod.parse e p l) as K;
      destruct (Zod.parse_items Zod.parse e p 0 l) as [iss out] eqn:E
  end.
  assert (K0 : iss = []).
  { change iss with (fst (iss, out)). rewrite <- E. apply K.
    intros x i Hx. apply in_map_iff in Hx. destruct Hx as ([[role content] name] & <- & Hm).
    rewrite Forall_forall in H. specialize (H _ Hm). cbn [fst snd] in H.
    role_cases H; destruct name; eexists; reflexivity. }
  subst iss. now eexists.
Qed.

Lemma Index_accepts_messages (msgs : list (string * string * option string)) :
  Forall (fun m => In (fst (fst m)) three_roles) msgs ->
  accepts Index.ChatCompletionArgsSchema
          (args_of [("messages", JArr (map message_of msgs))]).
Proof.
  intro H. apply accepts_fields. intros k s Hs. cbn [In] in Hs.
  repeat (destruct Hs as [Hs | Hs];
          [ injection Hs as <- <-; try (eexists; reflexivity) |]);
    [| contradiction].
  change (lookup "messages" _) with (Some (JArr (map message_of msgs))).
  rewrite parse_array.
  match goal with
  | |- context [Zod.parse_items Zod.parse ?e ?p 0 ?l] =>
      pose proof (parse_items_ok Zod.parse e p l) as K;
      destruct (Zod.parse_items Zod.parse e p 0 l) as [iss out] eqn:E
  end.
  assert (K0 : iss = []).
  { change iss with (fst (iss, out)). rewrite <- E. apply K.
    intros x i Hx. apply in_map_iff in Hx. destruct Hx as ([[role content] name] & <- & Hm).
    rewrite Forall_forall in H. specialize (H _ Hm). cbn [fst snd] in H.
    role_cases H; destruct name; eexists; reflexivity. }
  subst iss. now eexists.
Qed.

Lemma Index_rejects_role (W : Platform) (fields : list (string * json))
      (msgs : list json) (i : nat) (m : list (string * json)) (role : string) :
  lookup "messages" fields = Some (JArr msgs) ->
  nth_error msgs i = Some (JObj m) ->
  lookup "role" m = Some (JStr role) ->
  ~ In role three_roles ->
  rejects_naming (Index.handler W "chat_completion") (args_of fields)
                 (Zod.format_issue (role_issue i role)).
Proof.
  intros Hmsgs Hi Hrole Hr.
  (* the role *)
  assert (R : Zod.parse (Zod.ZEnum three_roles)
                [Zod.Key "messages"; Zod.Index i; Zod.Key "role"]
                (lookup "role" m)
              = Zod.Err [role_issue i role]).
  { rewrite Hrole. cbn [Zod.parse].
    destruct (JS.array_includes three_roles role) eqn:E; [| reflexivity].
    exfalso. apply Hr. unfold JS.array_includes in E.
    apply existsb_exists in E. destruct E as (x & Hx & E).
    apply String.eqb_eq in E. now subst. }
  (* the message *)
  pose (elem := [ ("role", Zod.ZEnum three_roles); ("content", Zod.ZString None) ]).
  assert (E : exists all,
             Zod.parse (Zod.ZObject elem) [Zod.Key "messages"; Zod.Index i]
                       (Some (JObj m)) = Zod.Err all
             /\ In (role_issue i role) all).
  { rewrite parse_object.
    pose proof (parse_shape_issue Zod.parse elem [Zod.Key "messages"; Zod.Index i]
                  m "role" _ _ (role_issue i role) (or_introl eq_refl) R
                  (or_introl eq_refl)) as K.
    destruct (Zod.parse_shape Zod.parse elem _ m) as [iss out].
    cbn [fst] in K. destruct iss; [easy |]. now eexists. }
  destruct E as (all & Hall & Hin).
  (* the array *)
  assert (A : exists all',
             Zod.parse (Zod.ZArray (Zod.ZObject elem)) [Zod.Key "messages"]
                       (lookup "messages" fields) = Zod.Err all'
             /\ In (role_issue i role) all').
  { rewrite Hmsgs, parse_array.
    pose proof (parse_items_issue Zod.parse (Zod.ZObject elem) [Zod.Key "messages"]
                  msgs i (JObj m) all (role_issue i role) Hi 0%nat Hall Hin) as K.
    destruct (Zod.parse_items Zod.parse _ _ 0 msgs) as [iss out].
    cbn [fst] in K. destruct iss; [easy |]. now eexists. }
  destruct A as (all' & Hall' & Hin').
  (* the arguments *)
  assert (O : exists issues,
             Zod.parse Index.ChatCompletionArgsSchema [] (args_of fields)
             = Zod.Err issues
             /\ In (role_issue i role) issues).
  { apply (object_rejects _ fields "messages" (Zod.ZArray (Zod.ZObject elem)) all');
      [now left | exact Hall' | exact Hin']. }
  destruct O as (issues & Hp & Hissue).
  exists (McpError InvalidParams ("Invalid parameters: " ++ Zod.format_issues issues)).
  split.
  - apply (Index_handler_invalid W "chat_completion" Index.ChatCompletionArgsSchema);
      [now left | exact Hp].
  - exact (includes_after "MCP error -32602: " _ _
             (format_issues_includes _ issues _ Hissue)).
Qed.

(** C9, as the code has it: the schema of chat_completion in the server
    with the image tools accepts messages of all five roles (system,
    user, assistant, function, tool), with a string content and
    optionally a name. The schema of chat_completion in src/index.ts
    accepts the roles system, user and assistant only: a message whose
    role is any other string, function and tool among them, is rejected
    there as an enum violation at messages.<i>.role. *)
Theorem C9_chat_roles (W : Platform) :
  (forall msgs : list (string * string * option string),
      Forall (fun m => In (fst (fst m))
                          ["system"; "user"; "assistant"; "function"; "tool"])
             msgs ->
      accepts Server.ChatCompletionSchema
              (args_of [("messages", JArr (map message_of msgs))]))
  /\ (forall msgs : list (string * string * option string),
         Forall (fun m => In (fst (fst m)) ["system"; "user"; "assistant"]) msgs ->
         accepts Index.ChatCompletionArgsSchema
                 (args_of [("messages", JArr (map message_of msgs))]))
  /\ (forall fields msgs i m role,
         lookup "messages" fields = Some (JArr msgs) ->
         nth_error msgs i = Some (JObj m) ->
         lookup "role" m = Some (JStr role) ->
         ~ In role ["system"; "user"; "assistant"] ->
         rejects_naming (Index.handler W "chat_completion") (args_of fields)
                        (Zod.format_issue (role_issue i role))).
Proof.
  split; [| split].
  - exact Server_accepts_messages.
  - exact Index_accepts_messages.
  - exact (Index_rejects_role W).
Qed.

Lemma C9_chat_roles_witness :
  accepts Server.ChatCompletionSchema
    (args_of [("messages",
                JArr [JObj [("role", JStr "function"); ("content", JStr "42");
                            ("name", JStr "lookup")];
                      JObj [("role", JStr "tool"); ("content", JStr "done")]])])
  /\ rejects_naming (Index.handler quiet_platform "chat_completion")
       (args_of [("messages",
                   JArr [JObj [("role", JStr "user"); ("content", JStr "hi")];
                         JObj [("role", JStr "tool"); ("content", JStr "done")]])])
       "messages.1.role: Invalid enum value. Expected 'system' | 'user' | 'assistant', received 'tool'".
Proof.
  destruct (C9_chat_roles quiet_platform) as (A & _ & C). split.
  - apply (A [("function", "42", Some "lookup"); ("tool", "done", None)]).
    apply Forall_cons; [cbn; auto 10 |].
    apply Forall_cons; [cbn; auto 10 |]. apply Forall_nil.
  - apply (C [("messages",
                 JArr [JObj [("role", JStr "user"); ("content", JStr "hi")];
                       JObj [("role", JStr "tool"); ("content", JStr "done")]])]
             [JObj [("role", JStr "user"); ("content", JStr "hi")];
              JObj [("role", JStr "tool"); ("content", JStr "done")]]
             1%nat [("role", JStr "tool"); ("content", JStr "done")] "tool");
      [reflexivity | reflexivity | reflexivity |].
    cbn [In]. intros [H | [H | [H | H]]]; try discriminate H; exact H.
Defined.

(** The claim fails for the chat_completion tool of src/index.ts: a
    message of role "tool" is rejected as an enum violation. *)
Lemma C9_index_rejects_tool_role :
  Index.handler quiet_platform "chat_completion"
    (args_of [("messages",
                JArr [JObj [("role", JStr "tool"); ("content", JStr "hi")]])])
  = ([], Throw (McpError InvalidParams
       "Invalid parameters: messages.0.role: Invalid enum value. Expected 'system' | 'user' | 'assistant', received 'tool'"))
  /\ ~ accepts Index.ChatCompletionArgsSchema
       (args_of [("messages",
                   JArr [JObj [("role", JStr "tool"); ("content", JStr "hi")]])]).
Proof.
  split; [reflexivity |]. intros [params H]. discriminate H.
Qed.

(** ** dall-e-2 without a style *)

Ltac no_dup :=
  repeat (constructor; [cbn [In map fst]; intuition discriminate |]);
  constructor.

(** C10: a generate_image call that selects dall-e-2, omits the style
    and asks for quality hd. The schema accepts it and fills in the
    style "vivid", so that two rules of dall-e-2 are violated, as
    [validateDALLEParams] reports for these parameters; the handler
    throws at the check of the quality, which comes first, and the
    error of the style, which the claim expects, is not what the
    caller gets. Nothing is sent to the image API. *)
Theorem C10_hd_quality_hides_style_error (W : Platform) :
  Zod.parse Server.GenerateImageSchema []
    (args_of [("prompt", JStr "a cat"); ("model", JStr "dall-e-2");
              ("quality", JStr "hd")])
  = Zod.Ok (Some (JObj [("prompt", JStr "a cat"); ("model", JStr "dall-e-2");
                        ("n", Server.JZ 1); ("quality", JStr "hd");
                        ("response_format", JStr "url");
                        ("size", JStr "1024x1024"); ("style", JStr "vivid")]))
  /\ Server.handler W "generate_image"
       (args_of [("prompt", JStr "a cat"); ("model", JStr "dall-e-2");
                 ("quality", JStr "hd")])
     = ([], Throw (Error "DALL-E 2 does not support 'hd' quality"))
  /\ JS.includes "DALL-E 2 does not support 'hd' quality"
                 "does not support 'style' parameter" = false
  /\ Utils.validateDALLEParams
       {| Utils.model := "dall-e-2"; Utils.size := Some "1024x1024";
          Utils.quality := Some "hd"; Utils.style := Some "vivid";
          Utils.n := Some 1%Q |}
     = {| Utils.valid := false;
          Utils.errors := [ "DALL-E 2 does not support 'hd' quality";
                            "DALL-E 2 does not support 'style' parameter" ] |}.
Proof. repeat split. Qed.

(** ** Errors of the upstream API *)

Lemma bind_run {A B} (m : M A) (k : A -> M B) :
  bind m k
  = match m with
    | (t, Return a) => ((t ++ trace (k a))%list, outcome (k a))
    | (t, Throw e) => (t, Throw e)
    end.
Proof. destruct m as [t [a | e]]; cbn; [now destruct (k a) | reflexivity]. Qed.

Lemma try_catch_run {A} (m : M A) (h : exn -> M A) :
  try_catch m h
  = match m with
    | (t, Return a) => (t, Return a)
    | (t, Throw e) => ((t ++ trace (h e))%list, outcome (h e))
    end.
Proof. destruct m as [t [a | e]]; cbn; [reflexivity | now destruct (h e)]. Qed.

Lemma pure_silent {A} (m : M A) : pure m -> silent m.
Proof. unfold pure, silent. intros -> req. easy. Qed.

Lemma pure_bind {A B} (m : M A) (k : A -> M B) :
  pure m -> (forall a, pure (k a)) -> pure (bind m k).
Proof.
  unfold pure. intros Hm Hk. rewrite bind_run.
  destruct m as [t [a | e]]; cbn in *; subst; [apply Hk | reflexivity].
Qed.

Lemma silent_bind {A B} (m : M A) (k : A -> M B) :
  silent m -> (forall a, silent (k a)) -> silent (bind m k).
Proof.
  unfold silent. intros Hm Hk req. rewrite bind_run.
  destruct m as [t [a | e]]; cbn in *; [| apply Hm].
  intro H. apply in_app_or in H. destruct H as [H | H];
    [exact (Hm req H) | exact (Hk a req H)].
Qed.

Lemma pure_ret {A} (a : A) : pure (ret a).
Proof. reflexivity. Qed.

Lemma pure_throw {A} (e : exn) : pure (@throw A e).
Proof. reflexivity. Qed.

Lemma pure_throw_if (c : bool) (e : exn) : pure (throw_if c e).
Proof. now destruct c. Qed.

Lemma pure_prop (v : value) (k : string) : pure (prop v k).
Proof. destruct v as [[] |]; reflexivity. Qed.

Lemma pure_item (v : value) (i : nat) : pure (item v i).
Proof. destruct v as [[] |]; reflexivity. Qed.

Lemma pure_zparse (s : Zod.schema) (args : value) : pure (zparse s args).
Proof. unfold zparse. now destruct (Zod.parse s [] args). Qed.

Lemma pure_checks (params : value) : pure (Server.generate_image_checks params).
Proof.
  unfold Server.generate_image_checks.
  repeat first [ apply pure_bind; [| intro]
               | apply pure_throw_if
               | apply pure_ret
               | match goal with |- pure (if ?c then _ else _) => destruct c end ].
Qed.

Lemma silent_imageToBuffer (W : Platform) (s : string) :
  silent (Server.imageToBuffer W s).
Proof.
  unfold Server.imageToBuffer.
  destruct (JS.startsWith s "http://" || JS.startsWith s "https://").
  - apply silent_bind.
    + intros req [H | []]. discriminate H.
    + intro r. apply pure_silent, pure_bind; [apply pure_throw_if | intro; apply pure_ret].
  - destruct (JS.startsWith s "data:image"); apply pure_silent.
    + unfold Server.Buffer_from. now destruct (nth_error _ 1).
    + apply pure_ret.
Qed.

Lemma silent_imageToBuffer_of (W : Platform) (v : value) :
  silent (Server.imageToBuffer_of W v).
Proof.
  destruct v as [[] |]; try (apply pure_silent, pure_throw).
  apply silent_imageToBuffer.
Qed.

Lemma relays_silent (W : Platform) {A} (m : M A) : silent m -> relays W m.
Proof. intros H req status message Hin. now apply H in Hin. Qed.

Lemma relays_bind (W : Platform) {A B} (m : M A) (k : A -> M B) :
  silent m -> (forall a, relays W (k a)) -> relays W (bind m k).
Proof.
  intros Hm Hk req status message. rewrite bind_run.
  destruct m as [t [a | e]]; cbn.
  - intros Hin. apply in_app_or in Hin. destruct Hin as [Hin | Hin].
    + now apply Hm in Hin.
    + now apply Hk.
  - intros Hin. now apply Hm in Hin.
Qed.

Lemma relays_call (W : Platform) {A} (req : api_request) (g : json -> A) :
  relays W (response <- call W req ;; ret (g response)).
Proof.
  intros req' status message. unfold call, bind, ret.
  destruct (openai W req) as [r | e] eqn:E; cbn.
  - intros [H | []]. injection H as <-. congruence.
  - intros [H | []]. injection H as <-. congruence.
Qed.

Lemma Server_dispatch_relays (W : Platform) (name : string) (args : value) :
  relays W (Server.dispatch W name args).
Proof.
  unfold Server.dispatch.
  repeat match goal with
         | |- relays _ (if String.eqb name ?s then _ else _) =>
             destruct (String.eqb name s)
         end;
    repeat first
      [ apply relays_call
      | apply relays_bind; [| intro]
      | apply pure_silent, pure_zparse
      | apply pure_silent, pure_checks
      | apply silent_imageToBuffer_of
      | apply pure_silent, pure_ret
      | apply relays_silent, pure_silent, pure_throw
      | match goal with
        | |- silent (if ?c then _ else _) => destruct c
        end
      | apply silent_bind; [| intro] ].
Qed.

Lemma wraps_silent (W : Platform) {A} (m : M A) : silent m -> wraps W m.
Proof. intros H req e Hin. now apply H in Hin. Qed.

Lemma wraps_bind (W : Platform) {A B} (m : M A) (k : A -> M B) :
  silent m -> (forall a, wraps W (k a)) -> wraps W (bind m k).
Proof.
  intros Hm Hk req e. rewrite bind_run.
  destruct m as [t [a | e0]]; cbn.
  - intros Hin. apply in_app_or in Hin. destruct Hin as [Hin | Hin].
    + now apply Hm in Hin.
    + now apply Hk.
  - intros Hin. now apply Hm in Hin.
Qed.

(** A call of the client inside [try { ... } catch], followed by
    computations that call nothing. *)
Lemma wraps_guarded_call (W : Platform) {A} (req : api_request) (k : json -> M A) :
  (forall r, pure (k r)) ->
  wraps W (try_catch (response <- call W req ;; k response)
                     (Index.on_api_error W)).
Proof.
  intros Hk req' e. rewrite try_catch_run, bind_run. unfold call.
  destruct (openai W req) as [r | e0] eqn:E.
  - specialize (Hk r). unfold pure in Hk.
    destruct (k r) as [t [a | e1]]; cbn in *; subst t; cbn;
      intros [H | []]; injection H as <-; congruence.
  - cbn. intros [H | []]. injection H as <-. congruence.
Qed.

Lemma pure_map_models (data : list json) : pure (Index.map_models data).
Proof.
  induction data as [| model rest IH]; [reflexivity |]. cbn [Index.map_models].
  repeat first [ apply pure_bind; [| intro] | apply pure_prop | apply pure_ret
               | exact IH ].
Qed.

Ltac pure_steps :=
  repeat first [ apply pure_bind; [| intro]
               | apply pure_prop | apply pure_item | apply pure_ret
               | apply pure_throw | apply pure_map_models ].

Lemma Index_dispatch_wraps (W : Platform) (name : string) (args : value) :
  wraps W (Index.dispatch W name args).
Proof.
  unfold Index.dispatch.
  repeat match goal with
         | |- wraps _ (if String.eqb name ?s then _ else _) =>
             destruct (String.eqb name s)
         end.
  - apply wraps_bind; [apply pure_silent, pure_zparse | intro v].
    apply wraps_guarded_call. intro r. pure_steps.
  - apply wraps_bind; [apply pure_silent, pure_zparse | intro v].
    apply wraps_guarded_call. intro r. pure_steps.
  - apply wraps_guarded_call. intro r.
    apply pure_bind; [apply pure_prop | intros [[| | | | items |] |]]; pure_steps.
  - apply wraps_bind; [apply pure_silent, pure_zparse | intro v].
    apply wraps_guarded_call. intro r. pure_steps.
  - apply wraps_silent, pure_silent, pure_throw.
Qed.

(** C4, as the code has it. In the server with the image tools, an
    APIError that a call of the OpenAI client throws reaches the caller
    as an Error whose message is "OpenAI API error (<status>): " followed
    by the message of the client, unchanged. In src/index.ts, whatever a
    call of the client throws reaches the caller as an McpError of code
    InternalError, made with the message "OpenAI API error: " followed
    by the message of the client, unchanged. *)
Theorem C4_upstream_errors (W : Platform) :
  (forall name args req status message,
      In (Called req) (trace (Server.handler W name args)) ->
      openai W req = Throw (APIError status message) ->
      outcome (Server.handler W name args)
      = Throw (Error ("OpenAI API error (" ++ Server.show_status status
                      ++ "): " ++ message)))
  /\ (forall name args req e,
         In (Called req) (trace (Index.handler W name args)) ->
         openai W req = Throw e ->
         outcome (Index.handler W name args)
         = Throw (McpError InternalError
                    ("OpenAI API error: " ++ exn_message W e))).
Proof.
  split.
  - intros name args req status message Hin Hthrow.
    pose proof (Server_dispatch_relays W name args req status message) as R.
    unfold Server.handler in *. rewrite try_catch_run in *.
    destruct (Server.dispatch W name args) as [t [a | e]]; cbn in *.
    + specialize (R Hin Hthrow). discriminate R.
    + assert (Hin' : In (Called req) t).
      { destruct e; cbn in Hin; now rewrite app_nil_r in Hin. }
      specialize (R Hin' Hthrow). injection R as ->. reflexivity.
  - intros name args req e Hin Hthrow.
    pose proof (Index_dispatch_wraps W name args req e) as R.
    unfold Index.handler in *. rewrite try_catch_run in *.
    destruct (Index.dispatch W name args) as [t [a | e0]]; cbn in *.
    + specialize (R Hin Hthrow). discriminate R.
    + assert (Hin' : In (Called req) t).
      { destruct e0; cbn in Hin; now rewrite app_nil_r in Hin. }
      specialize (R Hin' Hthrow). injection R as ->. reflexivity.
Qed.

Lemma C4_upstream_errors_witness :
  outcome (Server.handler rate_limited "chat_completion" hello_args)
  = Throw (Error "OpenAI API error (429): 429 Rate limit exceeded")
  /\ outcome (Index.handler rate_limited "chat_completion" hello_args)
     = Throw (McpError InternalError "OpenAI API error: 429 Rate limit exceeded").
Proof.
  destruct (C4_upstream_errors rate_limited) as [S I]. split.
  - refine (S "chat_completion" hello_args _ (Some 429%Z)
              "429 Rate limit exceeded" _ eq_refl).
    left. reflexivity.
  - refine (I "chat_completion" hello_args _
              (APIError (Some 429%Z) "429 Rate limit exceeded") _ eq_refl).
    left. reflexivity.
Defined.

(** The claim fails in src/index.ts: the upstream error with status 429
    reaches the caller as an McpError of code InternalError. *)
Lemma C4_index_reclassifies_as_InternalError :
  Index.handler rate_limited "chat_completion" hello_args
  = ([Called (chat_completions_create
        (Some (JObj [("model", JStr "gpt-4o");
                     ("messages",
                       JArr [JObj [("role", JStr "user"); ("content", JStr "hi")]]);
                     ("temperature", JNum (7 # 10))])))],
     Throw (McpError InternalError "OpenAI API error: 429 Rate limit exceeded")).
Proof. reflexivity. Qed.

(** ** Further properties of the dispatch *)

(** X1: a tool name outside the registry. The server with the image
    tools throws Error "Unknown tool: <name>", src/index.ts throws an
    McpError of code MethodNotFound with the same message; neither
    calls anything. *)
Theorem X1_unknown_tool (W : Platform) (name : string) (args : value) :
  ~ In name ["chat_completion"; "create_embedding"; "generate_image";
             "edit_image"; "create_image_variation"; "list_models";
             "generate_embeddings"; "moderate_content"] ->
  Server.handler W name args = ([], Throw (Error ("Unknown tool: " ++ name)))
  /\ Index.handler W name args
     = ([], Throw (McpError MethodNotFound ("Unknown tool: " ++ name))).
Proof.
  intro H.
  assert (K : forall s, In s ["chat_completion"; "create_embedding";
                              "generate_image"; "edit_image";
                              "create_image_variation"; "list_models";
                              "generate_embeddings"; "moderate_content"] ->
                        String.eqb name s = false).
  { intros s Hs. apply String.eqb_neq. intros ->. exact (H Hs). }
  unfold Server.handler, Server.dispatch, Index.handler, Index.dispatch.
  rewrite !K by (cbn [In]; auto 12). split; reflexivity.
Qed.

Lemma X1_unknown_tool_witness :
  Server.handler quiet_platform "unknown_tool" (args_of [])
  = ([], Throw (Error "Unknown tool: unknown_tool"))
  /\ Index.handler quiet_platform "unknown_tool" (args_of [])
     = ([], Throw (McpError MethodNotFound "Unknown tool: unknown_tool")).
Proof.
  apply (X1_unknown_tool quiet_platform "unknown_tool" (args_of [])).
  cbn [In]. intuition discriminate.
Defined.

(** X2: the issues of all fields are reported together. Whenever the
    schema of a field of a tool of the server with the image tools
    raises an issue, the handler rejects the call and its message holds
    that issue, whatever the other fields are. *)
Theorem X2_field_issues_reported_together
        (W : Platform) (tool : string) (shape : list (string * Zod.schema))
        (fields : list (string * json)) (k : string) (s : Zod.schema)
        (issues : list Zod.ZodIssue) (i : Zod.ZodIssue) :
  In (tool, Zod.ZObject shape) Server_schemas ->
  In (k, s) shape ->
  Zod.parse s [Zod.Key k] (lookup k fields) = Zod.Err issues ->
  In i issues ->
  rejects_naming (Server.handler W tool) (args_of fields) (Zod.format_issue i).
Proof.
  intros Htool Hk Hp Hi.
  destruct (object_rejects shape fields k s issues i Hk Hp Hi) as (all & Hall & Hin).
  exists (Error ("Invalid input parameters: " ++ Zod.format_issues all)). split.
  - exact (Server_handler_invalid W tool _ _ all Htool Hall).
  - exact (format_issues_includes _ all i Hin).
Qed.

Lemma X2_field_issues_reported_together_witness :
  rejects_naming (Server.handler quiet_platform "generate_image")
    (args_of [("n", JNum 11); ("size", JStr "huge")])
    "prompt: Required"
  /\ rejects_naming (Server.handler quiet_platform "generate_image")
       (args_of [("n", JNum 11); ("size", JStr "huge")])
       "n: Number must be less than or equal to 10".
Proof.
  split.
  - refine (X2_field_issues_reported_together quiet_platform "generate_image"
              _ [("n", JNum 11); ("size", JStr "huge")] "prompt"
              (Zod.ZString (Some 4000%nat)) _ _ _ _ eq_refl (or_introl eq_refl)).
    + right. right. left. reflexivity.
    + left. reflexivity.
  - refine (X2_field_issues_reported_together quiet_platform "generate_image"
              _ [("n", JNum 11); ("size", JStr "huge")] "n"
              (Zod.ZDefault (Zod.ZOptional (Zod.ZNumber [Zod.Min 1; Zod.Max 10]))
                            (Server.JZ 1))
              _ _ _ _ eq_refl (or_introl eq_refl)).
    + right. right. left. reflexivity.
    + right. right. left. reflexivity.
Defined.

(** X3: the handler's own [imageToBuffer] decodes the PNG data URL of a
    buffer to the buffer as well. *)
Theorem X3_handler_decoder_roundtrip (W : Platform) (bytes : Buffer.t) :
  Buffer.well_formed bytes ->
  Server.imageToBuffer W (Utils.bufferToDataURL bytes) = ([], Return bytes).
Proof.
  intro WF.
  change (Utils.bufferToDataURL bytes)
    with ("data:image/png;base64," ++ Buffer.toString_base64 bytes).
  now apply Server_imageToBuffer_roundtrip.
Qed.

Lemma X3_handler_decoder_roundtrip_witness :
  Server.imageToBuffer quiet_platform (Utils.bufferToDataURL [0x89; 0x50]%N)
  = ([], Return [0x89; 0x50]%N).
Proof.
  apply (X3_handler_decoder_roundtrip quiet_platform [0x89; 0x50]%N).
  repeat constructor.
Defined.

(** X4: the checks of the generate_image handler and
    [validateDALLEParams] apply the same rules in the same order: the
    handler throws nothing exactly when [validateDALLEParams] finds no
    error, and otherwise throws the first error of its list. *)
Theorem X4_checks_throw_first_error (p : Utils.DALLEParams) :
  Server.generate_image_checks (params_json p)
  = first_error (Utils.errors (Utils.validateDALLEParams p)).
Proof.
  unfold Server.generate_image_checks, Utils.validateDALLEParams.
  destruct (params_json_fields p) as (-> & -> & -> & -> & ->).
  destruct (checks_as_utils (Utils.size p) (Utils.quality p) (Utils.style p)
              (Utils.n p) ["1024x1024"; "1792x1024"; "1024x1792"])
    as (-> & -> & -> & ->).
  destruct (checks_as_utils (Utils.size p) (Utils.quality p) (Utils.style p)
              (Utils.n p) ["256x256"; "512x512"; "1024x1024"])
    as (_ & -> & _ & _).
  cbn [is_string Utils.errors].
  destruct (String.eqb (Utils.model p) "dall-e-3") eqn:E3.
  - apply String.eqb_eq in E3. rewrite E3.
    change (String.eqb "dall-e-3" "dall-e-2") with false.
    destruct (Utils.n_above_one (Utils.n p)), (Utils.size_not_in _ (Utils.size p));
      reflexivity.
  - destruct (String.eqb (Utils.model p) "dall-e-2");
      [| reflexivity].
    destruct (Utils.is_hd (Utils.quality p)), (Utils.present (Utils.style p)),
             (Utils.size_not_in _ (Utils.size p)); reflexivity.
Qed.

(** ** Parsed parameters *)

(** A failed parse carries at least one issue. *)
Lemma parse_err_nonempty (s : Zod.schema) :
  forall p v issues, Zod.parse s p v = Zod.Err issues -> issues <> [].
Proof.
  induction s as [mx | checks | | values | elem IH | shape | options
                  | inner IH | inner IH dflt];
    intros p v issues H; cbn [Zod.parse] in H.
  - destruct v as [[] |]; try (injection H as <-; discriminate).
    destruct mx as [m |]; [| discriminate].
    destruct (m <? String.length s)%nat; [| discriminate].
    injection H as <-. discriminate.
  - destruct v as [[] |]; try (injection H as <-; discriminate).
    destruct (flat_map (Zod.check_number p q) checks); [discriminate |].
    injection H as <-. discriminate.
  - destruct v as [[] |]; try (injection H as <-; discriminate). discriminate.
  - destruct v as [[] |]; try (injection H as <-; discriminate).
    destruct (JS.array_includes values s); [discriminate |].
    injection H as <-. discriminate.
  - destruct v as [[] |]; try (injection H as <-; discriminate).
    destruct (Zod.parse_items Zod.parse elem p 0 items) as [[| i iss] out];
      [discriminate |].
    injection H as <-. discriminate.
  - destruct v as [[] |]; try (injection H as <-; discriminate).
    destruct (Zod.parse_shape Zod.parse shape p fields) as [[| i iss] out];
      [discriminate |].
    injection H as <-. discriminate.
  - induction options as [| o rest IHo]; cbn [Zod.parse_union] in H.
    + injection H as <-. discriminate.
    + destruct (Zod.parse o p v); [discriminate | now apply IHo].
  - destruct v; [now apply (IH p (Some j)) | discriminate].
  - destruct v; [now apply (IH p (Some j)) | now apply (IH p (Some dflt))].
Qed.

(** When an object parses, each of its fields parsed, and the parsed
    object holds what the field's schema made of it. *)
Lemma parse_object_fields (shape : list (string * Zod.schema))
      (fields : list (string * json)) (params : value) :
  NoDup (map fst shape) ->
  Zod.parse (Zod.ZObject shape) [] (args_of fields) = Zod.Ok params ->
  forall k s,
    In (k, s) shape ->
    exists v,
      Zod.parse s [Zod.Key k] (lookup k fields) = Zod.Ok v /\ get params k = v.
Proof.
  intros ND Hp k s Hin. unfold args_of in Hp. rewrite parse_object in Hp.
  pose proof (parse_shape_lookup Zod.parse shape [] fields k s) as L.
  pose proof (parse_shape_issue Zod.parse shape [] fields k s) as I.
  destruct (Zod.parse_shape Zod.parse shape [] fields) as [iss out].
  destruct iss; [| discriminate]. injection Hp as <-. cbn [fst snd get] in *.
  destruct (Zod.parse s [Zod.Key k] (lookup k fields)) as [v | e] eqn:E.
  - exists v. split; [reflexivity |]. now apply L.
  - exfalso. pose proof (parse_err_nonempty _ _ _ _ E) as NE.
    destruct e as [| i e]; [now apply NE |].
    exact (I (i :: e) i Hin E (or_introl eq_refl)).
Qed.

Lemma enum_parse (values : list string) (p : list Zod.path_seg) (j : json)
      (r : value) :
  Zod.parse (Zod.ZEnum values) p (Some j) = Zod.Ok r ->
  exists x, j = JStr x /\ r = Some (JStr x) /\ JS.array_includes values x = true.
Proof.
  cbn [Zod.parse]. destruct j as [| b | q | x | items | o]; try discriminate.
  destruct (JS.array_includes values x) eqn:E; [| discriminate].
  intro H. injection H as <-. now exists x.
Qed.

Lemma bounded_number_parse (lo hi : Z) (p : list Zod.path_seg) (j : json)
      (r : value) :
  Zod.parse (Zod.ZNumber [Zod.Min lo; Zod.Max hi]) p (Some j) = Zod.Ok r ->
  exists q, j = JNum q /\ r = Some (JNum q)
            /\ (inject_Z lo <= q)%Q /\ (q <= inject_Z hi)%Q.
Proof.
  cbn [Zod.parse flat_map Zod.check_number].
  destruct j as [| b | q | x | items | o]; try discriminate.
  destruct (Qle_bool (inject_Z lo) q) eqn:Elo; [| discriminate].
  destruct (Qle_bool q (inject_Z hi)) eqn:Ehi; [| discriminate].
  cbn [app]. intro H. injection H as <-. exists q.
  repeat split; now apply Qle_bool_iff.
Qed.

Lemma bind_ret {A B} (a : A) (k : A -> M B) : bind (ret a) k = k a.
Proof. unfold bind, ret. now destruct (k a). Qed.

(** The handler of generate_image once the schema has accepted the
    arguments. *)
Lemma Server_generate_image_parsed (W : Platform) (args params : value) :
  Zod.parse Server.GenerateImageSchema [] args = Zod.Ok params ->
  Server.handler W "generate_image" args
  = try_catch
      (Server.generate_image_checks params ;;;
       image <- call W (images_generate params) ;;
       ret (Server.text_of W image))
      Server.on_error.
Proof.
  intro Hp. unfold Server.handler, Server.dispatch, zparse.
  cbn [String.eqb Ascii.eqb Bool.eqb]. rewrite Hp. now rewrite bind_ret.
Qed.

Lemma GenerateImage_NoDup :
  forall shape, Server.GenerateImageSchema = Zod.ZObject shape ->
                NoDup (map fst shape).
Proof. intros shape H. injection H as <-. no_dup. Qed.

Lemma checks_dalle2_throw (params : value) :
  get params "model" = Some (JStr "dall-e-2") ->
  truthy (get params "style") = true ->
  Server.generate_image_checks params
  = ([], Throw (Error (if is_string (get params "quality") "hd"
                       then hd_error else style_error))).
Proof.
  intros Hm Hs. unfold Server.generate_image_checks. rewrite Hm, Hs.
  cbn [is_string String.eqb Ascii.eqb Bool.eqb].
  destruct (is_string (get params "quality") "hd"); reflexivity.
Qed.

(** What the schema of generate_image makes of the fields model and
    style. *)
Lemma GenerateImage_style (fields : list (string * json)) (params : value) :
  Zod.parse Server.GenerateImageSchema [] (args_of fields) = Zod.Ok params ->
  truthy (get params "style") = true.
Proof.
  intro Hp.
  destruct (parse_object_fields _ fields params
              (GenerateImage_NoDup _ eq_refl) Hp "style"
              (Zod.ZDefault (Zod.ZOptional (Zod.ZEnum ["vivid"; "natural"]))
                            (JStr "vivid")))
    as (v & Hv & ->); [in_shape |].
  destruct (lookup "style" fields) as [j |].
  - rewrite parse_default_some, parse_optional_some in Hv.
    destruct (enum_parse _ _ _ _ Hv) as (x & _ & -> & Hx).
    cbn in Hx. repeat (apply orb_prop in Hx; destruct Hx as [Hx | Hx]);
      try discriminate; apply String.eqb_eq in Hx; now subst.
  - cbn in Hv. now injection Hv as <-.
Qed.

Lemma GenerateImage_model (fields : list (string * json)) (params : value) :
  Zod.parse Server.GenerateImageSchema [] (args_of fields) = Zod.Ok params ->
  (get params "model" = Some (JStr "dall-e-3")
   /\ (lookup "model" fields = None
       \/ lookup "model" fields = Some (JStr "dall-e-3")))
  \/ (get params "model" = Some (JStr "dall-e-2")
      /\ lookup "model" fields = Some (JStr "dall-e-2")).
Proof.
  intro Hp.
  destruct (parse_object_fields _ fields params
              (GenerateImage_NoDup _ eq_refl) Hp "model"
              (Zod.ZDefault (Zod.ZEnum ["dall-e-2"; "dall-e-3"]) (JStr "dall-e-3")))
    as (v & Hv & ->); [in_shape |].
  destruct (lookup "model" fields) as [j |].
  - rewrite parse_default_some in Hv.
    destruct (enum_parse _ _ _ _ Hv) as (x & -> & -> & Hx).
    cbn in Hx. repeat (apply orb_prop in Hx; destruct Hx as [Hx | Hx]);
      try discriminate; apply String.eqb_eq in Hx; subst; auto.
  - cbn in Hv. injection Hv as <-. auto.
Qed.

(** X5: image generation with dall-e-2 never succeeds. Whatever the
    other arguments are, a generate_image call that selects dall-e-2
    ends in a thrown error and nothing is sent to the image API: the
    arguments fail the schema, or the schema has given them a style
    (the caller's or the default), which the dall-e-2 checks refuse
    when they do not refuse the quality first. *)
Theorem X5_dalle2_generation_never_reaches_upstream
        (W : Platform) (fields : list (string * json)) :
  lookup "model" fields = Some (JStr "dall-e-2") ->
  trace (Server.handler W "generate_image" (args_of fields)) = []
  /\ exists m,
      outcome (Server.handler W "generate_image" (args_of fields))
      = Throw (Error m)
      /\ (m = "DALL-E 2 does not support 'hd' quality"
          \/ m = "DALL-E 2 does not support 'style' parameter"
          \/ exists issues,
              Zod.parse Server.GenerateImageSchema [] (args_of fields)
              = Zod.Err issues
              /\ m = "Invalid input parameters: " ++ Zod.format_issues issues).
Proof.
  intro Hmodel.
  destruct (Zod.parse Server.GenerateImageSchema [] (args_of fields))
    as [params | issues] eqn:Hp.
  - rewrite (Server_generate_image_parsed W _ params Hp).
    assert (Hm : get params "model" = Some (JStr "dall-e-2")).
    { destruct (GenerateImage_model fields params Hp) as [[_ [H | H]] | [H _]];
        [congruence | congruence | exact H]. }
    rewrite (checks_dalle2_throw params Hm (GenerateImage_style fields params Hp)).
    destruct (is_string (get params "quality") "hd"); cbn;
      (split; [reflexivity | eexists; split; [reflexivity | auto]]).
  - rewrite (Server_handler_invalid W "generate_image" Server.GenerateImageSchema
               (args_of fields) issues); [| in_shape | exact Hp].
    split; [reflexivity |]. eexists. split; [reflexivity |].
    right. right. now exists issues.
Qed.

Lemma X5_dalle2_generation_witness :
  trace (Server.handler quiet_platform "generate_image"
           (args_of [("prompt", JStr "a robot mascot"); ("model", JStr "dall-e-2");
                     ("style", JStr "natural"); ("size", JStr "512x512")])) = [].
Proof.
  exact (proj1 (X5_dalle2_generation_never_reaches_upstream quiet_platform
                  [("prompt", JStr "a robot mascot"); ("model", JStr "dall-e-2");
                   ("style", JStr "natural"); ("size", JStr "512x512")] eq_refl)).
Defined.

Lemma GenerateImage_n (fields : list (string * json)) (params : value) :
  Zod.parse Server.GenerateImageSchema [] (args_of fields) = Zod.Ok params ->
  truthy (get params "n") && gt_int (get params "n") 1
  = negb match lookup "n" fields with
         | None => true
         | Some (JNum q) => Qeq_bool q 1
         | Some _ => false
         end.
Proof.
  intro Hp.
  destruct (parse_object_fields _ fields params
              (GenerateImage_NoDup _ eq_refl) Hp "n"
              (Zod.ZDefault (Zod.ZOptional (Zod.ZNumber [Zod.Min 1; Zod.Max 10]))
                            (Server.JZ 1)))
    as (v & Hv & ->); [in_shape |].
  destruct (lookup "n" fields) as [j |].
  - rewrite parse_default_some, parse_optional_some in Hv.
    destruct (bounded_number_parse _ _ _ _ _ Hv) as (q & -> & -> & Hlo & _).
    cbn [truthy gt_int]. unfold Qlt_bool.
    assert (H0 : Qeq_bool q 0 = false).
    { destruct (Qeq_bool q 0) eqn:E; [| reflexivity].
      apply Qeq_bool_iff in E. rewrite E in Hlo. now apply Qle_bool_iff in Hlo. }
    rewrite H0. cbn [negb andb]. f_equal.
    destruct (Qle_bool q (inject_Z 1)) eqn:E1, (Qeq_bool q 1) eqn:E2; try reflexivity.
    + apply Qle_bool_iff in E1. pose proof (Qle_antisym _ _ E1 Hlo) as K.
      apply Qeq_bool_iff in K. change (inject_Z 1) with 1%Q in K. congruence.
    + apply Qeq_bool_iff in E2. rewrite E2 in E1. discriminate E1.
  - cbn in Hv. now injection Hv as <-.
Qed.

Lemma GenerateImage_size (fields : list (string * json)) (params : value) :
  Zod.parse Server.GenerateImageSchema [] (args_of fields) = Zod.Ok params ->
  exists s,
    get params "size" = Some (JStr s)
    /\ truthy (get params "size") = true
    /\ (lookup "size" fields = None /\ s = "1024x1024"
        \/ lookup "size" fields = Some (JStr s)).
Proof.
  intro Hp.
  destruct (parse_object_fields _ fields params
              (GenerateImage_NoDup _ eq_refl) Hp "size"
              (Zod.ZDefault
                 (Zod.ZOptional
                    (Zod.ZEnum ["256x256"; "512x512"; "1024x1024"; "1792x1024";
                                "1024x1792"]))
                 (JStr "1024x1024")))
    as (v & Hv & ->); [in_shape |].
  destruct (lookup "size" fields) as [j |].
  - rewrite parse_default_some, parse_optional_some in Hv.
    destruct (enum_parse _ _ _ _ Hv) as (x & -> & -> & Hx).
    exists x. repeat split; auto.
    cbn in Hx. repeat (apply orb_prop in Hx; destruct Hx as [Hx | Hx]);
      try discriminate; apply String.eqb_eq in Hx; now subst.
  - cbn in Hv. injection Hv as <-. exists "1024x1024". auto.
Qed.

(** X6: when the schema of generate_image accepts the arguments, the
    image API is called exactly when the arguments select dall-e-3 or
    no model, n = 1 or no n, and one of the sizes 1024x1024, 1792x1024
    and 1024x1792 or no size. It is then called once, with the parsed
    parameters (the defaults filled in); otherwise nothing is called. *)
Theorem X6_generate_image_upstream_call
        (W : Platform) (fields : list (string * json)) (params : value) :
  Zod.parse Server.GenerateImageSchema [] (args_of fields) = Zod.Ok params ->
  trace (Server.handler W "generate_image" (args_of fields))
  = if dalle3_ready fields then [Called (images_generate params)] else [].
Proof.
  intro Hp. unfold dalle3_ready.
  destruct (GenerateImage_model fields params Hp) as [[Hm Hin] | [Hm Hin]].
  - (* dall-e-3 *)
    rewrite (Server_generate_image_parsed W _ params Hp).
    unfold Server.generate_image_checks. rewrite Hm.
    cbn [is_string String.eqb Ascii.eqb Bool.eqb].
    rewrite (GenerateImage_n fields params Hp).
    destruct (GenerateImage_size fields params Hp) as (s & Hs & Ht & Hsz).
    rewrite Ht, Hs. cbn [one_of andb].
    assert (M : match lookup "model" fields with
                | None => true
                | Some (JStr m) => String.eqb m "dall-e-3"
                | Some _ => false
                end = true).
    { destruct Hin as [-> | ->]; reflexivity. }
    rewrite M. cbn [andb].
    assert (S : match lookup "size" fields with
                | None => true
                | Some (JStr s) =>
                    JS.array_includes ["1024x1024"; "1792x1024"; "1024x1792"] s
                | Some _ => false
                end
                = JS.array_includes ["1024x1024"; "1792x1024"; "1024x1792"] s).
    { destruct Hsz as [[-> ->] | ->]; reflexivity. }
    rewrite S.
    destruct (match lookup "n" fields with
              | None => true
              | Some (JNum q) => Qeq_bool q 1
              | Some _ => false
              end); cbn [negb andb]; [| reflexivity].
    destruct (JS.array_includes _ s); cbn [negb]; [| reflexivity].
    unfold call, trace. rewrite try_catch_run, !bind_run. cbn.
    destruct (openai W (images_generate params)) as [r | e]; cbn; [reflexivity |].
    destruct e; reflexivity.
  - (* dall-e-2 *)
    rewrite (Server_generate_image_parsed W _ params Hp).
    rewrite (checks_dalle2_throw params Hm (GenerateImage_style fields params Hp)).
    rewrite Hin.
    destruct (is_string (get params "quality") "hd"); reflexivity.
Qed.

Lemma X6_generate_image_upstream_witness :
  trace (Server.handler quiet_platform "generate_image"
           (args_of [("prompt", JStr "a lighthouse at dusk");
                     ("size", JStr "1792x1024")]))
  = [Called (images_generate
               (Some (JObj [("prompt", JStr "a lighthouse at dusk");
                            ("model", JStr "dall-e-3");
                            ("n", Server.JZ 1);
                            ("quality", JStr "standard");
                            ("response_format", JStr "url");
                            ("size", JStr "1792x1024");
                            ("style", JStr "vivid")])))].
Proof.
  exact (X6_generate_image_upstream_call quiet_platform
           [("prompt", JStr "a lighthouse at dusk"); ("size", JStr "1792x1024")]
           _ eq_refl).
Defined.

(** ** One call of the client per invocation *)

Lemma silent_no_calls {A} (m : M A) : silent m -> n_calls m = 0%nat.
Proof.
  unfold silent, n_calls. intro H.
  induction (trace m) as [| ev t IH]; [reflexivity |].
  cbn [filter]. destruct ev as [url | req]; cbn [is_call].
  - apply IH. intros req Hin. apply (H req). now right.
  - exfalso. apply (H req). now left.
Qed.

Lemma n_calls_bind {A B} (m : M A) (k : A -> M B) :
  silent m -> (forall a, (n_calls (k a) <= 1)%nat) -> (n_calls (bind m k) <= 1)%nat.
Proof.
  intros Hm Hk. pose proof (silent_no_calls m Hm) as Z.
  unfold n_calls in *. rewrite bind_run.
  destruct m as [t [a | e]]; cbn [trace fst] in *.
  - rewrite filter_app, length_app, Z. exact (Hk a).
  - rewrite Z. lia.
Qed.

Lemma n_calls_call {A} (W : Platform) (req : api_request) (k : json -> M A) :
  (forall r, pure (k r)) ->
  n_calls (response <- call W req ;; k response) = 1%nat.
Proof.
  intro Hk. unfold n_calls, call. rewrite bind_run.
  destruct (openai W req) as [r | e]; [| reflexivity].
  unfold trace at 1. cbn [fst]. specialize (Hk r). unfold pure in Hk.
  now rewrite Hk.
Qed.

Lemma n_calls_try_catch {A} (m : M A) (h : exn -> M A) :
  (forall e, pure (h e)) -> n_calls (try_catch m h) = n_calls m.
Proof.
  intro Hh. unfold n_calls. rewrite try_catch_run.
  destruct m as [t [a | e]]; cbn [trace fst]; [reflexivity |].
  specialize (Hh e). unfold pure in Hh. now rewrite Hh, app_nil_r.
Qed.

Lemma pure_Server_on_error (e : exn) : pure (Server.on_error e).
Proof. now destruct e. Qed.

Lemma pure_Index_on_error (e : exn) : @pure ToolResult (Index.on_error e).
Proof. now destruct e. Qed.

Lemma pure_on_api_error (W : Platform) {A} (e : exn) : @pure A (Index.on_api_error W e).
Proof. reflexivity. Qed.

Lemma Server_dispatch_once (W : Platform) (name : string) (args : value) :
  (n_calls (Server.dispatch W name args) <= 1)%nat.
Proof.
  unfold Server.dispatch.
  repeat match goal with
         | |- (n_calls (if String.eqb name ?s then _ else _) <= 1)%nat =>
             destruct (String.eqb name s)
         end;
    repeat first
      [ rewrite n_calls_call by (intro; apply pure_ret); apply Nat.le_refl
      | apply n_calls_bind; [| intro]
      | apply pure_silent, pure_zparse
      | apply pure_silent, pure_checks
      | apply silent_imageToBuffer_of
      | apply pure_silent, pure_ret
      | match goal with
        | |- silent (if ?c then _ else _) => destruct c
        end
      | apply silent_bind; [| intro] ].
  rewrite silent_no_calls by apply pure_silent, pure_throw. lia.
Qed.

Lemma Index_dispatch_once (W : Platform) (name : string) (args : value) :
  (n_calls (Index.dispatch W name args) <= 1)%nat.
Proof.
  unfold Index.dispatch.
  repeat match goal with
         | |- (n_calls (if String.eqb name ?s then _ else _) <= 1)%nat =>
             destruct (String.eqb name s)
         end.
  - apply n_calls_bind; [apply pure_silent, pure_zparse | intro v].
    rewrite n_calls_try_catch by (intro; apply pure_on_api_error).
    rewrite n_calls_call; [apply Nat.le_refl | intro r; pure_steps].
  - apply n_calls_bind; [apply pure_silent, pure_zparse | intro v].
    rewrite n_calls_try_catch by (intro; apply pure_on_api_error).
    rewrite n_calls_call; [apply Nat.le_refl | intro r; pure_steps].
  - rewrite n_calls_try_catch by (intro; apply pure_on_api_error).
    rewrite n_calls_call; [apply Nat.le_refl | intro r].
    apply pure_bind; [apply pure_prop | intros [[| | | | items |] |]]; pure_steps.
  - apply n_calls_bind; [apply pure_silent, pure_zparse | intro v].
    rewrite n_calls_try_catch by (intro; apply pure_on_api_error).
    rewrite n_calls_call; [apply Nat.le_refl | intro r; pure_steps].
  - rewrite silent_no_calls by apply pure_silent, pure_throw. lia.
Qed.

Lemma answers_silent (W : Platform) (m : M ToolResult) : silent m -> answers W m.
Proof. intros H req response Hin. now apply H in Hin. Qed.

Lemma answers_bind (W : Platform) {A} (m : M A) (k : A -> M ToolResult) :
  silent m -> (forall a, answers W (k a)) -> answers W (bind m k).
Proof.
  intros Hm Hk req response. rewrite bind_run.
  destruct m as [t [a | e]]; cbn.
  - intros Hin. apply in_app_or in Hin. destruct Hin as [Hin | Hin].
    + now apply Hm in Hin.
    + now apply Hk.
  - intros Hin. now apply Hm in Hin.
Qed.

Lemma answers_call (W : Platform) (req : api_request) :
  answers W (response <- call W req ;; ret (Server.text_of W response)).
Proof.
  intros req' response. unfold call, bind, ret.
  destruct (openai W req) as [r | e] eqn:E; cbn.
  - intros [H | []]. injection H as <-. rewrite E. intro K. now injection K as ->.
  - intros [H | []]. injection H as <-. congruence.
Qed.

Lemma Server_dispatch_answers (W : Platform) (name : string) (args : value) :
  answers W (Server.dispatch W name args).
Proof.
  unfold Server.dispatch.
  repeat match goal with
         | |- answers _ (if String.eqb name ?s then _ else _) =>
             destruct (String.eqb name s)
         end;
    repeat first
      [ apply answers_call
      | apply answers_bind; [| intro]
      | apply pure_silent, pure_zparse
      | apply pure_silent, pure_checks
      | apply silent_imageToBuffer_of
      | apply pure_silent, pure_ret
      | apply answers_silent, pure_silent, pure_throw
      | match goal with
        | |- silent (if ?c then _ else _) => destruct c
        end
      | apply silent_bind; [| intro] ].
Qed.

(** X7: no retries and full pass-through. An invocation of either
    handler calls the OpenAI client at most once. In the server with
    the image tools, when that call returns, the result of the tool is
    the response of the client, serialised as it is. *)
Theorem X7_one_call_and_passthrough (W : Platform) (name : string) (args : value) :
  (n_calls (Server.handler W name args) <= 1)%nat
  /\ (n_calls (Index.handler W name args) <= 1)%nat
  /\ (forall req response,
         In (Called req) (trace (Server.handler W name args)) ->
         openai W req = Return response ->
         outcome (Server.handler W name args)
         = Return {| text := JSON_stringify W response |}).
Proof.
  split; [| split].
  - unfold Server.handler.
    rewrite n_calls_try_catch by apply pure_Server_on_error.
    apply Server_dispatch_once.
  - unfold Index.handler.
    rewrite n_calls_try_catch by apply pure_Index_on_error.
    apply Index_dispatch_once.
  - intros req response Hin Hr.
    pose proof (Server_dispatch_answers W name args req response) as R.
    unfold Server.handler in *. rewrite try_catch_run in *.
    destruct (Server.dispatch W name args) as [t [a | e]]; cbn in *.
    + exact (R Hin Hr).
    + assert (Hin' : In (Called req) t).
      { destruct e; cbn in Hin; now rewrite app_nil_r in Hin. }
      specialize (R Hin' Hr). discriminate R.
Qed.

Lemma X7_one_call_and_passthrough_witness :
  outcome (Server.handler quiet_platform "chat_completion" hello_args)
  = Return {| text := "{}" |}.
Proof.
  refine (proj2 (proj2 (X7_one_call_and_passthrough quiet_platform
                          "chat_completion" hello_args)) _ (JObj []) _ eq_refl).
  left. reflexivity.
Defined.

(** ** The errors of src/index.ts *)

Lemma guarded_call_run (W : Platform) {A} (req : api_request) (k : json -> M A) :
  (forall r, pure (k r)) ->
  exists o,
    try_catch (response <- call W req ;; k response) (Index.on_api_error W)
    = ([Called req], o)
    /\ forall e, o = Throw e ->
                 exists msg,
                   e = McpError InternalError ("OpenAI API error: " ++ msg).
Proof.
  intro Hk. rewrite try_catch_run, bind_run. unfold call.
  destruct (openai W req) as [r | e0].
  - specialize (Hk r). unfold pure in Hk.
    destruct (k r) as [t [a | e1]]; cbn in *; subst t; cbn.
    + eexists. split; [reflexivity | discriminate].
    + eexists. split; [reflexivity |]. intros e H. injection H as <-. now eexists.
  - cbn. eexists. split; [reflexivity |]. intros e H. injection H as <-.
    now eexists.
Qed.

Lemma Index_validated_tool (name : string) (sch : Zod.schema)
      (args : value) (k : value -> M ToolResult) :
  (forall v, exists req o,
      k v = ([Called req], o)
      /\ forall e, o = Throw e ->
           exists msg, e = McpError InternalError ("OpenAI API error: " ++ msg)) ->
  forall e,
    outcome (try_catch (v <- zparse sch args ;; k v) Index.on_error) = Throw e ->
    Index_failure name
      (trace (try_catch (v <- zparse sch args ;; k v) Index.on_error)) e.
Proof.
  intros Hk e. unfold zparse.
  destruct (Zod.parse sch [] args) as [v | issues].
  - rewrite bind_ret. destruct (Hk v) as (req & o & -> & Ho).
    destruct o as [a | e1]; cbn; [discriminate |].
    destruct (Ho e1 eq_refl) as [msg ->]. cbn. intro H. injection H as <-.
    now apply internal_error with (req := req).
  - cbn. intro H. injection H as <-. now apply invalid_params.
Qed.

(** X8: every failure of the handler of src/index.ts is an McpError.
    Its code is MethodNotFound for a tool outside the registry and
    InvalidParams when the schema rejects the arguments, both before
    anything is called; after the call of the client, any failure (of
    the call or of reading the response) has the code InternalError and
    a message that starts with "OpenAI API error: ". *)
Theorem X8_index_failures (W : Platform) (name : string) (args : value) (e : exn) :
  outcome (Index.handler W name args) = Throw e ->
  Index_failure name (trace (Index.handler W name args)) e.
Proof.
  unfold Index.handler, Index.dispatch.
  repeat match goal with
         | |- context [if String.eqb name ?s then _ else _] =>
             destruct (String.eqb name s)
         end.
  - apply Index_validated_tool. intro v.
    match goal with
    | |- exists req o, try_catch (bind (call W ?r) ?k) _ = _ /\ _ =>
        destruct (guarded_call_run W r k) as (o & Ho & He); [intro; pure_steps |]
    end.
    eexists. exists o. split; [exact Ho | exact He].
  - apply Index_validated_tool. intro v.
    match goal with
    | |- exists req o, try_catch (bind (call W ?r) ?k) _ = _ /\ _ =>
        destruct (guarded_call_run W r k) as (o & Ho & He); [intro; pure_steps |]
    end.
    eexists. exists o. split; [exact Ho | exact He].
  - match goal with
    | |- context [try_catch (try_catch (bind (call W ?r) ?k) _) _] =>
        destruct (guarded_call_run W r k) as (o & Ho & He)
    end.
    { intro r. apply pure_bind; [apply pure_prop | intros [[| | | | items |] |]];
        pure_steps. }
    rewrite Ho. destruct o as [a | e1]; cbn; [discriminate |].
    destruct (He e1 eq_refl) as [msg ->]. cbn. intro H. injection H as <-.
    now apply internal_error with (req := models_list).
  - apply Index_validated_tool. intro v.
    match goal with
    | |- exists req o, try_catch (bind (call W ?r) ?k) _ = _ /\ _ =>
        destruct (guarded_call_run W r k) as (o & Ho & He); [intro; pure_steps |]
    end.
    eexists. exists o. split; [exact Ho | exact He].
  - cbn. intro H. injection H as <-. now apply unknown_tool.
Qed.

Lemma X8_index_failures_witness :
  Index_failure "chat_completion"
    [Called (chat_completions_create
       (Some (JObj [("model", JStr "gpt-4o");
                    ("messages",
                      JArr [JObj [("role", JStr "user"); ("content", JStr "hi")]]);
                    ("temperature", JNum (7 # 10))])))]
    (McpError InternalError
       "OpenAI API error: Cannot read properties of undefined (reading '0')").
Proof.
  exact (X8_index_failures quiet_platform "chat_completion" hello_args _ eq_refl).
Defined.

(** ** The prompt of the image tools *)

Lemma prompt_parse (prompt : string) :
  Zod.parse (Zod.ZString (Some 4000%nat)) [Zod.Key "prompt"] (Some (JStr prompt))
  = if (4000 <? String.length prompt)%nat
    then Zod.Err [prompt_too_long]
    else Zod.Ok (Some (JStr prompt)).
Proof. reflexivity. Qed.

(** X9: the prompt of generate_image and of edit_image holds at most
    4000 characters. A valid argument object stays valid with any
    prompt of up to 4000 characters; a longer prompt is rejected before
    anything is called, with a message that names the field and the
    limit. *)
Theorem X9_prompt_length (W : Platform) (tool : string) (sch : Zod.schema) :
  (tool, sch) = ("generate_image", Server.GenerateImageSchema)
  \/ (tool, sch) = ("edit_image", Server.EditImageSchema) ->
  (forall fields prompt,
      accepts sch (args_of fields) ->
      (String.length prompt <= 4000)%nat ->
      accepts sch (args_of (("prompt", JStr prompt) :: fields)))
  /\ (forall fields prompt,
         lookup "prompt" fields = Some (JStr prompt) ->
         (4000 < String.length prompt)%nat ->
         rejects_naming (Server.handler W tool) (args_of fields)
           "prompt: String must contain at most 4000 character(s)").
Proof.
  intros Htool. split.
  - intros fields prompt Hok Hlen.
    assert (Hp : Zod.parse (Zod.ZString (Some 4000%nat)) [Zod.Key "prompt"]
                           (Some (JStr prompt)) = Zod.Ok (Some (JStr prompt))).
    { rewrite prompt_parse. apply Nat.ltb_ge in Hlen. now rewrite Hlen. }
    destruct Htool as [E | E]; injection E as -> ->;
      (apply accepts_set; [| exact Hok]);
      intros s Hs; field_cases Hs; eexists; exact Hp.
  - intros fields prompt Hk Hlen.
    assert (Hp : Zod.parse (Zod.ZString (Some 4000%nat)) [Zod.Key "prompt"]
                           (lookup "prompt" fields) = Zod.Err [prompt_too_long]).
    { rewrite Hk, prompt_parse. apply Nat.ltb_lt in Hlen. now rewrite Hlen. }
    assert (R : exists all,
               Zod.parse sch [] (args_of fields) = Zod.Err all
               /\ In prompt_too_long all).
    { destruct Htool as [E | E]; injection E as -> ->;
        apply (object_rejects _ fields "prompt" _ _ _)
          with (2 := Hp) (3 := or_introl eq_refl); in_shape. }
    destruct R as (all & Hall & Hin).
    exists (Error ("Invalid input parameters: " ++ Zod.format_issues all)). split.
    + apply (Server_handler_invalid W tool sch); [| exact Hall].
      destruct Htool as [E | E]; injection E as -> ->; in_shape.
    + exact (format_issues_includes _ all prompt_too_long Hin).
Qed.

Lemma repeat_char_length (c : ascii) (n : nat) :
  String.length (repeat_char c n) = n.
Proof. induction n as [| n IH]; cbn; [reflexivity | now rewrite IH]. Qed.

Lemma X9_prompt_length_witness :
  rejects_naming (Server.handler quiet_platform "generate_image")
    (args_of [("prompt", JStr (repeat_char "a" 5000))])
    "prompt: String must contain at most 4000 character(s)".
Proof.
  refine (proj2 (X9_prompt_length quiet_platform "generate_image"
                   Server.GenerateImageSchema (or_introl eq_refl))
                [("prompt", JStr (repeat_char "a" 5000))]
                (repeat_char "a" 5000) eq_refl _).
  rewrite repeat_char_length. lia.
Defined.

(** ** The image tools, end to end *)

Lemma trace_call_then_ret (W : Platform) (req : api_request) :
  trace (try_catch (image <- call W req ;; ret (Server.text_of W image))
                   Server.on_error)
  = [Called req].
Proof.
  rewrite try_catch_run, bind_run. unfold call.
  destruct (openai W req) as [r | e]; [reflexivity |].
  destruct e; reflexivity.
Qed.

Lemma dataURL_truthy (b : Buffer.t) :
  truthy (Some (JStr (Utils.bufferToDataURL b))) = true.
Proof. reflexivity. Qed.

Lemma Server_decodes_dataURL (W : Platform) (b : Buffer.t) :
  Buffer.well_formed b ->
  Server.imageToBuffer_of W (Some (JStr (Utils.bufferToDataURL b)))
  = ret b.
Proof.
  intro WF. cbn [Server.imageToBuffer_of]. unfold ret.
  change (Utils.bufferToDataURL b)
    with ("data:image/png;base64," ++ Buffer.toString_base64 b).
  now apply Server_imageToBuffer_roundtrip.
Qed.

(** X10: the image tools send the decoded bytes. For an image (and a
    mask) given as the PNG data URL of a buffer and a prompt of at most
    4000 characters, edit_image makes one call, to the image-edit API,
    with the bytes of the image as the file image.png, the bytes of the
    mask, when there is one, as mask.png, and the defaults dall-e-2,
    n = 1, 1024x1024 and url; create_image_variation does the same with
    the image alone. *)
Theorem X10_image_tools_send_decoded_bytes
        (W : Platform) (image : Buffer.t) (mask : option Buffer.t)
        (prompt : string) :
  Buffer.well_formed image ->
  match mask with Some m => Buffer.well_formed m | None => True end ->
  (String.length prompt <= 4000)%nat ->
  trace (Server.handler W "edit_image" (edit_args image mask prompt))
  = [Called (edit_request image mask prompt)]
  /\ trace (Server.handler W "create_image_variation"
              (args_of [("image", JStr (Utils.bufferToDataURL image))]))
     = [Called (variation_request image)].
Proof.
  intros WFi WFm Hlen. apply Nat.ltb_ge in Hlen. split.
  - assert (Hp : Zod.parse Server.EditImageSchema [] (edit_args image mask prompt)
                 = Zod.Ok (Some (object
                     [ ("image", Some (JStr (Utils.bufferToDataURL image)));
                       ("mask", option_map
                                  (fun m => JStr (Utils.bufferToDataURL m)) mask);
                       ("prompt", Some (JStr prompt));
                       ("model", Some (JStr "dall-e-2"));
                       ("n", Some (JNum 1));
                       ("size", Some (JStr "1024x1024"));
                       ("response_format", Some (JStr "url")) ]))).
    { unfold edit_args, Server.EditImageSchema. destruct mask as [m |];
        cbn -[Utils.bufferToDataURL Nat.ltb String.length]; rewrite Hlen;
        reflexivity. }
    unfold Server.handler, Server.dispatch, zparse.
    cbn [String.eqb Ascii.eqb Bool.eqb]. rewrite Hp, bind_ret.
    destruct mask as [m |];
      cbn [get object defined_props option_map lookup String.eqb Ascii.eqb Bool.eqb].
    + rewrite (Server_decodes_dataURL W image WFi), bind_ret.
      rewrite dataURL_truthy, (Server_decodes_dataURL W m WFm), !bind_ret.
      apply trace_call_then_ret.
    + rewrite (Server_decodes_dataURL W image WFi), bind_ret.
      cbn [truthy]. rewrite bind_ret. apply trace_call_then_ret.
  - unfold Server.handler, Server.dispatch, zparse.
    cbn [String.eqb Ascii.eqb Bool.eqb].
    assert (Hp : Zod.parse Server.CreateImageVariationSchema []
                   (args_of [("image", JStr (Utils.bufferToDataURL image))])
                 = Zod.Ok (Some (JObj
                     [ ("image", JStr (Utils.bufferToDataURL image));
                       ("model", JStr "dall-e-2");
                       ("n", JNum 1);
                       ("response_format", JStr "url");
                       ("size", JStr "1024x1024") ]))) by reflexivity.
    rewrite Hp, bind_ret.
    cbn [get lookup String.eqb Ascii.eqb Bool.eqb].
    rewrite (Server_decodes_dataURL W image WFi), bind_ret.
    apply trace_call_then_ret.
Qed.

Lemma X10_image_tools_witness :
  trace (Server.handler quiet_platform "edit_image"
           (edit_args [0x89; 0x50]%N (Some [0xff]%N) "add a hat"))
  = [Called (edit_request [0x89; 0x50]%N (Some [0xff]%N) "add a hat")].
Proof.
  refine (proj1 (X10_image_tools_send_decoded_bytes quiet_platform
                   [0x89; 0x50]%N (Some [0xff]%N) "add a hat" _ _ _)).
  - repeat constructor.
  - repeat constructor.
  - cbn. lia.
Defined.

(** X11: an image given as a URL is fetched, once, before the image API
    is called. For create_image_variation with an image that starts
    with http:// or https://: when the fetch succeeds with an ok
    response, its body is sent as image.png; when the response is not
    ok, the handler throws "Failed to fetch image from URL: " followed
    by the status text and the image API is not called; when the fetch
    itself fails, its error goes through the handler's catch block and
    the image API is not called either. *)
Theorem X11_image_url_is_fetched (W : Platform) (url : string) :
  JS.startsWith url "http://" = true \/ JS.startsWith url "https://" = true ->
  match fetch W url with
  | Return response =>
      if ok response
      then trace (Server.handler W "create_image_variation"
                    (args_of [("image", JStr url)]))
           = [Fetched url; Called (variation_request (arrayBuffer response))]
      else Server.handler W "create_image_variation"
             (args_of [("image", JStr url)])
           = ([Fetched url],
              Throw (Error ("Failed to fetch image from URL: "
                            ++ statusText response)))
  | Throw e =>
      Server.handler W "create_image_variation" (args_of [("image", JStr url)])
      = ([Fetched url], outcome (Server.on_error e))
  end.
Proof.
  intro Hurl.
  assert (Hor : JS.startsWith url "http://" || JS.startsWith url "https://" = true).
  { destruct Hurl as [-> | ->]; [reflexivity | apply orb_true_r]. }
  assert (Hp : Zod.parse Server.CreateImageVariationSchema []
                 (args_of [("image", JStr url)])
               = Zod.Ok (Some (JObj
                   [ ("image", JStr url);
                     ("model", JStr "dall-e-2");
                     ("n", JNum 1);
                     ("response_format", JStr "url");
                     ("size", JStr "1024x1024") ]))) by reflexivity.
  unfold Server.handler, Server.dispatch, zparse.
  cbn [String.eqb Ascii.eqb Bool.eqb]. rewrite Hp, bind_ret.
  cbn [get lookup String.eqb Ascii.eqb Bool.eqb Server.imageToBuffer_of].
  unfold Server.imageToBuffer. rewrite Hor. unfold do_fetch.
  destruct (fetch W url) as [response | e].
  - destruct (ok response) eqn:Hok;
      unfold bind, try_catch, throw_if, ret, throw, call; rewrite Hok; cbn.
    + unfold trace.
      match goal with
      | |- context [openai W ?r] => destruct (openai W r) as [r' | e]
      end; cbn; [reflexivity |].
      destruct e; reflexivity.
    + reflexivity.
  - unfold bind, try_catch. cbn. destruct e; reflexivity.
Qed.

Lemma X11_image_url_witness :
  Server.handler quiet_platform "create_image_variation"
    (args_of [("image", JStr "https://example.com/cat.png")])
  = ([Fetched "https://example.com/cat.png"], Throw (TypeError "fetch failed")).
Proof.
  exact (X11_image_url_is_fetched quiet_platform "https://example.com/cat.png"
           (or_intror eq_refl)).
Defined.

(** ** The image decoder of the utilities *)

(** X12: the failures of [imageToBuffer] of the utilities. The network
    is used exactly for the inputs that start with http:// or https://,
    with one fetch of the input itself. A failure is always an Error:
    "Error fetching image from URL: ..." for such an input, and for a
    data URL either "Invalid data URL format" or "Unsupported image
    format: <format>. Only PNG is supported." with a format other than
    png. *)
Theorem X12_utils_decoder_failures (W : Platform) (s : string) :
  trace (Utils.imageToBuffer W s) = (if is_url s then [Fetched s] else [])
  /\ forall e, outcome (Utils.imageToBuffer W s) = Throw e -> decode_failure s e.
Proof.
  unfold Utils.imageToBuffer. fold (is_url s).
  destruct (is_url s) eqn:U.
  - unfold do_fetch, bind, try_catch, throw_if, ret, throw.
    destruct (fetch W s) as [response | e0].
    + destruct (ok response); cbn; (split; [reflexivity |]).
      * discriminate.
      * intros e H. injection H as <-. now apply fetch_failed.
    + cbn. split; [reflexivity |].
      intros e H. injection H as <-. now apply fetch_failed.
  - destruct (JS.startsWith s "data:image") eqn:D.
    + destruct (Utils.match_data_url s) as [[format base64Data] |].
      * destruct (String.eqb format "png") eqn:F; cbn; (split; [reflexivity |]).
        -- discriminate.
        -- intros e H. injection H as <-. apply not_png; auto.
           now apply String.eqb_neq.
      * cbn. split; [reflexivity |].
        intros e H. injection H as <-. now apply bad_data_url.
    + cbn. split; [reflexivity | discriminate].
Qed.

Lemma X12_utils_decoder_failures_witness :
  decode_failure "data:image/gif;base64,R0lGODlh"
    (Error "Unsupported image format: gif. Only PNG is supported.").
Proof.
  exact (proj2 (X12_utils_decoder_failures quiet_platform
                  "data:image/gif;base64,R0lGODlh") _ eq_refl).
Defined.

Lemma span_format (format rest : string) :
  JS.all_chars Utils.is_format_char format = true ->
  JS.span Utils.is_format_char (format ++ String ";" rest)
  = (format, String ";" rest).
Proof.
  induction format as [| c r IH]; cbn [append JS.span JS.all_chars].
  - reflexivity.
  - intro H. apply andb_prop in H. destruct H as [-> Hr]. now rewrite (IH Hr).
Qed.

Lemma strip_prefix_append (p s : string) : JS.strip_prefix p (p ++ s) = Some s.
Proof.
  induction p as [| c r IH]; cbn; [now destruct s |].
  now rewrite Ascii.eqb_refl.
Qed.

(** X13: the subtype of a data URL decides. For a data URL
    data:image/<format>;base64,<payload> whose format is made of
    letters and "+" and whose payload is not empty and holds no line
    terminator, [imageToBuffer] of the utilities decodes the payload as
    base64 when the format is png, and throws the error that names the
    format otherwise. *)
Theorem X13_data_url_subtype (W : Platform) (format payload : string) :
  format <> EmptyString ->
  JS.all_chars Utils.is_format_char format = true ->
  payload <> EmptyString ->
  JS.all_chars (fun c => negb (JS.is_line_terminator c)) payload = true ->
  Utils.imageToBuffer W ("data:image/" ++ format ++ ";base64," ++ payload)
  = if String.eqb format "png"
    then ([], Return (Buffer.from_base64 payload))
    else ([], Throw (Error ("Unsupported image format: " ++ format
                            ++ ". Only PNG is supported."))).
Proof.
  intros Hf Hfc Hp Hpc.
  assert (M : Utils.match_data_url ("data:image/" ++ format ++ ";base64," ++ payload)
              = Some (format, payload)).
  { unfold Utils.match_data_url.
    rewrite (strip_prefix_append "data:image/").
    change (";base64," ++ payload) with (String ";" ("base64," ++ payload)).
    rewrite (span_format format _ Hfc).
    change (String ";" ("base64," ++ payload)) with (";base64," ++ payload).
    rewrite (strip_prefix_append ";base64,"), Hpc.
    destruct format; [congruence |]. destruct payload; [congruence |].
    reflexivity. }
  unfold Utils.imageToBuffer.
  change (JS.startsWith ("data:image/" ++ format ++ ";base64," ++ payload) "http://")
    with false.
  change (JS.startsWith ("data:image/" ++ format ++ ";base64," ++ payload) "https://")
    with false.
  change (JS.startsWith ("data:image/" ++ format ++ ";base64," ++ payload)
                        "data:image")
    with true.
  cbn [orb]. rewrite M.
  destruct (String.eqb format "png"); reflexivity.
Qed.

Lemma X13_data_url_subtype_witness :
  Utils.imageToBuffer quiet_platform ("data:image/" ++ "svg+xml" ++ ";base64," ++ "PHN2Zz4=")
  = ([], Throw (Error "Unsupported image format: svg+xml. Only PNG is supported.")).
Proof.
  apply (X13_data_url_subtype quiet_platform "svg+xml" "PHN2Zz4=");
    [discriminate | reflexivity | discriminate | reflexivity].
Defined.

Lemma b64_char_class (i : N) : (i < 64)%N -> Utils.is_base64_char (Buffer.b64_char i) = true.
Proof. apply (forall_below b64_char_in_class 64). vm_compute. reflexivity. Qed.

Lemma span_all (p : ascii -> bool) (body rest : string) :
  JS.all_chars p body = true ->
  (rest = EmptyString \/ exists c r, rest = String c r /\ p c = false) ->
  JS.span p (body ++ rest) = (body, rest).
Proof.
  intros Hb Hr. induction body as [| c r IH]; cbn [append JS.span].
  - destruct Hr as [-> | (c & r & -> & Hc)]; [reflexivity |].
    cbn [JS.span]. now rewrite Hc.
  - cbn [JS.all_chars] in Hb. apply andb_prop in Hb. destruct Hb as [-> Hb].
    now rewrite (IH Hb).
Qed.

(** The encoding of a buffer is a run of characters of the alphabet
    followed by at most two [=]. *)
Lemma toString_shape (b : Buffer.t) :
  Buffer.well_formed b ->
  exists body,
    JS.all_chars Utils.is_base64_char body = true
    /\ (b <> [] -> body <> EmptyString)
    /\ exists padding,
         (padding = EmptyString \/ padding = "=" \/ padding = "==")
         /\ Buffer.toString_base64 b = body ++ padding.
Proof.
  unfold Buffer.well_formed.
  induction b as [| x | x y | x y z rest IH] using Base64Facts.list_ind3; intro WF.
  - exists EmptyString. repeat split; [congruence |].
    exists EmptyString. split; [now left | reflexivity].
  - inversion WF as [| ? ? Hx _]; subst.
    destruct (Base64Facts.decode_one x Hx) as (E0 & B0 & B1).
    exists (String (Buffer.b64_char (Base64Groups.s0 x))
              (String (Buffer.b64_char (Base64Groups.s1_last x)) EmptyString)).
    cbn [JS.all_chars]. rewrite !b64_char_class by assumption.
    repeat split; [discriminate |].
    exists "==". split; [now right; right | reflexivity].
  - inversion WF as [| ? ? Hx WF1]; subst.
    inversion WF1 as [| ? ? Hy _]; subst.
    destruct (Base64Facts.decode_two x y Hx Hy) as (E0 & E1 & B0 & B1 & B2).
    exists (String (Buffer.b64_char (Base64Groups.s0 x))
              (String (Buffer.b64_char (Base64Groups.s1 x y))
                 (String (Buffer.b64_char (Base64Groups.s2_last y)) EmptyString))).
    cbn [JS.all_chars]. rewrite !b64_char_class by assumption.
    repeat split; [discriminate |].
    exists "=". split; [now right; left | reflexivity].
  - inversion WF as [| ? ? Hx WF1]; subst.
    inversion WF1 as [| ? ? Hy WF2]; subst.
    inversion WF2 as [| ? ? Hz WF3]; subst.
    destruct (Base64Facts.decode_group x y z Hx Hy Hz)
      as (E0 & E1 & E2 & B0 & B1 & B2 & B3).
    destruct (IH WF3) as (body & Hbody & _ & padding & Hpad & Heq).
    exists (String (Buffer.b64_char (Base64Groups.s0 x))
              (String (Buffer.b64_char (Base64Groups.s1 x y))
                 (String (Buffer.b64_char (Base64Groups.s2 y z))
                    (String (Buffer.b64_char (Base64Groups.s3 z)) body)))).
    cbn [JS.all_chars]. rewrite !b64_char_class by assumption.
    repeat split; [assumption | discriminate |].
    exists padding. split; [assumption |].
    rewrite Base64Facts.toString_three, Heq. reflexivity.
Qed.

Lemma toString_matches (b : Buffer.t) :
  b <> [] -> Buffer.well_formed b ->
  Utils.matches_base64 (Buffer.toString_base64 b) = true.
Proof.
  intros Hne WF.
  destruct (toString_shape b WF) as (body & Hbody & Hnon & padding & Hpad & ->).
  unfold Utils.matches_base64. rewrite (span_all Utils.is_base64_char body padding Hbody).
  - destruct body; [now destruct (Hnon Hne) |].
    destruct Hpad as [-> | [-> | ->]]; reflexivity.
  - destruct Hpad as [-> | [-> | ->]]; [now left | right | right];
      eexists; eexists; (split; [reflexivity | reflexivity]).
Qed.

(** A prefix of a string whose characters all satisfy [p] does so too. *)
Lemma prefix_all_chars (p : ascii -> bool) (a s : string) :
  String.prefix a s = true -> JS.all_chars p s = true -> JS.all_chars p a = true.
Proof.
  revert s. induction a as [| c r IH]; intros s Hp Hs; [reflexivity |].
  destruct s as [| d t]; [discriminate |].
  cbn [String.prefix] in Hp.
  destruct (ascii_dec c d) as [-> | ]; [| discriminate].
  cbn [JS.all_chars] in *. apply andb_prop in Hs. destruct Hs as [-> Hs].
  now apply (IH t).
Qed.

Lemma all_chars_append (p : ascii -> bool) (a b : string) :
  JS.all_chars p (a ++ b) = JS.all_chars p a && JS.all_chars p b.
Proof.
  induction a as [| c r IH]; cbn [append JS.all_chars]; [reflexivity |].
  now rewrite IH, andb_assoc.
Qed.

Lemma toString_in_encoding (b : Buffer.t) :
  Buffer.well_formed b ->
  JS.all_chars in_encoding (Buffer.toString_base64 b) = true.
Proof.
  intro WF.
  destruct (toString_shape b WF) as (body & Hbody & _ & padding & Hpad & ->).
  rewrite all_chars_append. apply andb_true_intro. split.
  - apply (all_chars_weaken Utils.is_base64_char); [| assumption].
    intros c H. unfold in_encoding. now rewrite H.
  - destruct Hpad as [-> | [-> | ->]]; reflexivity.
Qed.

(** The encoding of a buffer starts neither like a URL nor like a data
    URL: it holds no colon. *)
Lemma toString_not_url (b : Buffer.t) (p : string) :
  Buffer.well_formed b ->
  JS.all_chars in_encoding p = false ->
  JS.startsWith (Buffer.toString_base64 b) p = false.
Proof.
  intros WF Hp. unfold JS.startsWith.
  destruct (String.prefix p (Buffer.toString_base64 b)) eqn:E; [| reflexivity].
  rewrite (prefix_all_chars in_encoding p _ E (toString_in_encoding b WF)) in Hp.
  discriminate.
Qed.

(** X14: the base64 text of a buffer, without a data URL around it. For
    a non-empty buffer [bytes], the text [bytes.toString("base64")] and
    the data URL of [bufferToDataURL] are both accepted by
    [ImageFormatSchema], and both decoders, the one of the utilities and
    the one of the handler, take the raw text for base64 and give
    [bytes] back without any network access. *)
Theorem X14_raw_base64_roundtrip (W : Platform) (bytes : Buffer.t) :
  bytes <> [] ->
  Buffer.well_formed bytes ->
  Utils.ImageFormatSchema_accepts (Some (JStr (Buffer.toString_base64 bytes))) = true
  /\ Utils.ImageFormatSchema_accepts (Some (JStr (Utils.bufferToDataURL bytes))) = true
  /\ Utils.imageToBuffer W (Buffer.toString_base64 bytes) = ([], Return bytes)
  /\ Server.imageToBuffer W (Buffer.toString_base64 bytes) = ([], Return bytes).
Proof.
  intros Hne WF.
  pose proof (toString_not_url bytes "http://" WF eq_refl) as H1.
  pose proof (toString_not_url bytes "https://" WF eq_refl) as H2.
  pose proof (toString_not_url bytes "data:image" WF eq_refl) as H3.
  repeat match goal with |- _ /\ _ => split end.
  - unfold Utils.ImageFormatSchema_accepts.
    rewrite (toString_matches bytes Hne WF). now rewrite !orb_true_r.
  - unfold Utils.ImageFormatSchema_accepts, Utils.bufferToDataURL,
      Utils.bufferToDataURL_with, JS.startsWith.
    change ("data:" ++ "image/png" ++ ";base64," ++ Buffer.toString_base64 bytes)
      with ("data:image/png;base64," ++ Buffer.toString_base64 bytes).
    rewrite (prefix_append "data:image/png;base64,").
    now rewrite orb_true_r.
  - unfold Utils.imageToBuffer. rewrite H1, H2, H3. cbn.
    now rewrite Base64Facts.from_base64_toString.
  - unfold Server.imageToBuffer. rewrite H1, H2, H3. cbn.
    unfold ret. now rewrite Base64Facts.from_base64_toString.
Qed.

Lemma X14_raw_base64_roundtrip_witness :
  Utils.imageToBuffer quiet_platform (Buffer.toString_base64 [0x89; 0x50; 0x4e; 0x47])
  = ([], Return [0x89; 0x50; 0x4e; 0x47]).
Proof.
  refine (proj1 (proj2 (proj2
            (X14_raw_base64_roundtrip quiet_platform [0x89; 0x50; 0x4e; 0x47] _ _)))).
  - discriminate.
  - repeat constructor.
Defined.

Lemma collapse_single_spaced (b : bool) (s : string) :
  single_spaced b (Utils.collapse b s) = true.
Proof.
  revert b. induction s as [| c r IH]; intro b; [reflexivity |].
  cbn [Utils.collapse]. destruct (Utils.is_space c) eqn:E.
  - destruct b; [apply IH |].
    cbn [single_spaced]. change (Utils.is_space " ") with true.
    cbn. apply IH.
  - cbn [single_spaced]. rewrite E. apply IH.
Qed.

Lemma trimStart_no_space (s : string) :
  starts_with_space (Utils.trimStart s) = false.
Proof.
  induction s as [| c r IH]; [reflexivity |].
  cbn [Utils.trimStart]. destruct (Utils.is_space c) eqn:E; [exact IH |].
  cbn. exact E.
Qed.

Lemma trimEnd_no_space (s : string) :
  starts_with_space s = false -> starts_with_space (Utils.trimEnd s) = false.
Proof.
  destruct s as [| c r]; [reflexivity |]. cbn [starts_with_space Utils.trimEnd].
  intro H. rewrite H. cbn. exact H.
Qed.

Lemma collapse_start (b : bool) (s : string) :
  starts_with_space s = false ->
  Utils.collapse b s = Utils.collapse true s.
Proof.
  destruct s as [| c r]; [reflexivity |]. cbn [starts_with_space Utils.collapse].
  now intros ->.
Qed.

Lemma substring0_single_spaced (b : bool) (k : nat) (s : string) :
  single_spaced b s = true -> single_spaced b (String.substring 0 k s) = true.
Proof.
  revert b s. induction k as [| k IH]; intros b s H.
  - destruct s; reflexivity.
  - destruct s as [| c r]; [reflexivity |].
    cbn [String.substring single_spaced] in *.
    destruct (Utils.is_space c).
    + apply andb_prop in H. destruct H as [-> H]. now apply IH.
    + now apply IH.
Qed.

Lemma substring0_length (k : nat) (s : string) :
  (String.length (String.substring 0 k s) <= k)%nat.
Proof.
  revert s. induction k as [| k IH]; intro s.
  - destruct s; cbn; lia.
  - destruct s as [| c r]; cbn; [lia |]. specialize (IH r). lia.
Qed.

Lemma substring0_exact (k : nat) (s : string) :
  (k <= String.length s)%nat -> String.length (String.substring 0 k s) = k.
Proof.
  revert s. induction k as [| k IH]; intros s H.
  - destruct s; reflexivity.
  - destruct s as [| c r]; cbn in *; [lia |]. rewrite IH; lia.
Qed.

Lemma substring0_prefix (k : nat) (s : string) :
  String.prefix (String.substring 0 k s) s = true.
Proof.
  revert s. induction k as [| k IH]; intro s.
  - destruct s; reflexivity.
  - destruct s as [| c r]; [reflexivity |]. cbn.
    destruct (ascii_dec c c); [apply IH | congruence].
Qed.

Lemma single_spaced_collapse (b : bool) (s : string) :
  single_spaced b s = true -> Utils.collapse b s = s.
Proof.
  revert b. induction s as [| c r IH]; intros b H; [reflexivity |].
  cbn [single_spaced Utils.collapse] in *.
  destruct (Utils.is_space c).
  - apply andb_prop in H. destruct H as [H Hr].
    apply andb_prop in H. destruct H as [Hc Hb].
    apply Ascii.eqb_eq in Hc. subst c.
    destruct b; [discriminate |]. f_equal. exact (IH true Hr).
  - f_equal. exact (IH false H).
Qed.

Lemma single_spaced_start (s : string) :
  single_spaced true s = true -> starts_with_space s = false.
Proof.
  destruct s as [| c r]; [reflexivity |]. cbn.
  destruct (Utils.is_space c); [| reflexivity].
  rewrite andb_false_r. discriminate.
Qed.

Lemma trimStart_id (s : string) :
  starts_with_space s = false -> Utils.trimStart s = s.
Proof. destruct s as [| c r]; [reflexivity |]. cbn. now intros ->. Qed.

(** X15: what [sanitizePrompt] returns. For every prompt and every
    [maxLength] that is not negative, the result has at most [maxLength]
    characters, its only white space are single spaces, none of them at
    the start; and a prompt that is already of that form, does not end
    with white space and is short enough is returned as it is. *)
Theorem X15_sanitizePrompt_shape (prompt : string) (maxLength : Z) :
  (0 <= maxLength)%Z ->
  (Z.of_nat (String.length (Utils.sanitizePrompt_with prompt maxLength))
   <= maxLength)%Z
  /\ single_spaced true (Utils.sanitizePrompt_with prompt maxLength) = true
  /\ (single_spaced true prompt = true ->
      Utils.trimEnd prompt = prompt ->
      (Z.of_nat (String.length prompt) <= maxLength)%Z ->
      Utils.sanitizePrompt_with prompt maxLength = prompt).
Proof.
  intro Hm. unfold Utils.sanitizePrompt_with.
  assert (S : single_spaced true (Utils.collapse false (Utils.trim prompt))
              = true).
  { rewrite collapse_start.
    - apply collapse_single_spaced.
    - apply trimEnd_no_space, trimStart_no_space. }
  repeat match goal with |- _ /\ _ => split end.
  - destruct (Z.gtb_spec
                (Z.of_nat (String.length
                             (Utils.collapse false (Utils.trim prompt))))
                maxLength) as [H | H]; [| exact H].
    unfold Utils.substring0.
    pose proof (substring0_length (Z.to_nat maxLength)
                  (Utils.collapse false (Utils.trim prompt))).
    lia.
  - destruct (_ >? _)%Z; [| exact S].
    now apply substring0_single_spaced.
  - intros Hs He Hl. unfold Utils.trim.
    rewrite (trimStart_id prompt (single_spaced_start prompt Hs)), He.
    rewrite (collapse_start false prompt (single_spaced_start prompt Hs)).
    rewrite (single_spaced_collapse true prompt Hs).
    destruct (Z.gtb_spec (Z.of_nat (String.length prompt)) maxLength); [lia |].
    reflexivity.
Qed.

Lemma X15_sanitizePrompt_shape_witness :
  Utils.sanitizePrompt_with "a cat on a mat" 4000 = "a cat on a mat".
Proof.
  refine (proj2 (proj2 (X15_sanitizePrompt_shape "a cat on a mat" 4000 _)) _ _ _).
  - lia.
  - reflexivity.
  - reflexivity.
  - cbn. lia.
Defined.

Lemma length_append (a b : string) :
  String.length (a ++ b) = (String.length a + String.length b)%nat.
Proof. induction a as [| c r IH]; cbn; [reflexivity | now rewrite IH]. Qed.

(** X16: the length of what [truncateText] returns. A text of at most
    [maxLength] characters is returned as it is. A longer one is cut:
    for [maxLength] of 3 or more the result has exactly [maxLength]
    characters, the first [maxLength - 3] of the text followed by
    "..."; for [maxLength] below 3 the result is "...", which is longer
    than [maxLength]. *)
Theorem X16_truncateText_length (text : string) (maxLength : Z) :
  ((Z.of_nat (String.length text) <= maxLength)%Z ->
   Utils.truncateText text maxLength = text)
  /\ ((maxLength < Z.of_nat (String.length text))%Z -> (3 <= maxLength)%Z ->
      exists kept,
        Utils.truncateText text maxLength = kept ++ "..."
        /\ JS.startsWith text kept = true
        /\ Z.of_nat (String.length kept) = (maxLength - 3)%Z
        /\ Z.of_nat (String.length (Utils.truncateText text maxLength))
           = maxLength)
  /\ ((maxLength < Z.of_nat (String.length text))%Z -> (maxLength < 3)%Z ->
      Utils.truncateText text maxLength = "...").
Proof.
  unfold Utils.truncateText, Utils.substring0.
  repeat match goal with |- _ /\ _ => split end.
  - intro H. destruct (Z.leb_spec (Z.of_nat (String.length text)) maxLength);
      [reflexivity | lia].
  - intros H H3.
    destruct (Z.leb_spec (Z.of_nat (String.length text)) maxLength); [lia |].
    exists (String.substring 0 (Z.to_nat (maxLength - 3)) text).
    assert (L : String.length (String.substring 0 (Z.to_nat (maxLength - 3)) text)
                = Z.to_nat (maxLength - 3)).
    { apply substring0_exact. lia. }
    repeat match goal with |- _ /\ _ => split end.
    + reflexivity.
    + apply substring0_prefix.
    + rewrite L. lia.
    + rewrite length_append, L. cbn. lia.
  - intros H H3.
    destruct (Z.leb_spec (Z.of_nat (String.length text)) maxLength); [lia |].
    replace (Z.to_nat (maxLength - 3)) with 0%nat by lia.
    destruct text; reflexivity.
Qed.

Lemma backoff_positive (attempt baseDelay : N) :
  0 < baseDelay ->
  Utils.exponentialBackoff_with attempt baseDelay
  = Some (N.min (baseDelay * 2 ^ attempt) 32000).
Proof.
  intro H. unfold Utils.exponentialBackoff_with.
  destruct (N.eqb_spec baseDelay 0) as [E |]; [lia |].
  now rewrite andb_false_r.
Qed.

(** X17: the retry delays, for an attempt that is a natural number and
    a base delay that is a positive integer. The delay is a number (not
    NaN) of at most 32000 ms and does not shrink from one attempt to the
    next: each is twice the one before, capped at 32000. With the
    default base of 1000 ms the delays are 1000, 2000, 4000, 8000,
    16000, and 32000 from the sixth attempt (number 5) on. With a base
    delay of 0 the delay is 0 up to attempt 1023 and NaN from attempt
    1024 on, where the power of two is infinite. *)
Theorem X17_exponentialBackoff_capped (attempt baseDelay : N) :
  (0 < baseDelay ->
   exists delay next,
     Utils.exponentialBackoff_with attempt baseDelay = Some delay
     /\ Utils.exponentialBackoff_with (attempt + 1) baseDelay = Some next
     /\ delay <= 32000
     /\ delay <= next
     /\ next = N.min (2 * delay) 32000)
  /\ (attempt <= 4 -> Utils.exponentialBackoff attempt = Some (1000 * 2 ^ attempt))
  /\ (5 <= attempt -> Utils.exponentialBackoff attempt = Some 32000)
  /\ Utils.exponentialBackoff_with attempt 0
     = if 1023 <? attempt then None else Some 0.
Proof.
  repeat match goal with |- _ /\ _ => split end.
  - intro H.
    exists (N.min (baseDelay * 2 ^ attempt) 32000),
           (N.min (baseDelay * 2 ^ (attempt + 1)) 32000).
    rewrite !backoff_positive by exact H.
    rewrite N.pow_add_r, N.pow_1_r.
    repeat match goal with |- _ /\ _ => split end; try reflexivity; lia.
  - intro H. unfold Utils.exponentialBackoff.
    rewrite backoff_positive by reflexivity. f_equal. apply N.min_l.
    assert (K : 2 ^ attempt <= 2 ^ 4) by (apply N.pow_le_mono_r; lia).
    change (2 ^ 4) with 16 in K. lia.
  - intro H. unfold Utils.exponentialBackoff.
    rewrite backoff_positive by reflexivity. f_equal. apply N.min_r.
    assert (K : 2 ^ 5 <= 2 ^ attempt) by (apply N.pow_le_mono_r; lia).
    change (2 ^ 5) with 32 in K. lia.
  - unfold Utils.exponentialBackoff_with. cbn [N.eqb]. rewrite andb_true_r.
    destruct (1023 <? attempt); [reflexivity |].
    rewrite N.mul_0_l. reflexivity.
Qed.

Lemma X17_exponentialBackoff_witness :
  exists delay next,
    Utils.exponentialBackoff_with 3 500 = Some delay
    /\ Utils.exponentialBackoff_with (3 + 1) 500 = Some next
    /\ delay <= 32000
    /\ delay <= next
    /\ next = N.min (2 * delay) 32000.
Proof.
  exact (proj1 (X17_exponentialBackoff_capped 3 500) eq_refl).
Defined.

Lemma X16_truncateText_length_witness :
  Utils.truncateText "hello" 2 = "...".
Proof.
  refine (proj2 (proj2 (X16_truncateText_length "hello" 2)) _ _); cbn; lia.
Defined.

Lemma strip_prefix_some (p s rest : string) :
  JS.strip_prefix p s = Some rest -> s = p ++ rest.
Proof.
  revert s. induction p as [| a p IH]; intros s H.
  - destruct s; cbn in H; now injection H as <-.
  - destruct s as [| b s]; cbn in H; [discriminate |].
    destruct (Ascii.eqb_spec a b) as [<- |]; [| discriminate].
    cbn. f_equal. now apply IH.
Qed.

Lemma fst_span_cons (p : ascii -> bool) (c : ascii) (r : string) :
  fst (JS.span p (String c r))
  = if p c then String c (fst (JS.span p r)) else EmptyString.
Proof. cbn. destruct (p c); [| reflexivity]. now destruct (JS.span p r). Qed.

Lemma redact_skip (k : nat) (s : string) :
  Utils.redact k s = Utils.redact 0 (drop k s).
Proof.
  revert k. induction s as [| c r IH]; intro k; [now destruct k |].
  destruct k as [| k]; [reflexivity |]. cbn [Utils.redact drop]. apply IH.
Qed.

Lemma drop_length (k : nat) (s : string) :
  (String.length (drop k s) <= String.length s)%nat.
Proof.
  revert s. induction k as [| k IH]; intro s; [cbn; lia |].
  destruct s as [| c r]; cbn; [lia |]. specialize (IH r). lia.
Qed.

Lemma key_at_some (s : string) (len : nat) :
  Utils.key_at s = Some len ->
  exists rest, s = "sk-" ++ rest
               /\ len = (3 + String.length (fst (JS.span Utils.is_alnum rest)))%nat
               /\ (20 <= String.length (fst (JS.span Utils.is_alnum rest)))%nat.
Proof.
  unfold Utils.key_at.
  destruct (JS.strip_prefix "sk-" s) as [rest |] eqn:E; [| discriminate].
  destruct (Nat.leb_spec 20 (String.length (fst (JS.span Utils.is_alnum rest))))
    as [L | L]; [| discriminate].
  intro K. injection K as <-. exists rest.
  repeat split; [now apply strip_prefix_some | exact L].
Qed.

Lemma key_at_sk (rest : string) :
  Utils.key_at ("sk-" ++ rest)
  = if (20 <=? String.length (fst (JS.span Utils.is_alnum rest)))%nat
    then Some (3 + String.length (fst (JS.span Utils.is_alnum rest)))%nat
    else None.
Proof. reflexivity. Qed.

Lemma key_at_other (c : ascii) (r : string) :
  c <> "s"%char -> Utils.key_at (String c r) = None.
Proof.
  intro H. unfold Utils.key_at. cbn [JS.strip_prefix].
  destruct (Ascii.eqb_spec "s" c) as [<- |]; [congruence | reflexivity].
Qed.

Lemma key_at_second (c d : ascii) (r : string) :
  d <> "k"%char -> Utils.key_at (String c (String d r)) = None.
Proof.
  intro H. unfold Utils.key_at. cbn [JS.strip_prefix].
  destruct (Ascii.eqb "s" c); [| reflexivity].
  destruct (Ascii.eqb_spec "k" d) as [<- |]; [congruence | reflexivity].
Qed.

Lemma key_at_third (c d e : ascii) (r : string) :
  e <> "-"%char -> Utils.key_at (String c (String d (String e r))) = None.
Proof.
  intro H. unfold Utils.key_at. cbn [JS.strip_prefix].
  destruct (Ascii.eqb "s" c); [| reflexivity].
  destruct (Ascii.eqb "k" d); [| reflexivity].
  destruct (Ascii.eqb_spec "-" e) as [<- |]; [congruence | reflexivity].
Qed.

(** The replacement holds no key, nor does it start one. *)
Lemma has_key_marker (s : string) :
  has_key ("sk-***REDACTED***" ++ s) = has_key s.
Proof. reflexivity. Qed.

Lemma redact_cons (c : ascii) (r : string) :
  Utils.redact 0 (String c r)
  = match Utils.key_at (String c r) with
    | Some len => "sk-***REDACTED***" ++ Utils.redact (len - 1) r
    | None => String c (Utils.redact 0 r)
    end.
Proof. reflexivity. Qed.

(** Redaction keeps the first character, or starts with the marker. *)
Lemma redact_head (c : ascii) (r : string) :
  Utils.redact 0 (String c r) = String c (Utils.redact 0 r)
  \/ exists rest, Utils.redact 0 (String c r) = String "s" rest.
Proof.
  rewrite redact_cons. destruct (Utils.key_at (String c r)); [right | now left].
  eexists. reflexivity.
Qed.

(** Redaction keeps the run of letters and digits a text starts with. *)
Lemma span_redact (s : string) :
  fst (JS.span Utils.is_alnum (Utils.redact 0 s))
  = fst (JS.span Utils.is_alnum s).
Proof.
  induction s as [| c r IH]; [reflexivity |].
  rewrite redact_cons. destruct (Utils.key_at (String c r)) as [len |] eqn:E.
  - destruct (key_at_some _ _ E) as (rest & -> & _ & _). reflexivity.
  - rewrite !fst_span_cons, IH. reflexivity.
Qed.

Lemma key_at_redact (c : ascii) (r : string) :
  Utils.key_at (String c r) = None ->
  Utils.key_at (String c (Utils.redact 0 r)) = None.
Proof.
  intro H.
  destruct (ascii_dec c "s") as [-> | Hc]; [| now apply key_at_other].
  destruct r as [| d r1]; [exact H |].
  destruct (ascii_dec d "k") as [-> | Hd].
  - rewrite redact_cons, (key_at_other "k") by discriminate.
    destruct r1 as [| e r2]; [exact H |].
    destruct (ascii_dec e "-") as [-> | He].
    + rewrite redact_cons, (key_at_other "-") by discriminate.
      change (Utils.key_at ("sk-" ++ Utils.redact 0 r2) = None).
      change (Utils.key_at ("sk-" ++ r2) = None) in H.
      rewrite key_at_sk in *. now rewrite span_redact.
    + destruct (redact_head e r2) as [-> | [rest ->]];
        now apply key_at_third.
  - destruct (redact_head d r1) as [-> | [rest ->]];
      now apply key_at_second.
Qed.

Lemma redact_no_key (n : nat) (s : string) :
  (String.length s <= n)%nat -> has_key (Utils.redact 0 s) = false.
Proof.
  revert s. induction n as [| n IH]; intros s H.
  - destruct s; [reflexivity | cbn in H; lia].
  - destruct s as [| c r]; [reflexivity |].
    rewrite redact_cons.
    destruct (Utils.key_at (String c r)) as [len |] eqn:E.
    + rewrite has_key_marker, redact_skip. apply IH.
      pose proof (drop_length (len - 1) r). cbn in H. lia.
    + cbn [has_key]. rewrite (key_at_redact c r E). apply IH. cbn in H. lia.
Qed.

Lemma redact_past_end (k : nat) (s : string) :
  (String.length s <= k)%nat -> Utils.redact k s = EmptyString.
Proof.
  revert k. induction s as [| c r IH]; intros k H; [now destruct k |].
  destruct k as [| k]; cbn in H; [lia |]. cbn [Utils.redact]. apply IH. lia.
Qed.

Lemma span_whole (p : ascii -> bool) (s : string) :
  JS.all_chars p s = true -> JS.span p s = (s, EmptyString).
Proof.
  intro H. rewrite <- (append_empty_r s) at 1. apply span_all; auto.
Qed.

Lemma valid_key_at (apiKey : string) :
  Utils.validateAPIKey apiKey = true ->
  exists rest, apiKey = "sk-" ++ rest
               /\ Utils.key_at apiKey = Some (3 + String.length rest)%nat.
Proof.
  unfold Utils.validateAPIKey, Utils.key_at.
  destruct (JS.strip_prefix "sk-" apiKey) as [rest |] eqn:E; [| discriminate].
  intro H. apply andb_prop in H. destruct H as [Ha Hl].
  exists rest. split; [now apply strip_prefix_some |].
  rewrite (span_whole _ _ Ha). cbn [fst]. now rewrite Hl.
Qed.

(** X18: redaction of API keys. A text that [validateAPIKey] accepts is
    redacted to "sk-***REDACTED***"; in every redacted text no key is
    left, so that [validateAPIKey] rejects it; and a text that holds no
    key is returned as it is, so that redacting twice is redacting
    once. *)
Theorem X18_redactAPIKey_leaves_no_key (text : string) :
  (Utils.validateAPIKey text = true ->
   Utils.redactAPIKey text = "sk-***REDACTED***")
  /\ has_key (Utils.redactAPIKey text) = false
  /\ Utils.validateAPIKey (Utils.redactAPIKey text) = false
  /\ (has_key text = false -> Utils.redactAPIKey text = text)
  /\ Utils.redactAPIKey (Utils.redactAPIKey text)
     = Utils.redactAPIKey text.
Proof.
  assert (None_id : forall s, has_key s = false -> Utils.redact 0 s = s).
  { induction s as [| c r IH]; [reflexivity |]. cbn [has_key]. rewrite redact_cons.
    destruct (Utils.key_at (String c r)); [discriminate |].
    intro H. now rewrite (IH H). }
  assert (No_key : has_key (Utils.redactAPIKey text) = false).
  { exact (redact_no_key (String.length text) text (le_n _)). }
  repeat match goal with |- _ /\ _ => split end.
  - intro H. destruct (valid_key_at text H) as (rest & -> & K).
    unfold Utils.redactAPIKey.
    change ("sk-" ++ rest) with (String "s" ("k-" ++ rest)) in *.
    rewrite redact_cons, K, redact_past_end; [reflexivity |].
    cbn. lia.
  - exact No_key.
  - destruct (Utils.validateAPIKey (Utils.redactAPIKey text)) eqn:V;
      [| reflexivity].
    destruct (valid_key_at _ V) as (rest & E & K).
    rewrite E in No_key, K. cbn [append has_key] in No_key.
    cbn [append] in K. rewrite K in No_key. discriminate.
  - apply None_id.
  - apply None_id. exact No_key.
Qed.

Lemma X18_redactAPIKey_witness :
  Utils.redactAPIKey "sk-abcdefghij0123456789" = "sk-***REDACTED***".
Proof.
  exact (proj1 (X18_redactAPIKey_leaves_no_key "sk-abcdefghij0123456789") eq_refl).
Defined.

Lemma size_field_parse (shape : list (string * Zod.schema))
      (sizes : list string) (d : json) (fields : list (string * json))
      (s : string) :
  NoDup (map fst shape) ->
  In ("size", Zod.ZDefault (Zod.ZOptional (Zod.ZEnum sizes)) d) shape ->
  lookup "size" fields = Some (JStr s) ->
  accepts (Zod.ZObject shape) (args_of fields) ->
  JS.array_includes sizes s = true.
Proof.
  intros ND Hin Hs [params Hp].
  destruct (parse_object_fields shape fields params ND Hp "size" _ Hin)
    as (v & Hv & _).
  rewrite Hs, parse_default_some, parse_optional_some in Hv.
  destruct (enum_parse _ _ _ _ Hv) as (x & Hx & _ & Hi).
  injection Hx as ->. exact Hi.
Qed.

Lemma array_includes_In (arr : list string) (x : string) :
  JS.array_includes arr x = true <-> In x arr.
Proof.
  unfold JS.array_includes. rewrite existsb_exists. split.
  - intros (y & Hy & E). apply String.eqb_eq in E. now subst.
  - intro H. exists x. split; [exact H | apply String.eqb_refl].
Qed.

(** X19: the sizes of each model are the same everywhere. For a size
    that is not the empty string and a model dall-e-2 or dall-e-3,
    [isValidImageSize] is true exactly when [validateDALLEParams]
    reports no error about the size. [isValidImageSize] is true for no
    other model. And the schemas of the image tools admit only such
    sizes: the one of generate_image a size that is valid for dall-e-2
    or for dall-e-3, the ones of edit_image and create_image_variation
    a size that is valid for dall-e-2. *)
Theorem X19_image_sizes_agree (size : string) :
  (forall p : Utils.DALLEParams,
      Utils.size p = Some size -> size <> EmptyString ->
      Utils.model p = "dall-e-2" \/ Utils.model p = "dall-e-3" ->
      (Utils.isValidImageSize size (Utils.model p) = Return true
       <-> ~ In (size_error (Utils.model p))
                (Utils.errors (Utils.validateDALLEParams p))))
  /\ (forall model,
         Utils.isValidImageSize size model = Return true ->
         model = "dall-e-2" \/ model = "dall-e-3")
  /\ (forall fields,
         lookup "size" fields = Some (JStr size) ->
         accepts Server.GenerateImageSchema (args_of fields) ->
         Utils.isValidImageSize size "dall-e-2" = Return true
         \/ Utils.isValidImageSize size "dall-e-3" = Return true)
  /\ (forall sch fields,
         sch = Server.EditImageSchema \/ sch = Server.CreateImageVariationSchema ->
         lookup "size" fields = Some (JStr size) ->
         accepts sch (args_of fields) ->
         Utils.isValidImageSize size "dall-e-2" = Return true).
Proof.
  repeat match goal with |- _ /\ _ => split end.
  - intros [model sz quality style n] Hs Hne Hm. cbn in Hs, Hm. subst sz.
    apply String.eqb_neq in Hne.
    unfold Utils.validateDALLEParams, Utils.size_not_in, Utils.push_if,
      Utils.isValidImageSize, size_error.
    cbn [Utils.model Utils.size Utils.quality Utils.style Utils.n Utils.errors].
    rewrite Hne. cbn [negb andb].
    destruct Hm as [-> | ->]; cbn [String.eqb Ascii.eqb Bool.eqb].
    + destruct (JS.array_includes ["256x256"; "512x512"; "1024x1024"] size);
        destruct (Utils.is_hd quality); destruct (Utils.present style);
        cbn; split; intro H; try reflexivity; try discriminate;
        try (exfalso; apply H; auto 6);
        intros K; repeat (destruct K as [K | K]; try discriminate K); exact K.
    + destruct (JS.array_includes ["1024x1024"; "1792x1024"; "1024x1792"] size);
        destruct (Utils.n_above_one n);
        cbn; split; intro H; try reflexivity; try discriminate;
        try (exfalso; apply H; auto 6);
        intros K; repeat (destruct K as [K | K]; try discriminate K); exact K.
  - intros model. unfold Utils.isValidImageSize.
    destruct (String.eqb_spec model "dall-e-2") as [-> |]; [now left |].
    destruct (String.eqb_spec model "dall-e-3") as [-> |]; [now right |].
    destruct (JS.array_includes _ model); discriminate.
  - intros fields Hs Ha.
    assert (K : JS.array_includes
                  ["256x256"; "512x512"; "1024x1024"; "1792x1024"; "1024x1792"]
                  size = true).
    { refine (size_field_parse _ _ _ fields size _ _ Hs Ha); [no_dup | in_shape]. }
    apply array_includes_In in K. cbn [In] in K.
    repeat (destruct K as [K | K]; [subst size; (now left) || (now right) |]).
    contradiction.
  - intros sch fields [-> | ->] Hs Ha;
      (assert (K : JS.array_includes ["256x256"; "512x512"; "1024x1024"] size = true);
       [ refine (size_field_parse _ _ _ fields size _ _ Hs Ha); [no_dup | in_shape]
       | unfold Utils.isValidImageSize; cbn; cbn in K; now rewrite K ]).
Qed.

Lemma X19_image_sizes_agree_witness :
  Utils.isValidImageSize "512x512" "dall-e-2" = Return true.
Proof.
  refine (proj2 (proj2 (proj2 (X19_image_sizes_agree "512x512")))
            Server.EditImageSchema
            [("image", JStr "AAAA"); ("prompt", JStr "a cat"); ("size", JStr "512x512")]
            _ _ _).
  - now left.
  - reflexivity.
  - eexists. reflexivity.
Defined.

Lemma Return_includes (arr : list string) (x : string) :
  Return (JS.array_includes arr x) = Return true -> In x arr.
Proof. intro H. injection H as H. now apply array_includes_In. Qed.

(** X20: the table of [supportsFeature] against [getModelFamily]. A
    model that is said to support a feature, whatever the feature, is
    of the family gpt-4 or gpt-3.5 and supports streaming and
    functions; a model with vision is of the family gpt-4 and supports
    JSON mode as well. *)
Theorem X20_supported_models (model feature : string) :
  Utils.supportsFeature model feature = Return true ->
  (Utils.getModelFamily model = "gpt-4"
   \/ Utils.getModelFamily model = "gpt-3.5")
  /\ Utils.supportsFeature model "streaming" = Return true
  /\ Utils.supportsFeature model "functions" = Return true
  /\ (feature = "vision" ->
      Utils.getModelFamily model = "gpt-4"
      /\ Utils.supportsFeature model "json_mode" = Return true).
Proof.
  intro H.
  assert (K : In model ["gpt-4o"; "gpt-4-turbo"; "gpt-4"; "gpt-3.5-turbo"]
              /\ (feature = "vision" -> In model ["gpt-4o"; "gpt-4-turbo"])).
  { unfold Utils.supportsFeature in H.
    destruct (String.eqb feature "streaming") eqn:ES.
    { apply String.eqb_eq in ES. subst feature. apply Return_includes in H. split; [exact H | discriminate]. }
    destruct (String.eqb feature "functions") eqn:EF.
    { apply String.eqb_eq in EF. subst feature. apply Return_includes in H. split; [exact H | discriminate]. }
    destruct (String.eqb feature "vision") eqn:EV.
    { apply String.eqb_eq in EV. subst feature. apply Return_includes in H. split; [| now intros _].
      cbn [In] in *. intuition. }
    destruct (String.eqb feature "json_mode") eqn:EJ.
    { apply String.eqb_eq in EJ. subst feature. apply Return_includes in H. split; [| discriminate].
      cbn [In] in *. intuition. }
    destruct (JS.array_includes _ feature); discriminate. }
  destruct K as [K V]. cbn [In] in K, V.
  repeat match goal with |- _ /\ _ => split end.
  - repeat (destruct K as [K | K]; [subst model; (now left) || (now right) |]).
    contradiction.
  - repeat (destruct K as [K | K]; [subst model; reflexivity |]). contradiction.
  - repeat (destruct K as [K | K]; [subst model; reflexivity |]). contradiction.
  - intro F. specialize (V F).
    repeat (destruct V as [V | V]; [subst model; split; reflexivity |]).
    contradiction.
Qed.

Lemma X20_supported_models_witness :
  Utils.getModelFamily "gpt-4o" = "gpt-4"
  /\ Utils.supportsFeature "gpt-4o" "json_mode" = Return true.
Proof.
  exact (proj2 (proj2 (proj2 (X20_supported_models "gpt-4o" "vision" eq_refl)))
           eq_refl).
Defined.

(** ** What reaches the API *)

Lemma forwards_silent (keys : list string) {A} (m : M A) :
  silent m -> forwards keys m.
Proof. intros H req p Hin. now apply H in Hin. Qed.

Lemma forwards_bind (keys : list string) {A B} (m : M A) (k : A -> M B) :
  forwards keys m -> (forall a, forwards keys (k a)) -> forwards keys (bind m k).
Proof.
  intros Hm Hk req p. rewrite bind_run.
  destruct m as [t [a | e]]; cbn.
  - intros Hin. apply in_app_or in Hin. destruct Hin as [Hin | Hin].
    + exact (Hm req p Hin).
    + exact (Hk a req p Hin).
  - intros Hin. exact (Hm req p Hin).
Qed.

Lemma forwards_try_catch (keys : list string) {A} (m : M A) (h : exn -> M A) :
  forwards keys m -> (forall e, forwards keys (h e)) ->
  forwards keys (try_catch m h).
Proof.
  intros Hm Hh req p. rewrite try_catch_run.
  destruct m as [t [a | e]]; cbn.
  - intros Hin. exact (Hm req p Hin).
  - intros Hin. apply in_app_or in Hin. destruct Hin as [Hin | Hin].
    + exact (Hm req p Hin).
    + exact (Hh e req p Hin).
Qed.

Lemma forwards_call (W : Platform) (keys : list string) (req : api_request) :
  (forall p, request_params req = Some p -> only_keys keys p) ->
  forwards keys (call W req).
Proof.
  intros H req' p [Hin | []]. injection Hin as <-. apply H.
Qed.

Lemma parse_object_keys (shape : list (string * Zod.schema)) (args v : value) :
  Zod.parse (Zod.ZObject shape) [] args = Zod.Ok v ->
  only_keys (map fst shape) v.
Proof.
  destruct args as [[| | | | | fields] |]; try discriminate.
  rewrite parse_object.
  destruct (Zod.parse_shape Zod.parse shape [] fields) as [iss out] eqn:E.
  destruct iss; [| discriminate]. intro H. injection H as <-.
  exists out. split; [reflexivity |]. intros k Hk.
  pose proof (parse_shape_keys Zod.parse shape [] fields k Hk) as K.
  now rewrite E in K.
Qed.

Lemma forwards_zparse (keys : list string) (shape : list (string * Zod.schema))
      (args : value) {A} (k : value -> M A) :
  (forall v, only_keys (map fst shape) v -> forwards keys (k v)) ->
  forwards keys (bind (zparse (Zod.ZObject shape) args) k).
Proof.
  intro H. unfold zparse.
  destruct (Zod.parse (Zod.ZObject shape) [] args) as [v | issues] eqn:E.
  - rewrite bind_ret. apply H. now apply (parse_object_keys shape args).
  - apply forwards_silent, pure_silent. reflexivity.
Qed.

Lemma lookup_defined_props (props : list (string * value)) (k : string) :
  ~ In k (map fst props) -> lookup k (defined_props props) = None.
Proof.
  induction props as [| [k0 [v |]] rest IH]; cbn [map fst defined_props lookup In];
    intro H; [reflexivity | |].
  - destruct (String.eqb_spec k k0) as [-> |]; [now destruct H; left |].
    apply IH. intro K. apply H. now right.
  - apply IH. intro K. apply H. now right.
Qed.

Lemma object_only_keys (keys : list string) (props : list (string * value)) :
  incl (map fst props) keys -> only_keys keys (Some (object props)).
Proof.
  intro H. exists (defined_props props). split; [reflexivity |].
  intros k Hk. apply lookup_defined_props. intro K. apply Hk. now apply H.
Qed.

Ltac forwards_steps W :=
  repeat first
    [ apply forwards_silent, pure_silent, pure_checks
    | apply forwards_silent, silent_imageToBuffer_of
    | apply forwards_bind; [| intro]
    | apply forwards_silent, pure_silent, pure_ret
    | apply forwards_silent, pure_silent, pure_throw
    | solve [apply forwards_silent, pure_silent; pure_steps]
    | match goal with
      | |- forwards _ (if ?c then _ else _) => destruct c
      end ].

Ltac split_name :=
  match goal with
  | |- forwards _ (if String.eqb ?n ?s then _ else _) =>
      let E := fresh "E" in
      destruct (String.eqb n s) eqn:E; [apply String.eqb_eq in E; subst n |]
  end.

Lemma Server_dispatch_forwards (W : Platform) (name : string) (args : value) :
  forwards (tool_keys Server_schemas name) (Server.dispatch W name args).
Proof.
  unfold Server.dispatch.
  repeat split_name.
  - apply forwards_zparse. intros v Hv. forwards_steps W.
    apply forwards_call. intros p H. now injection H as <-.
  - apply forwards_zparse. intros v Hv. forwards_steps W.
    apply forwards_call. intros p H. now injection H as <-.
  - apply forwards_zparse. intros v Hv. forwards_steps W.
    apply forwards_call. intros p H. now injection H as <-.
  - apply forwards_zparse. intros v Hv. forwards_steps W.
    apply forwards_call. discriminate.
  - apply forwards_zparse. intros v Hv. forwards_steps W.
    apply forwards_call. discriminate.
  - forwards_steps W. apply forwards_call. discriminate.
  - apply forwards_silent, pure_silent, pure_throw.
Qed.

Ltac listed_keys :=
  apply object_only_keys; intros k Hk; cbn [map fst In] in Hk;
  repeat (destruct Hk as [Hk | Hk]; [subst k; cbn; tauto |]);
  contradiction.

Lemma Index_dispatch_forwards (W : Platform) (name : string) (args : value) :
  forwards (tool_keys Index_schemas name) (Index.dispatch W name args).
Proof.
  unfold Index.dispatch.
  repeat split_name.
  - apply forwards_zparse. intros v Hv.
    apply forwards_try_catch;
      [| intro; apply forwards_silent, pure_silent, pure_on_api_error].
    apply forwards_bind; [| intro; apply forwards_silent, pure_silent; pure_steps].
    apply forwards_call. intros p H. injection H as <-. listed_keys.
  - apply forwards_zparse. intros v Hv.
    apply forwards_try_catch;
      [| intro; apply forwards_silent, pure_silent, pure_on_api_error].
    apply forwards_bind; [| intro; apply forwards_silent, pure_silent; pure_steps].
    apply forwards_call. intros p H. injection H as <-. listed_keys.
  - apply forwards_try_catch;
      [| intro; apply forwards_silent, pure_silent, pure_on_api_error].
    apply forwards_bind; [apply forwards_call; discriminate |].
    intro r. apply forwards_silent, pure_silent.
    apply pure_bind; [apply pure_prop | intros [[| | | | items |] |]]; pure_steps.
  - apply forwards_zparse. intros v Hv.
    apply forwards_try_catch;
      [| intro; apply forwards_silent, pure_silent, pure_on_api_error].
    apply forwards_bind; [| intro; apply forwards_silent, pure_silent; pure_steps].
    apply forwards_call. intros p H. injection H as <-. listed_keys.
  - apply forwards_silent, pure_silent, pure_throw.
Qed.

(** X21: only fields of the schema reach the API. Whatever the
    arguments of a tool call, the parameter object of every
    chat-completion, embedding, image-generation or moderation request
    that either server sends has no other keys than the fields of the
    schema of the tool: an argument the schema does not know is never
    passed on. *)
Theorem X21_unknown_arguments_are_dropped
        (W : Platform) (name : string) (args : value)
        (req : api_request) (p : value) :
  request_params req = Some p ->
  (In (Called req) (trace (Server.handler W name args)) ->
   only_keys (tool_keys Server_schemas name) p)
  /\ (In (Called req) (trace (Index.handler W name args)) ->
      only_keys (tool_keys Index_schemas name) p).
Proof.
  intro Hp. split; intro Hin.
  - refine (forwards_try_catch _ _ _ (Server_dispatch_forwards W name args) _
                               req p Hin Hp).
    intro e. apply forwards_silent, pure_silent, pure_Server_on_error.
  - refine (forwards_try_catch _ _ _ (Index_dispatch_forwards W name args) _
                               req p Hin Hp).
    intro e. apply forwards_silent, pure_silent, pure_Index_on_error.
Qed.

Lemma X21_unknown_arguments_witness :
  only_keys (tool_keys Index_schemas "moderate_content")
    (Some (JObj [("model", JStr "omni-moderation-latest"); ("input", JStr "hi")])).
Proof.
  refine (proj2 (X21_unknown_arguments_are_dropped quiet_platform "moderate_content"
                   (args_of [("input", JStr "hi"); ("extra", JBool true)])
                   (moderations_create
                      (Some (JObj [("model", JStr "omni-moderation-latest");
                                   ("input", JStr "hi")])))
                   _ eq_refl) _).
  left. reflexivity.
Defined.

